(** * SSTable stream writer (package sstables, sstable_writer.go)

    A shallow embedding of [SSTableStreamWriter] and [SSTableSimpleWriter]:
    the writer struct is a record, every method is a function that threads
    the external world (file system, RecordIO writers, meta file) and the
    writer's own fields explicitly, and a Go [error] result is an
    [outcome].  The collaborators that live outside sstable_writer.go are
    an interface ([Env]); theorems hold for every implementation of it, and
    a small in-memory implementation with fault injection ([Sim]) is used
    to run the code on concrete inputs.  The theorems on the content of
    the files, whose names start with [Sim_], are stated on that
    implementation. *)

From Stdlib Require Import ZArith List Ascii String Bool Lia.
From Stdlib Require Import Strings.Byte Sorting.Sorted.
Import ListNotations.

Local Open Scope string_scope.
Local Open Scope list_scope.
Local Open Scope Z_scope.

Set Warnings "-register-all".

(** ** Go values used by the writer *)

(** A Go [[]byte].  [None] is the nil slice, [Some []] an empty slice that
    is not nil: the writer tests both [lastKey != nil] and [value == nil]. *)
Definition bytes : Type := option (list byte).

(** The elements of a slice; the nil slice has none. *)
Definition elems (b : bytes) : list byte :=
  match b with
  | None => []
  | Some l => l
  end.

(** Go's [len]. *)
Definition len (b : bytes) : nat := List.length (elems b).

(** Go's [make([]byte, n)]: a fresh zeroed slice, never nil. *)
Definition make (n : nat) : bytes := Some (repeat x00 n).

(** Go's [copy(dst, src)]: overwrites the first [min (len dst) (len src)]
    elements of [dst]; the result is the content of [dst] afterwards. *)
Definition copy (dst src : bytes) : bytes :=
  match dst with
  | None => None
  | Some d =>
      let n := Nat.min (List.length d) (len src) in
      Some (firstn n (elems src) ++ skipn n d)
  end.

(** [b != nil] *)
Definition is_nil (b : bytes) : bool :=
  match b with
  | None => true
  | Some _ => false
  end.

Definition bytes_of_string (s : string) : bytes := Some (list_byte_of_string s).

Definition byte_val (b : byte) : Z := Z.of_N (Byte.to_N b).

(** Wrap-around of [uint64] arithmetic. *)
Definition wrap64 (z : Z) : Z := z mod 2 ^ 64.

(** ** Go errors *)

(** The error values the writer builds: [errors.New] and [fmt.Errorf]
    without [%w] give an [errorString]; [fmt.Errorf("<ctx>: %w", e)] gives a
    [wrapError] (the message is [ctx ++ ": " ++ message of e]);
    [errors.Join] gives a [joinError] over its non-nil arguments. *)
Inductive error : Type :=
| errorString (msg : string)
| wrapError (ctx : string) (e : error)
| joinError (errs : list error).

(** A Go [error] result: [None] is [nil]. *)
Definition goerr : Type := option error.

(** [errors.Join(errs...)]: nil arguments are dropped, the result is nil
    when none is left. *)
Definition errors_Join (errs : list goerr) : goerr :=
  match flat_map (fun o => match o with Some e => [e] | None => [] end) errs with
  | [] => None
  | es => Some (joinError es)
  end.

(** [fmt.Errorf(ctx + ": %w", e)].  With a nil operand Go formats the verb
    as [%!w(<nil>)] and wraps nothing. *)
Definition Errorf_w (ctx : string) (e : goerr) : error :=
  match e with
  | Some e' => wrapError ctx e'
  | None => errorString (ctx ++ ": %!w(<nil>)")%string
  end.

(** The errors joined inside an error, in order: what a caller finds by
    unwrapping the [joinError]s. *)
Fixpoint causes (e : error) : list error :=
  match e with
  | joinError es => flat_map causes es
  | _ => [e]
  end.

Definition causes_of (o : goerr) : list error :=
  match o with
  | Some e => causes e
  | None => []
  end.

(** What a call of a method returning [error] does: return nil, return an
    error, or panic (a nil pointer or nil interface is dereferenced). *)
Inductive outcome : Type :=
| Ok
| Err (e : error)
| Panic.

Definition outcome_of (o : goerr) : outcome :=
  match o with
  | None => Ok
  | Some e => Err e
  end.

(** A Go [(value, error)] result. *)
Inductive res (A : Type) : Type :=
| Val (a : A)
| Fail (e : error).
Arguments Val {A} a.
Arguments Fail {A} e.

(** ** Hashes of the Go standard library *)

Module fnv.

Definition offset64 : Z := 14695981039346656037.
Definition prime64 : Z := 1099511628211.

(** [fnv.New64()] followed by [Write(data)] and [Sum64()]: the 64-bit FNV-1
    hash, which multiplies by the prime and then xors the byte in. *)
Definition New64 (data : list byte) : Z :=
  fold_left (fun hash c => Z.lxor (wrap64 (hash * prime64)) (byte_val c)) data offset64.

(** [fnv.New64a()] followed by [Write(data)] and [Sum64()]: the 64-bit
    FNV-1a hash, which xors the byte in and then multiplies. *)
Definition New64a (data : list byte) : Z :=
  fold_left (fun hash c => wrap64 (Z.lxor hash (byte_val c) * prime64)) data offset64.

End fnv.

Module crc64.

Definition ISO : Z := 0xD800000000000000.

(** One entry of [crc64.MakeTable(poly)]. *)
Definition table_entry (poly : Z) (i : Z) : Z :=
  fold_left
    (fun crc (_ : unit) =>
       if Z.testbit crc 0 then Z.lxor (Z.shiftr crc 1) poly else Z.shiftr crc 1)
    (repeat tt 8) i.

(** [update(crc, tab, p)] of hash/crc64. *)
Definition update (crc : Z) (poly : Z) (p : list byte) : Z :=
  let inv := fun c => Z.lxor c (2 ^ 64 - 1) in
  inv (fold_left
         (fun crc v =>
            Z.lxor (table_entry poly (Z.lxor (Z.land crc 255) (byte_val v)))
                   (Z.shiftr crc 8))
         p (inv crc)).

(** [crc64.New(crc64.MakeTable(crc64.ISO))], [Write(p)], [Sum64()].  [Write]
    of a hash never returns an error. *)
Definition Sum64_ISO (p : list byte) : Z := update 0 ISO p.

End crc64.

(** ** Messages of package sstables (sProto) *)

Module sProto.

(** [sProto.MetaData]; the counters and sizes are [uint64], [Version] is
    [uint32]. *)
Record MetaData : Type := mkMetaData {
  Version : Z;
  NumRecords : Z;
  NullValues : Z;
  MinKey : bytes;
  MaxKey : bytes;
  DataBytes : Z;
  IndexBytes : Z;
  TotalBytes : Z
}.

(** [sProto.IndexEntry]. *)
Record IndexEntry : Type := mkIndexEntry {
  Key : bytes;
  ValueOffset : Z;
  Checksum : Z
}.

End sProto.

(** [skiplist.Comparator[[]byte]]: [Compare(a, b)] is negative, zero or
    positive. *)
Definition Comparator : Type := bytes -> bytes -> Z.

(** ** The collaborators of the writer

    Everything sstable_writer.go calls but does not define: the RecordIO
    writers behind [rProto.WriterI] and [recordio.WriterI], the meta file
    ([os.File]), the bloom filter (github.com/steakknife/bloomfilter),
    [proto.Marshal], [filepath.Join] and the constants of the package that
    are declared in other files.  Operations with an effect outside the
    writer struct take the world and return the new one. *)
Class Env : Type := {
  World : Type;
  float64 : Type;
  (** the literal [0.01] *)
  float64_0_01 : float64;

  IndexFileName : string;
  DataFileName : string;
  MetaFileName : string;
  BloomFileName : string;
  sstables_Version : Z;
  CompressionTypeNone : Z;
  CompressionTypeSnappy : Z;

  filepath_Join : string -> string -> string;

  (** [rProto.WriterI], created by [rProto.NewWriter(Path, CompressionType,
      WriteBufferSizeBytes)] *)
  IndexWriter : Type;
  rProto_NewWriter : string -> Z -> Z -> World -> World * res IndexWriter;
  iw_Open : IndexWriter -> World -> World * goerr;
  iw_Write : IndexWriter -> sProto.IndexEntry -> World -> World * res Z;
  iw_Size : IndexWriter -> World -> Z;
  iw_Close : IndexWriter -> World -> World * goerr;

  (** [recordio.WriterI], created by [recordio.NewFileWriter(Path,
      CompressionType, BufferSizeBytes)] *)
  DataWriter : Type;
  recordio_NewFileWriter : string -> Z -> Z -> World -> World * res DataWriter;
  dw_Open : DataWriter -> World -> World * goerr;
  dw_Write : DataWriter -> bytes -> World -> World * res Z;
  dw_Seek : DataWriter -> Z -> World -> World * goerr;
  dw_Size : DataWriter -> World -> Z;
  dw_Close : DataWriter -> World -> World * goerr;

  (** [os.OpenFile(path, os.O_WRONLY|os.O_CREATE, 0666)] and the two
      methods of [*os.File] the writer uses *)
  File : Type;
  os_OpenFile : string -> World -> World * res File;
  file_Write : File -> list byte -> World -> World * goerr;
  file_Close : File -> World -> World * goerr;

  (** [*bloomfilter.Filter]: [NewOptimal(maxN, p)], [Add(hash)] (which reads
      the hash's [Sum64()]) and [WriteFile(path)] *)
  Filter : Type;
  bloomfilter_NewOptimal : Z -> float64 -> res Filter;
  bf_Add : Filter -> Z -> Filter;
  bf_WriteFile : Filter -> string -> World -> World * goerr;

  proto_Marshal : sProto.MetaData -> res (list byte)
}.

Section Writer.

Context {E : Env}.

(** ** Options *)

Record SSTableWriterOptions : Type := mkOptions {
  basePath : string;
  indexCompressionType : Z;
  dataCompressionType : Z;
  enableBloomFilter : bool;
  bloomExpectedNumberOfElements : Z;
  bloomFpProbability : float64;
  writeBufferSizeBytes : Z;
  keyComparator : option Comparator
}.

(** [WriterOption], a function on a pointer to the options: the update it
    makes. *)
Definition WriterOption : Type := SSTableWriterOptions -> SSTableWriterOptions.

Definition WriteBasePath (p : string) : WriterOption :=
  fun args =>
    mkOptions p (indexCompressionType args) (dataCompressionType args)
      (enableBloomFilter args) (bloomExpectedNumberOfElements args)
      (bloomFpProbability args) (writeBufferSizeBytes args) (keyComparator args).

Definition IndexCompressionType (p : Z) : WriterOption :=
  fun args =>
    mkOptions (basePath args) p (dataCompressionType args)
      (enableBloomFilter args) (bloomExpectedNumberOfElements args)
      (bloomFpProbability args) (writeBufferSizeBytes args) (keyComparator args).

Definition DataCompressionType (p : Z) : WriterOption :=
  fun args =>
    mkOptions (basePath args) (indexCompressionType args) p
      (enableBloomFilter args) (bloomExpectedNumberOfElements args)
      (bloomFpProbability args) (writeBufferSizeBytes args) (keyComparator args).

Definition EnableBloomFilter : WriterOption :=
  fun args =>
    mkOptions (basePath args) (indexCompressionType args) (dataCompressionType args)
      true (bloomExpectedNumberOfElements args)
      (bloomFpProbability args) (writeBufferSizeBytes args) (keyComparator args).

Definition BloomExpectedNumberOfElements (n : Z) : WriterOption :=
  fun args =>
    mkOptions (basePath args) (indexCompressionType args) (dataCompressionType args)
      (enableBloomFilter args) n
      (bloomFpProbability args) (writeBufferSizeBytes args) (keyComparator args).

Definition BloomFalsePositiveProbability (fpProbability : float64) : WriterOption :=
  fun args =>
    mkOptions (basePath args) (indexCompressionType args) (dataCompressionType args)
      (enableBloomFilter args) (bloomExpectedNumberOfElements args)
      fpProbability (writeBufferSizeBytes args) (keyComparator args).

Definition WriteBufferSizeBytes (bufSizeBytes : Z) : WriterOption :=
  fun args =>
    mkOptions (basePath args) (indexCompressionType args) (dataCompressionType args)
      (enableBloomFilter args) (bloomExpectedNumberOfElements args)
      (bloomFpProbability args) bufSizeBytes (keyComparator args).

Definition WithKeyComparator (cmp : Comparator) : WriterOption :=
  fun args =>
    mkOptions (basePath args) (indexCompressionType args) (dataCompressionType args)
      (enableBloomFilter args) (bloomExpectedNumberOfElements args)
      (bloomFpProbability args) (writeBufferSizeBytes args) (Some cmp).

(** ** The writer struct *)

Record SSTableStreamWriter : Type := mkWriter {
  opts : SSTableWriterOptions;
  indexFilePath : string;
  dataFilePath : string;
  metaFilePath : string;
  indexWriter : option IndexWriter;
  dataWriter : option DataWriter;
  metaDataFile : option File;
  bloomFilter : option Filter;
  metaData : option sProto.MetaData;
  lastKey : bytes
}.

Definition set_indexFilePath (w : SSTableStreamWriter) (p : string) :=
  mkWriter (opts w) p (dataFilePath w) (metaFilePath w) (indexWriter w)
    (dataWriter w) (metaDataFile w) (bloomFilter w) (metaData w) (lastKey w).

Definition set_dataFilePath (w : SSTableStreamWriter) (p : string) :=
  mkWriter (opts w) (indexFilePath w) p (metaFilePath w) (indexWriter w)
    (dataWriter w) (metaDataFile w) (bloomFilter w) (metaData w) (lastKey w).

Definition set_metaFilePath (w : SSTableStreamWriter) (p : string) :=
  mkWriter (opts w) (indexFilePath w) (dataFilePath w) p (indexWriter w)
    (dataWriter w) (metaDataFile w) (bloomFilter w) (metaData w) (lastKey w).

Definition set_indexWriter (w : SSTableStreamWriter) (x : option IndexWriter) :=
  mkWriter (opts w) (indexFilePath w) (dataFilePath w) (metaFilePath w) x
    (dataWriter w) (metaDataFile w) (bloomFilter w) (metaData w) (lastKey w).

Definition set_dataWriter (w : SSTableStreamWriter) (x : option DataWriter) :=
  mkWriter (opts w) (indexFilePath w) (dataFilePath w) (metaFilePath w) (indexWriter w)
    x (metaDataFile w) (bloomFilter w) (metaData w) (lastKey w).

Definition set_metaDataFile (w : SSTableStreamWriter) (x : option File) :=
  mkWriter (opts w) (indexFilePath w) (dataFilePath w) (metaFilePath w) (indexWriter w)
    (dataWriter w) x (bloomFilter w) (metaData w) (lastKey w).

Definition set_bloomFilter (w : SSTableStreamWriter) (x : option Filter) :=
  mkWriter (opts w) (indexFilePath w) (dataFilePath w) (metaFilePath w) (indexWriter w)
    (dataWriter w) (metaDataFile w) x (metaData w) (lastKey w).

Definition set_metaData (w : SSTableStreamWriter) (x : option sProto.MetaData) :=
  mkWriter (opts w) (indexFilePath w) (dataFilePath w) (metaFilePath w) (indexWriter w)
    (dataWriter w) (metaDataFile w) (bloomFilter w) x (lastKey w).

Definition set_lastKey (w : SSTableStreamWriter) (x : bytes) :=
  mkWriter (opts w) (indexFilePath w) (dataFilePath w) (metaFilePath w) (indexWriter w)
    (dataWriter w) (metaDataFile w) (bloomFilter w) (metaData w) x.

(** Updates of the fields of [writer.metaData] the writer assigns. *)
Definition md_set_MinKey (md : sProto.MetaData) (k : bytes) : sProto.MetaData :=
  sProto.mkMetaData (sProto.Version md) (sProto.NumRecords md) (sProto.NullValues md)
    k (sProto.MaxKey md) (sProto.DataBytes md) (sProto.IndexBytes md) (sProto.TotalBytes md).

Definition md_set_counters (md : sProto.MetaData) (numRecords nullValues : Z) : sProto.MetaData :=
  sProto.mkMetaData (sProto.Version md) numRecords nullValues
    (sProto.MinKey md) (sProto.MaxKey md) (sProto.DataBytes md) (sProto.IndexBytes md)
    (sProto.TotalBytes md).

Definition md_finalize (md : sProto.MetaData) (maxKey : bytes) (dataBytes indexBytes : Z)
  : sProto.MetaData :=
  sProto.mkMetaData (sProto.Version md) (sProto.NumRecords md) (sProto.NullValues md)
    (sProto.MinKey md) maxKey dataBytes indexBytes (wrap64 (dataBytes + indexBytes)).

(** ** Error values *)

Definition quoted (p : string) : string := ("'" ++ p ++ "'")%string.

(** The duplicate-key error of [WriteNext]. *)
Definition errDuplicateKey (bp : string) : error :=
  errorString ("sstables.WriteNext " ++ quoted bp
               ++ ": the same key cannot be written more than once")%string.

(** The out-of-order-key error of [WriteNext]. *)
Definition errOutOfOrderKey (bp : string) : error :=
  errorString ("sstables.WriteNext " ++ quoted bp
               ++ ": non-ascending key cannot be written")%string.

(** The error of [WriteNext] on a writer that has no metadata. *)
Definition errNotOpened (bp : string) : error :=
  errorString ("sstables.writeNext " ++ quoted bp
               ++ ": no metadata available to write into, table might not be opened yet")%string.

(** [fmt.Errorf("<what> in '<basePath>': %w", err)] *)
Definition errIn (what bp : string) (err : goerr) : error :=
  Errorf_w (what ++ " in " ++ quoted bp)%string err.

(** ** Open *)

Definition Open (writer : SSTableStreamWriter) (st : World)
  : World * SSTableStreamWriter * outcome :=
  let bp := basePath (opts writer) in
  let writer := set_indexFilePath writer (filepath_Join bp IndexFileName) in
  match rProto_NewWriter (indexFilePath writer) (indexCompressionType (opts writer))
          (writeBufferSizeBytes (opts writer)) st with
  | (st, Fail err) =>
      (st, writer, Err (errIn "error while creating index writer" bp (Some err)))
  | (st, Val iWriter) =>
  let writer := set_indexWriter writer (Some iWriter) in
  match iw_Open iWriter st with
  | (st, Some err) =>
      (st, writer, Err (errIn "error while opening index writer" bp (Some err)))
  | (st, None) =>
  let writer := set_dataFilePath writer (filepath_Join bp DataFileName) in
  match recordio_NewFileWriter (dataFilePath writer) (dataCompressionType (opts writer))
          (writeBufferSizeBytes (opts writer)) st with
  | (st, Fail err) =>
      (st, writer, Err (errIn "error while creating data writer" bp (Some err)))
  | (st, Val dWriter) =>
  let writer := set_dataWriter writer (Some dWriter) in
  match dw_Open dWriter st with
  | (st, Some err) =>
      (st, writer, Err (errIn "error while opening data writer" bp (Some err)))
  | (st, None) =>
  let writer := set_metaFilePath writer (filepath_Join bp MetaFileName) in
  match os_OpenFile (metaFilePath writer) st with
  | (st, Fail err) =>
      (st, writer, Err (errIn "error while opening metadata file" bp (Some err)))
  | (st, Val metaFile) =>
  let writer := set_metaDataFile writer (Some metaFile) in
  let writer :=
    set_metaData writer (Some (sProto.mkMetaData sstables_Version 0 0 None None 0 0 0)) in
  if enableBloomFilter (opts writer) then
    match bloomfilter_NewOptimal (bloomExpectedNumberOfElements (opts writer))
            (bloomFpProbability (opts writer)) with
    | Fail err =>
        (st, writer, Err (errIn "error while creating bloomfilter" bp (Some err)))
    | Val bf => (st, set_bloomFilter writer (Some bf), Ok)
    end
  else (st, writer, Ok)
  end end end end end.

(** ** WriteNext *)

(** The first statement of [WriteNext]: the ordering check against
    [lastKey], or on the first call the check that there is metadata and the
    initialisation of [MinKey] and of the [lastKey] buffer.  It returns
    either the early result or the writer to go on with. *)
Definition WriteNext_check (writer : SSTableStreamWriter) (key : bytes)
  : outcome + SSTableStreamWriter :=
  let bp := basePath (opts writer) in
  if negb (is_nil (lastKey writer)) then
    match keyComparator (opts writer) with
    | None => inl Panic
    | Some cmp =>
        let cmpResult := cmp (lastKey writer) key in
        if cmpResult =? 0 then inl (Err (errDuplicateKey bp))
        else if cmpResult >? 0 then inl (Err (errOutOfOrderKey bp))
        else
          (* the size of the key may be variable: a new buffer for the last key *)
          if negb (Nat.eqb (len (lastKey writer)) (len key))
          then inr (set_lastKey writer (make (len key)))
          else inr writer
    end
  else
    match metaData writer with
    | None => inl (Err (errNotOpened bp))
    | Some md =>
        let writer :=
          set_metaData writer (Some (md_set_MinKey md (copy (make (len key)) key))) in
        inr (set_lastKey writer (make (len key)))
    end.

(** The rest of [WriteNext]: from [copy(writer.lastKey, key)] on. *)
Definition WriteNext_append (writer : SSTableStreamWriter) (key value : bytes) (st : World)
  : World * SSTableStreamWriter * outcome :=
  let bp := basePath (opts writer) in
  let writer := set_lastKey writer (copy (lastKey writer) key) in
  let bloomed :=
    if enableBloomFilter (opts writer) then
      match bloomFilter writer with
      | None => None
      | Some bf => Some (set_bloomFilter writer (Some (bf_Add bf (fnv.New64 (elems key)))))
      end
    else Some writer in
  match bloomed with
  | None => (st, writer, Panic)
  | Some writer =>
  let crc := crc64.Sum64_ISO (elems value) in
  match dataWriter writer with
  | None => (st, writer, Panic)
  | Some dw =>
  let preWriteOffset := dw_Size dw st in
  match dw_Write dw value st with
  | (st, Fail err) =>
      (st, writer, Err (errIn "error writeNext data writer error" bp (Some err)))
  | (st, Val recordOffset) =>
  match indexWriter writer with
  | None => (st, writer, Panic)
  | Some iw =>
  match iw_Write iw (sProto.mkIndexEntry key recordOffset crc) st with
  | (st, Fail err) =>
      (* rewind the data writer's offset to preWriteOffset *)
      let '(st, seekErr) := dw_Seek dw preWriteOffset st in
      (st, writer,
       Err (errIn "error writeNext index writer/seeker error" bp
              (errors_Join [Some err; seekErr])))
  | (st, Val _) =>
  match metaData writer with
  | None => (st, writer, Panic)
  | Some md =>
      let numRecords := wrap64 (sProto.NumRecords md + 1) in
      let nullValues :=
        if is_nil value then wrap64 (sProto.NullValues md + 1) else sProto.NullValues md in
      (st, set_metaData writer (Some (md_set_counters md numRecords nullValues)), Ok)
  end end end end end end.

Definition WriteNext (writer : SSTableStreamWriter) (key value : bytes) (st : World)
  : World * SSTableStreamWriter * outcome :=
  match WriteNext_check writer key with
  | inl early => (st, writer, early)
  | inr writer => WriteNext_append writer key value st
  end.

(** ** Close *)

(** The result of [Close] is a named result: the deferred close of the meta
    file joins its error to whatever the body returned.  [MaxKey] is
    assigned the [lastKey] slice itself; the metadata is serialized before
    anything can write to that buffer again, so the record holds its
    content. *)
Definition Close (writer : SSTableStreamWriter) (st : World)
  : World * SSTableStreamWriter * outcome :=
  let bp := basePath (opts writer) in
  match indexWriter writer with
  | None => (st, writer, Panic)
  | Some iw =>
  let '(st, iErr) := iw_Close iw st in
  match dataWriter writer with
  | None => (st, writer, Panic)
  | Some dw =>
  let '(st, dErr) := dw_Close dw st in
  let err := errors_Join [iErr; dErr] in
  let '(st, err) :=
    match enableBloomFilter (opts writer), bloomFilter writer with
    | true, Some bf =>
        let '(st, bErr) := bf_WriteFile bf (filepath_Join bp BloomFileName) st in
        match bErr with
        | Some _ =>
            (st, errors_Join [err; Some (errIn "error in writing bloom filter " bp bErr)])
        | None => (st, err)
        end
    | _, _ => (st, err)
    end in
  match metaData writer, metaDataFile writer with
  | Some md, Some f =>
      let md := md_finalize md (lastKey writer) (dw_Size dw st) (iw_Size iw st) in
      let writer := set_metaData writer (Some md) in
      match proto_Marshal md with
      | Fail mErr =>
          let err := errors_Join [err; Some (errIn "error in serializing metadata" bp (Some mErr))] in
          let '(st, cErr) := file_Close f st in
          (st, writer, outcome_of (errors_Join [err; cErr]))
      | Val bytes =>
          match file_Write f bytes st with
          | (st, Some wErr) =>
              let err := errors_Join [err; Some (errIn "error in writing metadata" bp (Some wErr))] in
              let '(st, cErr) := file_Close f st in
              (st, writer, outcome_of (errors_Join [err; cErr]))
          | (st, None) =>
              let '(st, cErr) := file_Close f st in
              (st, writer, outcome_of (errors_Join [err; cErr]))
          end
      end
  | _, _ => (st, writer, outcome_of err)
  end end end.

(** ** The simple writer *)

Record SSTableSimpleWriter : Type := mkSimpleWriter {
  streamWriter : SSTableStreamWriter
}.

(** A [skiplist.MapI[[]byte, []byte]] as [WriteSkipListMap] sees it: the
    pairs its iterator yields, in order, and what [Next] returns after
    them, [skiplist.Done] ([None]) or another error. *)
Record MapI : Type := mkMapI {
  pairs : list (bytes * bytes);
  after : goerr
}.

(** The [for] loop of [WriteSkipListMap]. *)
Fixpoint WriteSkipListMap_loop (it : list (bytes * bytes)) (after : goerr)
  (writer : SSTableStreamWriter) (st : World) : World * SSTableStreamWriter * outcome :=
  let bp := basePath (opts writer) in
  match it with
  | [] =>
      match after with
      | None => (st, writer, Ok)
      | Some err =>
          (st, writer, Err (errIn "error in getting next skiplist record" bp (Some err)))
      end
  | (k, v) :: it =>
      match WriteNext writer k v st with
      | (st, writer, Ok) => WriteSkipListMap_loop it after writer st
      | (st, writer, Err err) =>
          (st, writer, Err (errIn "error in writing skiplist record" bp (Some err)))
      | (st, writer, Panic) => (st, writer, Panic)
      end
  end.

(** The error part of an outcome that is not a panic. *)
Definition goerr_of (o : outcome) : goerr :=
  match o with
  | Err e => Some e
  | _ => None
  end.

(** What the deferred [err = errors.Join(err, Close())] leaves in the named
    result; a panic of the body or of [Close] goes on. *)
Definition deferred_join (body closed : outcome) : outcome :=
  match body, closed with
  | Panic, _ => Panic
  | _, Panic => Panic
  | _, _ => outcome_of (errors_Join [goerr_of body; goerr_of closed])
  end.

Definition WriteSkipListMap (writer : SSTableSimpleWriter) (skipListMap : MapI) (st : World)
  : World * SSTableSimpleWriter * outcome :=
  match Open (streamWriter writer) st with
  | (st, sw, Ok) =>
      let '(st, sw, body) :=
        WriteSkipListMap_loop (pairs skipListMap) (after skipListMap) sw st in
      let '(st, sw, closed) := Close sw st in
      (st, mkSimpleWriter sw, deferred_join body closed)
  | (st, sw, failed) => (st, mkSimpleWriter sw, failed)
  end.

(** ** Constructors *)

Definition default_options : SSTableWriterOptions :=
  mkOptions "" CompressionTypeNone CompressionTypeSnappy true 1000 float64_0_01
    (1024 * 1024 * 4) None.

Definition apply_options (writerOptions : list WriterOption) (o : SSTableWriterOptions)
  : SSTableWriterOptions :=
  fold_left (fun o writeOption => writeOption o) writerOptions o.

(** The count is a [uint64], so [<= 0] holds for 0 only and [%d] prints 0. *)
Definition NewSSTableStreamWriter (writerOptions : list WriterOption)
  : res SSTableStreamWriter :=
  let opts := apply_options writerOptions default_options in
  if String.eqb (basePath opts) "" then Fail (errorString "basePath was not supplied")
  else
    match keyComparator opts with
    | None => Fail (errorString "no key comparator supplied")
    | Some _ =>
        if bloomExpectedNumberOfElements opts <=? 0
        then Fail (errorString "unexpected number of bloom filter elements, was: 0")
        else Val (mkWriter opts "" "" "" None None None None None None)
    end.

Definition NewSSTableSimpleWriter (writerOptions : list WriterOption)
  : res SSTableSimpleWriter :=
  let writerOptions := writerOptions ++ [WriteBufferSizeBytes 4096] in
  match NewSSTableStreamWriter writerOptions with
  | Fail err => Fail err
  | Val writer => Val (mkSimpleWriter writer)
  end.

(** ** Runs of the stream writer *)

(** A sequence of [WriteNext] calls made one after the other, whatever each
    returns; a panic ends the program.  The outcomes are listed in call
    order. *)
Fixpoint run (calls : list (bytes * bytes)) (writer : SSTableStreamWriter) (st : World)
  : World * SSTableStreamWriter * list outcome :=
  match calls with
  | [] => (st, writer, [])
  | (k, v) :: calls =>
      match WriteNext writer k v st with
      | (st, writer, Panic) => (st, writer, [Panic])
      | (st, writer, o) =>
          let '(st, writer, os) := run calls writer st in
          (st, writer, o :: os)
      end
  end.

(** The keys of the calls that returned nil. *)
Fixpoint written (calls : list (bytes * bytes)) (os : list outcome) : list bytes :=
  match calls, os with
  | (k, _) :: calls, Ok :: os => k :: written calls os
  | _ :: calls, _ :: os => written calls os
  | _, _ => []
  end.

(** The keys of the calls that passed the first statement of [WriteNext]
    (the ordering check, or on the first call the metadata check), whether
    or not the appends that follow succeeded. *)
Fixpoint accepted (calls : list (bytes * bytes)) (writer : SSTableStreamWriter) (st : World)
  : list bytes :=
  match calls with
  | [] => []
  | (k, v) :: calls =>
      match WriteNext writer k v st with
      | (st', writer', Panic) => []
      | (st', writer', _) =>
          match WriteNext_check writer k with
          | inl _ => accepted calls writer' st'
          | inr _ => k :: accepted calls writer' st'
          end
      end
  end.

(** The writer the first statement of [WriteNext] hands on, when it does. *)
Definition passed_writer (writer : SSTableStreamWriter) (key : bytes) : SSTableStreamWriter :=
  match WriteNext_check writer key with
  | inr writer' => writer'
  | inl _ => writer
  end.

(** A comparator that is a strict order on the content of the slices, as
    [bytes.Compare] is. *)
Record comparator_ok (cmp : Comparator) : Prop := {
  cmp_content : forall a b, cmp a b = cmp (Some (elems a)) (Some (elems b));
  cmp_refl : forall a, cmp a a = 0;
  cmp_trans : forall a b c, cmp a b < 0 -> cmp b c < 0 -> cmp a c < 0
}.

(** Open succeeded on this writer: every handle is there, and the bloom
    filter when it is enabled. *)
Definition opened (w : SSTableStreamWriter) : Prop :=
  indexWriter w <> None /\ dataWriter w <> None /\ metaDataFile w <> None /\
  metaData w <> None /\ (enableBloomFilter (opts w) = true -> bloomFilter w <> None).

(** ** The hand-rolled loop of the specification

    The simple writer is specified as equivalent to a loop a caller writes
    over the stream writer: [Open], then [WriteNext] for each pair in
    iterator order, then [Close]. *)

(** One turn of the caller's loop, which goes on only while the calls
    return nil. *)
Definition hand_rolled_step (acc : World * SSTableStreamWriter * outcome) (kv : bytes * bytes)
  : World * SSTableStreamWriter * outcome :=
  match acc with
  | (st, writer, Ok) => WriteNext writer (fst kv) (snd kv) st
  | stopped => stopped
  end.

(** [Open], the loop (left as soon as a call fails), [Close]; nothing is
    written or closed when [Open] fails.  The result is the table state
    (world and writer) and the outcomes of the loop and of [Close]. *)
Definition hand_rolled (M : list (bytes * bytes)) (writer : SSTableStreamWriter) (st : World)
  : World * SSTableStreamWriter * (outcome * outcome) :=
  match Open writer st with
  | (st, writer, Ok) =>
      let '(st, writer, body) := fold_left hand_rolled_step M (st, writer, Ok) in
      let '(st, writer, closed) := Close writer st in
      (st, writer, (body, closed))
  | (st, writer, failed) => (st, writer, (failed, Ok))
  end.

(** The same sequence with every call made whatever the calls before it
    returned. *)
Definition call_sequence (M : list (bytes * bytes)) (writer : SSTableStreamWriter) (st : World)
  : World * SSTableStreamWriter * (outcome * list outcome * outcome) :=
  let '(st, writer, o) := Open writer st in
  let '(st, writer, os) := run M writer st in
  let '(st, writer, closed) := Close writer st in
  (st, writer, (o, os, closed)).

(** ** The steps of Close, one by one *)

(** Writing the bloom file, when bloom is enabled and there is a filter. *)
Definition bloom_step (writer : SSTableStreamWriter) (st : World) : World * goerr :=
  match enableBloomFilter (opts writer), bloomFilter writer with
  | true, Some bf =>
      bf_WriteFile bf (filepath_Join (basePath (opts writer)) BloomFileName) st
  | _, _ => (st, None)
  end.

(** Serializing the metadata and writing it to the meta file. *)
Definition meta_step (md : sProto.MetaData) (f : File) (st : World) : World * goerr :=
  match proto_Marshal md with
  | Fail mErr => (st, Some mErr)
  | Val bytes => file_Write f bytes st
  end.

(** The metadata [Close] serializes. *)
Definition final_metadata (writer : SSTableStreamWriter) (md : sProto.MetaData)
  (iw : IndexWriter) (dw : DataWriter) (st : World) : sProto.MetaData :=
  md_finalize md (lastKey writer) (dw_Size dw st) (iw_Size iw st).

(** The world in which [Close] finalizes and serializes the metadata: the
    index writer closed, then the data writer closed, then the bloom file
    written. *)
Definition closed_world (writer : SSTableStreamWriter) (iw : IndexWriter) (dw : DataWriter)
  (st : World) : World :=
  fst (bloom_step writer (fst (dw_Close dw (fst (iw_Close iw st))))).

(** ** More on runs *)

(** The calls of a run that returned nil, with their values. *)
Fixpoint written_pairs (calls : list (bytes * bytes)) (os : list outcome)
  : list (bytes * bytes) :=
  match calls, os with
  | kv :: calls, Ok :: os => kv :: written_pairs calls os
  | _ :: calls, _ :: os => written_pairs calls os
  | _, _ => []
  end.

(** How many of them have the nil slice as value. *)
Definition nil_values (kvs : list (bytes * bytes)) : nat :=
  List.length (filter (fun kv => is_nil (snd kv)) kvs).

(** A value that fits a [uint64]. *)
Definition is_uint64 (z : Z) : Prop := 0 <= z < 2 ^ 64.

(** The options this file offers, as calls. *)
Inductive OptionCall : Type :=
| CallWriteBasePath (p : string)
| CallIndexCompressionType (p : Z)
| CallDataCompressionType (p : Z)
| CallEnableBloomFilter
| CallBloomExpectedNumberOfElements (n : Z)
| CallBloomFalsePositiveProbability (fpProbability : float64)
| CallWriteBufferSizeBytes (bufSizeBytes : Z)
| CallWithKeyComparator (cmp : Comparator).

Definition option_of (c : OptionCall) : WriterOption :=
  match c with
  | CallWriteBasePath p => WriteBasePath p
  | CallIndexCompressionType p => IndexCompressionType p
  | CallDataCompressionType p => DataCompressionType p
  | CallEnableBloomFilter => EnableBloomFilter
  | CallBloomExpectedNumberOfElements n => BloomExpectedNumberOfElements n
  | CallBloomFalsePositiveProbability fp => BloomFalsePositiveProbability fp
  | CallWriteBufferSizeBytes n => WriteBufferSizeBytes n
  | CallWithKeyComparator cmp => WithKeyComparator cmp
  end.

(** The last base path and the last buffer size a list of calls sets. *)
Fixpoint last_basePath (cs : list OptionCall) (d : string) : string :=
  match cs with
  | [] => d
  | CallWriteBasePath p :: cs => last_basePath cs p
  | _ :: cs => last_basePath cs d
  end.

Fixpoint last_bufferSize (cs : list OptionCall) (d : Z) : Z :=
  match cs with
  | [] => d
  | CallWriteBufferSizeBytes n :: cs => last_bufferSize cs n
  | _ :: cs => last_bufferSize cs d
  end.

(** The last bloom element count a list of calls sets, and whether it sets
    a comparator. *)
Fixpoint last_bloomCount (cs : list OptionCall) (d : Z) : Z :=
  match cs with
  | [] => d
  | CallBloomExpectedNumberOfElements n :: cs => last_bloomCount cs n
  | _ :: cs => last_bloomCount cs d
  end.

Fixpoint has_comparator (cs : list OptionCall) : bool :=
  match cs with
  | [] => false
  | CallWithKeyComparator _ :: _ => true
  | _ :: cs => has_comparator cs
  end.

End Writer.

(** ** An in-memory implementation of the collaborators *)

Module Sim.

(** The calls that can fail with an I/O error. *)
Inductive Op : Type :=
| NewIndex | IndexOpen | IndexWrite | IndexClose
| NewData | DataOpen | DataWrite | DataSeek | DataClose
| MetaOpen | MetaWrite | MetaClose | BloomWrite.

Definition Op_code (o : Op) : nat :=
  match o with
  | NewIndex => 0 | IndexOpen => 1 | IndexWrite => 2 | IndexClose => 3
  | NewData => 4 | DataOpen => 5 | DataWrite => 6 | DataSeek => 7 | DataClose => 8
  | MetaOpen => 9 | MetaWrite => 10 | MetaClose => 11 | BloomWrite => 12
  end%nat.

Definition Op_eqb (a b : Op) : bool := Nat.eqb (Op_code a) (Op_code b).

Inductive handle : Type := NotOpen | IsOpen | IsClosed.

(** Modelled from the spec: the RecordIO writer of package recordio, which
    is not part of sstable_writer.go.  [Open()] creates the file and writes
    the file header; [Write(payload)] returns the starting offset of the
    record, the [Size()] before the append; [Seek(offset)] truncates the
    file back to [offset]; [Size()] is the current byte count; [Close()]
    closes the handle, after which the writer takes no more records.  The
    byte counts (a header of 6 bytes, 7 bytes of framing per record) follow
    the illustrative framing of the spec for short uncompressed payloads. *)
Record rio (P : Type) : Type := mkRio {
  rio_path : string;
  rio_handle : handle;
  rio_size : Z;
  rio_records : list (Z * P)
}.
Arguments mkRio {P} _ _ _ _.
Arguments rio_path {P} _.
Arguments rio_handle {P} _.
Arguments rio_size {P} _.
Arguments rio_records {P} _.

Definition header_len : Z := 6.
Definition framed (payload_len : nat) : Z := 7 + Z.of_nat payload_len.

Definition EIO : error := errorString "input/output error".
Definition ENOENT : error := errorString "no such file or directory".
Definition ErrClosed : error := errorString "file already closed".
Definition ErrNotOpen : error := errorString "writer was either not opened yet or is closed already".

Definition rio_new {P} (path : string) : rio P := mkRio path NotOpen 0 [].

Definition rio_open {P} (dir_ok fail : bool) (f : rio P) : rio P * goerr :=
  if fail then (f, Some EIO)
  else if negb dir_ok then (f, Some ENOENT)
  else
    match rio_handle f with
    | NotOpen => (mkRio (rio_path f) IsOpen header_len [], None)
    | _ => (f, Some ErrNotOpen)
    end.

Definition rio_write {P} (fail : bool) (payload_len : nat) (p : P) (f : rio P)
  : rio P * res Z :=
  if fail then (f, Fail EIO)
  else
    match rio_handle f with
    | IsOpen =>
        (mkRio (rio_path f) IsOpen (rio_size f + framed payload_len)
           (rio_records f ++ [(rio_size f, p)]),
         Val (rio_size f))
    | _ => (f, Fail ErrNotOpen)
    end.

Definition rio_seek {P} (fail : bool) (offset : Z) (f : rio P) : rio P * goerr :=
  if fail then (f, Some EIO)
  else
    match rio_handle f with
    | IsOpen =>
        (mkRio (rio_path f) IsOpen offset
           (filter (fun r => fst r <? offset) (rio_records f)),
         None)
    | _ => (f, Some ErrNotOpen)
    end.

Definition rio_close {P} (fail : bool) (f : rio P) : rio P * goerr :=
  match rio_handle f with
  | IsOpen =>
      (mkRio (rio_path f) IsClosed (rio_size f) (rio_records f),
       if fail then Some EIO else None)
  | _ => (f, Some ErrNotOpen)
  end.

(** The meta file, opened with [O_WRONLY|O_CREATE]: created empty when it
    does not exist, kept as it is when it does; writes go to the current
    offset, which starts at 0. *)
Record metafile : Type := mkMeta {
  meta_content : option (list byte);
  meta_handle : handle;
  meta_offset : nat
}.

Record Disk : Type := mkDisk {
  dirs : list string;
  faults : list (Op * nat);
  calls : list Op;
  index : rio sProto.IndexEntry;
  data : rio bytes;
  meta : metafile;
  bloom : option (list Z)
}.

(** The directory part of a path: what precedes its last slash. *)
Fixpoint dirname (p : string) : option string :=
  match p with
  | EmptyString => None
  | String c rest =>
      match dirname rest with
      | Some d => Some (String c d)
      | None => if Ascii.eqb c "/"%char then Some EmptyString else None
      end
  end.

Definition dir_exists (w : Disk) (d : string) : bool :=
  existsb (String.eqb d) (dirs w).

(** A file can be created only in a directory that exists. *)
Definition dir_ok (w : Disk) (path : string) : bool :=
  match dirname path with
  | Some d => dir_exists w d
  | None => true
  end.

(** The call being made is the [n]-th of its kind, and [faults] says
    whether that one fails. *)
Definition fails (w : Disk) (o : Op) : bool :=
  let n := List.length (filter (Op_eqb o) (calls w)) in
  existsb (fun f => Op_eqb (fst f) o && Nat.eqb (snd f) n) (faults w).

Definition tick (o : Op) (w : Disk) : Disk :=
  mkDisk (dirs w) (faults w) (o :: calls w) (index w) (data w) (meta w) (bloom w).

Definition set_index (w : Disk) (f : rio sProto.IndexEntry) : Disk :=
  mkDisk (dirs w) (faults w) (calls w) f (data w) (meta w) (bloom w).

Definition set_data (w : Disk) (f : rio bytes) : Disk :=
  mkDisk (dirs w) (faults w) (calls w) (index w) f (meta w) (bloom w).

Definition set_meta (w : Disk) (m : metafile) : Disk :=
  mkDisk (dirs w) (faults w) (calls w) (index w) (data w) m (bloom w).

Definition set_bloom (w : Disk) (b : option (list Z)) : Disk :=
  mkDisk (dirs w) (faults w) (calls w) (index w) (data w) (meta w) b.

Definition NewWriter (path : string) (w : Disk) : Disk * res string :=
  if fails w NewIndex then (tick NewIndex w, Fail EIO)
  else (set_index (tick NewIndex w) (rio_new path), Val path).

Definition NewFileWriter (path : string) (w : Disk) : Disk * res string :=
  if fails w NewData then (tick NewData w, Fail EIO)
  else (set_data (tick NewData w) (rio_new path), Val path).

Definition index_Open (w : Disk) : Disk * goerr :=
  let '(f, e) := rio_open (dir_ok w (rio_path (index w))) (fails w IndexOpen) (index w) in
  (set_index (tick IndexOpen w) f, e).

Definition index_Write (entry : sProto.IndexEntry) (w : Disk) : Disk * res Z :=
  let '(f, r) :=
    rio_write (fails w IndexWrite) (len (sProto.Key entry) + 16) entry (index w) in
  (set_index (tick IndexWrite w) f, r).

Definition index_Close (w : Disk) : Disk * goerr :=
  let '(f, e) := rio_close (fails w IndexClose) (index w) in
  (set_index (tick IndexClose w) f, e).

Definition data_Open (w : Disk) : Disk * goerr :=
  let '(f, e) := rio_open (dir_ok w (rio_path (data w))) (fails w DataOpen) (data w) in
  (set_data (tick DataOpen w) f, e).

Definition data_Write (record : bytes) (w : Disk) : Disk * res Z :=
  let '(f, r) := rio_write (fails w DataWrite) (len record) record (data w) in
  (set_data (tick DataWrite w) f, r).

Definition data_Seek (offset : Z) (w : Disk) : Disk * goerr :=
  let '(f, e) := rio_seek (fails w DataSeek) offset (data w) in
  (set_data (tick DataSeek w) f, e).

Definition data_Close (w : Disk) : Disk * goerr :=
  let '(f, e) := rio_close (fails w DataClose) (data w) in
  (set_data (tick DataClose w) f, e).

Definition OpenFile (path : string) (w : Disk) : Disk * res string :=
  if fails w MetaOpen then (tick MetaOpen w, Fail EIO)
  else if negb (dir_ok w path) then (tick MetaOpen w, Fail ENOENT)
  else
    let content :=
      match meta_content (meta w) with
      | None => Some []
      | Some c => Some c
      end in
    (set_meta (tick MetaOpen w) (mkMeta content IsOpen 0), Val path).

Definition meta_Write (b : list byte) (w : Disk) : Disk * goerr :=
  if fails w MetaWrite then (tick MetaWrite w, Some EIO)
  else
    match meta_handle (meta w), meta_content (meta w) with
    | IsOpen, Some c =>
        let off := meta_offset (meta w) in
        let c' := firstn off c ++ b ++ skipn (off + List.length b) c in
        (set_meta (tick MetaWrite w) (mkMeta (Some c') IsOpen (off + List.length b)), None)
    | _, _ => (tick MetaWrite w, Some ErrClosed)
    end.

Definition meta_Close (w : Disk) : Disk * goerr :=
  match meta_handle (meta w) with
  | IsOpen =>
      (set_meta (tick MetaClose w)
         (mkMeta (meta_content (meta w)) IsClosed (meta_offset (meta w))),
       if fails w MetaClose then Some EIO else None)
  | _ => (tick MetaClose w, Some ErrClosed)
  end.

(** The bloom filter, as the hashes added to it, and its file. *)
Definition WriteFile (bf : list Z) (path : string) (w : Disk) : Disk * goerr :=
  if fails w BloomWrite then (tick BloomWrite w, Some EIO)
  else if negb (dir_ok w path) then (tick BloomWrite w, Some ENOENT)
  else (set_bloom (tick BloomWrite w) (Some bf), None).

Definition byte_of_Z (z : Z) : byte :=
  match Byte.of_N (Z.to_N (z mod 256)) with
  | Some b => b
  | None => x00
  end.

(** A stand-in for the protobuf encoding of the metadata: a byte per
    number, the keys with their length in front. *)
Definition Marshal (md : sProto.MetaData) : res (list byte) :=
  let num := fun z => [byte_of_Z z] in
  let key := fun k => byte_of_Z (Z.of_nat (len k)) :: elems k in
  Val (num (sProto.Version md) ++ num (sProto.NumRecords md) ++ num (sProto.NullValues md)
       ++ key (sProto.MinKey md) ++ key (sProto.MaxKey md)
       ++ num (sProto.DataBytes md) ++ num (sProto.IndexBytes md)
       ++ num (sProto.TotalBytes md)).

(** The file names are those of the table layout of the spec. *)
#[export] Instance env : Env := {|
  World := Disk;
  float64 := Z * Z;
  float64_0_01 := (1, 100);
  IndexFileName := "index";
  DataFileName := "data";
  MetaFileName := "meta";
  BloomFileName := "bloom";
  sstables_Version := 1;
  CompressionTypeNone := 0;
  CompressionTypeSnappy := 2;
  filepath_Join := fun a b => (a ++ "/" ++ b)%string;
  IndexWriter := string;
  rProto_NewWriter := fun path _ _ => NewWriter path;
  iw_Open := fun _ => index_Open;
  iw_Write := fun _ => index_Write;
  iw_Size := fun _ w => rio_size (index w);
  iw_Close := fun _ => index_Close;
  DataWriter := string;
  recordio_NewFileWriter := fun path _ _ => NewFileWriter path;
  dw_Open := fun _ => data_Open;
  dw_Write := fun _ => data_Write;
  dw_Seek := fun _ => data_Seek;
  dw_Size := fun _ w => rio_size (data w);
  dw_Close := fun _ => data_Close;
  File := string;
  os_OpenFile := OpenFile;
  file_Write := fun _ => meta_Write;
  file_Close := fun _ => meta_Close;
  Filter := list Z;
  bloomfilter_NewOptimal := fun _ _ => Val [];
  bf_Add := fun bf h => bf ++ [h];
  bf_WriteFile := WriteFile;
  proto_Marshal := Marshal
|}.

(** An empty disk on which the directories [ds] exist, and on which the
    calls listed in [fs] fail. *)
Definition disk (ds : list string) (fs : list (Op * nat)) : Disk :=
  mkDisk ds fs [] (rio_new "") (rio_new "") (mkMeta None NotOpen 0) None.

(** [bytes.Compare], the comparator of [skiplist.BytesComparator]. *)
Fixpoint compare_lists (a b : list byte) : Z :=
  match a, b with
  | [], [] => 0
  | [], _ :: _ => -1
  | _ :: _, [] => 1
  | x :: a, y :: b =>
      if byte_val x <? byte_val y then -1
      else if byte_val y <? byte_val x then 1
      else compare_lists a b
  end.

Definition BytesComparator : Comparator := fun a b => compare_lists (elems a) (elems b).

(** A stream writer on the table directory [tbl] with the byte comparator
    and otherwise default options. *)
Definition new_writer (more : list WriterOption) : SSTableStreamWriter :=
  match NewSSTableStreamWriter
          ([WriteBasePath "tbl"; WithKeyComparator BytesComparator] ++ more) with
  | Val w => w
  | Fail _ => mkWriter default_options "" "" "" None None None None None None
  end.

(** The writer and the disk after [Open] on a disk where the directory
    [tbl] exists and the calls in [fs] fail. *)
Definition tbl_writer (fs : list (Op * nat)) : SSTableStreamWriter :=
  snd (fst (Open (new_writer []) (disk ["tbl"] fs))).

Definition tbl_disk (fs : list (Op * nat)) : Disk :=
  fst (fst (Open (new_writer []) (disk ["tbl"] fs))).

Definition key_a : bytes := bytes_of_string "a".
Definition key_b : bytes := bytes_of_string "b".
Definition key_c : bytes := bytes_of_string "c".
Definition val_1 : bytes := bytes_of_string "1".
Definition val_2 : bytes := bytes_of_string "2".

(** The empty slice that is not nil, [[]byte{}]. *)
Definition val_empty : bytes := Some [].

(** Three keys in order, with a repeated and a smaller key in between; the
    last value is nil. *)
Definition calls_abc : list (bytes * bytes) :=
  [(key_a, val_1); (key_b, val_2); (key_b, val_1); (key_a, val_2); (key_c, None)].

Definition calls_ab : list (bytes * bytes) := [(key_a, val_1); (key_b, val_2)].

(** Faults: the first index append, the first or the second data append,
    the close of the data writer together with the write of the meta
    file. *)
Definition fault_index_write : list (Op * nat) := [(IndexWrite, 0%nat)].
Definition fault_data_write_0 : list (Op * nat) := [(DataWrite, 0%nat)].
Definition fault_data_write_1 : list (Op * nat) := [(DataWrite, 1%nat)].
Definition fault_closing : list (Op * nat) := [(DataClose, 0%nat); (MetaWrite, 0%nat)].

(** The writer and the disk after the calls [cs] on the opened table, and
    after [Close] then. *)
Abbreviation after_run fs cs := (run cs (tbl_writer fs) (tbl_disk fs)).

Abbreviation after_close fs cs :=
  (Close (snd (fst (after_run fs cs))) (fst (fst (after_run fs cs)))).

(** A simple writer on [tbl] with the byte comparator. *)
Definition simple_options : list WriterOption :=
  [WriteBasePath "tbl"; WithKeyComparator BytesComparator].

Definition simple_writer : SSTableSimpleWriter :=
  match NewSSTableSimpleWriter simple_options with
  | Val w => w
  | Fail _ => mkSimpleWriter (new_writer [])
  end.

Definition map_abc : MapI :=
  mkMapI [(key_a, val_1); (key_b, val_2); (key_c, None)] None.

(** The index and the data file are in step: entry by entry, the index
    holds the offset of a data record and the CRC-64/ISO of its payload,
    and every data record starts below the end of the data file. *)
Definition in_step (d : Disk) : Prop :=
  map (fun r => (sProto.ValueOffset (snd r), sProto.Checksum (snd r)))
      (rio_records (index d))
    = map (fun r => (fst r, crc64.Sum64_ISO (elems (snd r)))) (rio_records (data d)) /\
  Forall (fun r => fst r < rio_size (data d)) (rio_records (data d)).

(** No [Seek] of the data writer is set to fail. *)
Definition seek_works (d : Disk) : Prop :=
  forall n, ~ In (DataSeek, n) (faults d).

(** No call is set to fail, and the two writers are open. *)
Definition ready (d : Disk) : Prop :=
  faults d = [] /\ rio_handle (data d) = IsOpen /\ rio_handle (index d) = IsOpen.

End Sim.

(** * Properties *)

(** ** The hashes, on known test vectors *)

Example fnv1_a : fnv.New64 (list_byte_of_string "a") = 0xaf63bd4c8601b7be.
Proof. vm_compute. reflexivity. Qed.

Example fnv1a_a : fnv.New64a (list_byte_of_string "a") = 0xaf63dc4c8601ec8c.
Proof. vm_compute. reflexivity. Qed.

Example crc64_check : crc64.Sum64_ISO (list_byte_of_string "123456789") = 0xb90956c775a41001.
Proof. vm_compute. reflexivity. Qed.

(** ** Slices and errors *)

Lemma copy_same_len (d : list byte) (src : bytes) :
  List.length d = len src -> copy (Some d) src = Some (elems src).
Proof.
  intros Hlen. unfold copy, len in *. rewrite Hlen, Nat.min_id.
  rewrite firstn_all. rewrite <- Hlen, skipn_all. now rewrite app_nil_r.
Qed.

Lemma copy_make (key : bytes) : copy (make (len key)) key = Some (elems key).
Proof.
  unfold make. apply copy_same_len. now rewrite repeat_length.
Qed.

Lemma causes_of_Join (errs : list goerr) :
  causes_of (errors_Join errs) = flat_map causes_of errs.
Proof.
  unfold errors_Join.
  match goal with |- context [match ?x with _ => _ end] => set (X := x) end.
  assert (H : flat_map causes X = flat_map causes_of errs).
  { subst X. induction errs as [|[e|] errs IH]; simpl; [reflexivity| |exact IH].
    now rewrite IH. }
  clearbody X. rewrite <- H. destruct X; reflexivity.
Qed.

Lemma last_cons_default {A} (l : list A) : forall a d, last (a :: l) d = last l a.
Proof.
  induction l as [|b l IH]; intros a d; [reflexivity|].
  change (last (a :: b :: l) d) with (last (b :: l) d). rewrite !IH. reflexivity.
Qed.

Lemma Join_nil_iff (errs : list goerr) :
  errors_Join errs = None <-> Forall (eq None) errs.
Proof.
  unfold errors_Join. induction errs as [|[e|] errs IH]; simpl.
  - split; [constructor|reflexivity].
  - split; [discriminate|]. intros H. inversion H. discriminate.
  - rewrite IH. split; intros H; [now constructor|now inversion H].
Qed.

(** Case analysis on the next [match] or [if] of the goal or a hypothesis. *)
Ltac break_match :=
  match goal with
  | |- context [match ?x with _ => _ end] => destruct x eqn:?
  | H : context [match ?x with _ => _ end] |- _ => destruct x eqn:?
  end.

Ltac inv H := inversion H; subst; clear H.

Ltac clean_options :=
  repeat match goal with
         | X : Some _ = Some _ |- _ => inv X
         | X : None = Some _ |- _ => discriminate X
         | X : Some _ = None |- _ => discriminate X
         end.

Ltac use_lookups :=
  repeat match goal with
         | X : ?a = Some _ |- context [?a] => rewrite X
         end; simpl.

Section Facts.

Context {E : Env}.

(** ** What one call of WriteNext does to the writer *)

(** A call the first statement rejects changes nothing. *)
Lemma WriteNext_rejected w key value st early :
  WriteNext_check w key = inl early ->
  WriteNext w key value st = (st, w, early) /\ early <> Ok.
Proof.
  intros H. unfold WriteNext. rewrite H. split; [reflexivity|].
  unfold WriteNext_check in H. repeat break_match; inv H; discriminate.
Qed.

(** The writer the first statement hands on: only [lastKey], and on the
    first call [MinKey], differ from the writer it was given. *)
Lemma WriteNext_check_passed w key w1 :
  WriteNext_check w key = inr w1 ->
  opts w1 = opts w /\ indexWriter w1 = indexWriter w /\ dataWriter w1 = dataWriter w /\
  metaDataFile w1 = metaDataFile w /\ bloomFilter w1 = bloomFilter w /\
  (exists d, lastKey w1 = Some d /\ List.length d = len key) /\
  match lastKey w with
  | Some l =>
      metaData w1 = metaData w /\
      exists cmp, keyComparator (opts w) = Some cmp /\ cmp (Some l) key < 0
  | None =>
      exists md, metaData w = Some md /\
                 metaData w1 = Some (md_set_MinKey md (Some (elems key)))
  end.
Proof.
  unfold WriteNext_check. intros H.
  destruct (lastKey w) as [l|] eqn:Hl; cbn [is_nil negb] in H.
  - destruct (keyComparator (opts w)) as [cmp|] eqn:Hc; [|discriminate].
    destruct (cmp (Some l) key =? 0) eqn:H0; [discriminate|].
    destruct (cmp (Some l) key >? 0) eqn:H1; [discriminate|].
    assert (Hlt : cmp (Some l) key < 0) by lia.
    destruct (Nat.eqb (len (Some l)) (len key)) eqn:Hn; simpl in H; inv H; simpl.
    + apply Nat.eqb_eq in Hn. rewrite Hl. repeat split; eauto.
    + repeat split; eauto. exists (repeat x00 (len key)). split; [reflexivity|].
      apply repeat_length.
  - destruct (metaData w) as [md|] eqn:Hm; [|discriminate].
    rewrite copy_make in H. inv H. simpl. repeat split; eauto.
    exists (repeat x00 (len key)). split; [reflexivity|]. apply repeat_length.
Qed.

(** What the appends leave in the writer. *)
Lemma WriteNext_append_writer w1 key value st st' w' o :
  WriteNext_append w1 key value st = (st', w', o) ->
  opts w' = opts w1 /\ indexWriter w' = indexWriter w1 /\ dataWriter w' = dataWriter w1 /\
  metaDataFile w' = metaDataFile w1 /\ lastKey w' = copy (lastKey w1) key /\
  (o <> Panic ->
   bloomFilter w' =
     if enableBloomFilter (opts w1)
     then option_map (fun bf => bf_Add bf (fnv.New64 (elems key))) (bloomFilter w1)
     else bloomFilter w1) /\
  (o <> Panic -> enableBloomFilter (opts w1) = true -> bloomFilter w1 <> None) /\
  match o with
  | Ok =>
      exists md, metaData w1 = Some md /\
        metaData w' =
          Some (md_set_counters md (wrap64 (sProto.NumRecords md + 1))
                  (if is_nil value then wrap64 (sProto.NullValues md + 1)
                   else sProto.NullValues md))
  | _ => metaData w' = metaData w1
  end.
Proof.
  unfold WriteNext_append. intros H. simpl in H.
  repeat break_match; clean_options; inv H; simpl in *; use_lookups;
    repeat split; eauto; try discriminate; try congruence.
Qed.

(** A call that passed the first statement leaves the key in [lastKey]. *)
Lemma WriteNext_passed w key value st w1 st' w' o :
  WriteNext_check w key = inr w1 ->
  WriteNext w key value st = (st', w', o) ->
  WriteNext_append w1 key value st = (st', w', o) /\
  lastKey w' = Some (elems key) /\ opts w' = opts w /\
  indexWriter w' = indexWriter w /\ dataWriter w' = dataWriter w /\
  metaDataFile w' = metaDataFile w.
Proof.
  intros Hc H. unfold WriteNext in H. rewrite Hc in H. split; [exact H|].
  apply WriteNext_check_passed in Hc.
  destruct Hc as (Ho & Hi & Hd & Hf & _ & (d & Hl & Hlen) & _).
  apply WriteNext_append_writer in H.
  destruct H as (Ho' & Hi' & Hd' & Hf' & Hl' & _).
  rewrite Hl' , Hl, (copy_same_len _ _ Hlen). repeat split; congruence.
Qed.

(** Every call leaves the options and the handles alone. *)
Lemma WriteNext_handles w key value st st' w' o :
  WriteNext w key value st = (st', w', o) ->
  opts w' = opts w /\ indexWriter w' = indexWriter w /\ dataWriter w' = dataWriter w /\
  metaDataFile w' = metaDataFile w.
Proof.
  intros H. destruct (WriteNext_check w key) as [early|w1] eqn:Hc.
  - destruct (WriteNext_rejected w key value st early Hc) as [Hr _].
    rewrite Hr in H. inv H. repeat split.
  - destruct (WriteNext_passed _ _ _ _ _ _ _ _ Hc H) as (_ & _ & ? & ? & ? & ?).
    repeat split; assumption.
Qed.

(** ** Ordering of the written keys *)

Lemma written_nil (calls : list (bytes * bytes)) : written calls [] = [].
Proof. destruct calls as [|[k v] calls]; reflexivity. Qed.

(** Every key written by a run is above the writer's last key, and the
    written keys are strictly increasing. *)
Lemma run_sorted (cmp : Comparator) (Hcmp : comparator_ok cmp) (calls : list (bytes * bytes)) :
  forall w st st' w' os,
    keyComparator (opts w) = Some cmp ->
    run calls w st = (st', w', os) ->
    (forall l, lastKey w = Some l -> Forall (fun k => cmp (Some l) k < 0) (written calls os)) /\
    StronglySorted (fun a b => cmp a b < 0) (written calls os).
Proof.
  induction calls as [|[k v] calls IH]; intros w st st' w' os Hk Hrun.
  - simpl in Hrun. inv Hrun. simpl. split; [intros; constructor|constructor].
  - simpl in Hrun.
    destruct (WriteNext w k v st) as [[st1 w1] o] eqn:HW.
    destruct (run calls w1 st1) as [[st2 w2] os2] eqn:HR.
    assert (Hk1 : keyComparator (opts w1) = Some cmp).
    { apply WriteNext_handles in HW. destruct HW as (-> & _). exact Hk. }
    destruct (IH _ _ _ _ _ Hk1 HR) as [IHa IHs].
    destruct (WriteNext_check w k) as [early|wc] eqn:Hc.
    + (* rejected: the writer is unchanged *)
      destruct (WriteNext_rejected w k v st early Hc) as [Hr Hne].
      rewrite Hr in HW. inv HW.
      destruct o; [congruence| |]; inv Hrun; simpl; rewrite ?written_nil.
      * split; [exact IHa|exact IHs].
      * split; [intros; constructor|constructor].
    + (* passed: the last key is now [k] *)
      destruct (WriteNext_passed _ _ _ _ _ _ _ _ Hc HW) as (_ & Hl1 & _).
      assert (Hbelow : forall l, lastKey w = Some l -> cmp (Some l) k < 0).
      { intros l Hl. apply WriteNext_check_passed in Hc.
        destruct Hc as (_ & _ & _ & _ & _ & _ & Hc). rewrite Hl in Hc.
        destruct Hc as (_ & cmp' & Hk' & Hlt). congruence. }
      assert (Hafter : Forall (fun k' => cmp k k' < 0) (written calls os2)).
      { eapply Forall_impl; [|exact (IHa _ Hl1)]. intros k' Hlt.
        cbv beta in Hlt. rewrite (cmp_content _ Hcmp) in Hlt.
        rewrite (cmp_content _ Hcmp). exact Hlt. }
      assert (Hrest : forall l, lastKey w = Some l ->
                Forall (fun k' => cmp (Some l) k' < 0) (written calls os2)).
      { intros l Hl. eapply Forall_impl; [|exact Hafter]. intros k' Hlt.
        cbv beta in Hlt. eapply (cmp_trans _ Hcmp); [apply (Hbelow _ Hl)|exact Hlt]. }
      destruct o; inv Hrun; simpl; rewrite ?written_nil.
      * split; [intros l Hl; constructor; auto|constructor; assumption].
      * split; assumption.
      * split; [intros; constructor|constructor].
Qed.

(** The last key after a run is the key of the last call that passed the
    first statement. *)
Lemma run_lastKey calls :
  forall w st st' w' os,
    run calls w st = (st', w', os) ->
    ~ In Panic os ->
    lastKey w' =
      match accepted calls w st with
      | [] => lastKey w
      | first :: rest => Some (elems (last rest first))
      end.
Proof.
  induction calls as [|[k v] calls IH]; intros w st st' w' os Hrun Hnp; simpl in Hrun.
  - inv Hrun. reflexivity.
  - simpl. destruct (WriteNext w k v st) as [[st1 w1] o] eqn:HW.
    destruct (run calls w1 st1) as [[st2 w2] os2] eqn:HR.
    assert (Ho : o <> Panic /\ (st2, w2, o :: os2) = (st', w', os)).
    { destruct o; [split; [discriminate|exact Hrun]|split; [discriminate|exact Hrun]|].
      inv Hrun. exfalso. apply Hnp. now left. }
    destruct Ho as [Ho Heq]. inv Heq.
    assert (Hnp2 : ~ In Panic os2) by (intros Hin; apply Hnp; now right).
    specialize (IH _ _ _ _ _ HR Hnp2).
    destruct (WriteNext_check w k) as [early|wc] eqn:Hc.
    + destruct (WriteNext_rejected w k v st early Hc) as [Hr _].
      rewrite Hr in HW. inv HW.
      destruct o; [exact IH|exact IH|congruence].
    + destruct (WriteNext_passed _ _ _ _ _ _ _ _ Hc HW) as (_ & Hl1 & _).
      assert (Hgoal : lastKey w' = Some (elems (last (accepted calls w1 st1) k))).
      { rewrite IH. destruct (accepted calls w1 st1) as [|k' rest'].
        - exact Hl1.
        - now rewrite last_cons_default. }
      destruct o; [exact Hgoal|exact Hgoal|congruence].
Qed.

(** C1, as the code has it: the key of a [WriteNext] call is compared with
    the writer's [lastKey], not with the key that was written last.  The
    call fails with the duplicate-key error when the comparator reports
    [Compare(lastKey, key) == 0] and with the out-of-order-key error when
    it reports [Compare(lastKey, key) > 0], the writer and the files being
    left as they were.  [lastKey] is the key of the last call that passed
    this check, whether or not its appends succeeded: every call that
    passes sets it and no other call changes it, so after a successful
    write it is the key just written.  Hence the keys of the successful
    calls of any run are strictly increasing under the comparator. *)
Theorem WriteNext_strictly_increasing (cmp : Comparator) (Hcmp : comparator_ok cmp) :
  (forall w0 prev pv st0 st w key value,
      keyComparator (opts w0) = Some cmp ->
      WriteNext w0 prev pv st0 = (st, w, Ok) ->
      lastKey w = Some (elems prev) /\
      (cmp prev key = 0 ->
       WriteNext w key value st = (st, w, Err (errDuplicateKey (basePath (opts w))))) /\
      (cmp prev key > 0 ->
       WriteNext w key value st = (st, w, Err (errOutOfOrderKey (basePath (opts w)))))) /\
  (forall w prev key value st,
      keyComparator (opts w) = Some cmp ->
      lastKey w = Some prev ->
      (cmp (Some prev) key = 0 ->
       WriteNext w key value st = (st, w, Err (errDuplicateKey (basePath (opts w))))) /\
      (cmp (Some prev) key > 0 ->
       WriteNext w key value st = (st, w, Err (errOutOfOrderKey (basePath (opts w)))))) /\
  (forall w key value st st' w' o,
      WriteNext w key value st = (st', w', o) ->
      lastKey w' =
        match WriteNext_check w key with
        | inr _ => Some (elems key)
        | inl _ => lastKey w
        end) /\
  (forall calls w st st' w' os first rest,
      run calls w st = (st', w', os) ->
      ~ In Panic os ->
      accepted calls w st = first :: rest ->
      lastKey w' = Some (elems (last rest first))) /\
  (forall calls w st st' w' os,
      keyComparator (opts w) = Some cmp ->
      run calls w st = (st', w', os) ->
      StronglySorted (fun a b => cmp a b < 0) (written calls os)).
Proof.
  assert (Hlast : forall w prev key value st,
      keyComparator (opts w) = Some cmp ->
      lastKey w = Some prev ->
      (cmp (Some prev) key = 0 ->
       WriteNext w key value st = (st, w, Err (errDuplicateKey (basePath (opts w))))) /\
      (cmp (Some prev) key > 0 ->
       WriteNext w key value st = (st, w, Err (errOutOfOrderKey (basePath (opts w)))))).
  { intros w prev key value st Hk Hl. unfold WriteNext, WriteNext_check.
    rewrite Hl, Hk. cbn [is_nil negb]. split; intros Hc.
    - rewrite Hc. reflexivity.
    - destruct (cmp (Some prev) key =? 0) eqn:H0; [lia|].
      destruct (cmp (Some prev) key >? 0) eqn:H1; [reflexivity|lia]. }
  split; [|split; [exact Hlast|split; [|split]]].
  - intros w0 prev pv st0 st w key value Hk HW.
    assert (Hl : lastKey w = Some (elems prev)).
    { destruct (WriteNext_check w0 prev) as [early|w1] eqn:Hc.
      - destruct (WriteNext_rejected w0 prev pv st0 early Hc) as [Hr Hne].
        rewrite Hr in HW. inv HW. congruence.
      - now destruct (WriteNext_passed _ _ _ _ _ _ _ _ Hc HW) as (_ & ? & _). }
    assert (Hk' : keyComparator (opts w) = Some cmp).
    { apply WriteNext_handles in HW. destruct HW as (-> & _). exact Hk. }
    split; [exact Hl|].
    assert (Heq : cmp prev key = cmp (Some (elems prev)) key).
    { rewrite (cmp_content _ Hcmp prev key).
      symmetry. exact (cmp_content _ Hcmp (Some (elems prev)) key). }
    rewrite Heq. exact (Hlast w (elems prev) key value st Hk' Hl).
  - intros w key value st st' w' o HW.
    destruct (WriteNext_check w key) as [early|w1] eqn:Hc.
    + destruct (WriteNext_rejected w key value st early Hc) as [Hr _].
      rewrite Hr in HW. inv HW. reflexivity.
    + now destruct (WriteNext_passed _ _ _ _ _ _ _ _ Hc HW) as (_ & ? & _).
  - intros calls w st st' w' os first rest Hrun Hnp Hacc.
    rewrite (run_lastKey _ _ _ _ _ _ Hrun Hnp), Hacc. reflexivity.
  - intros calls w st st' w' os Hk Hrun.
    exact (proj2 (run_sorted cmp Hcmp calls w st st' w' os Hk Hrun)).
Qed.

End Facts.

(** ** The byte comparator is a strict order on contents *)

Lemma compare_lists_refl (l : list byte) : Sim.compare_lists l l = 0.
Proof.
  induction l as [|x l IH]; simpl; [reflexivity|].
  now rewrite Z.ltb_irrefl.
Qed.

Lemma compare_lists_trans (a : list byte) :
  forall b c, Sim.compare_lists a b < 0 -> Sim.compare_lists b c < 0 ->
              Sim.compare_lists a c < 0.
Proof.
  induction a as [|x a IH]; intros [|y b] [|z c]; simpl; try lia.
  destruct (Z.ltb_spec (byte_val x) (byte_val y));
    destruct (Z.ltb_spec (byte_val y) (byte_val x));
    destruct (Z.ltb_spec (byte_val y) (byte_val z));
    destruct (Z.ltb_spec (byte_val z) (byte_val y));
    destruct (Z.ltb_spec (byte_val x) (byte_val z));
    destruct (Z.ltb_spec (byte_val z) (byte_val x)); try lia.
  apply IH.
Qed.

Lemma BytesComparator_ok : comparator_ok Sim.BytesComparator.
Proof.
  constructor; unfold Sim.BytesComparator.
  - reflexivity.
  - intros a. apply compare_lists_refl.
  - intros a b c. apply compare_lists_trans.
Qed.

(** ** The appends of WriteNext *)

Section Appends.

Context {E : Env}.

(** C2: when the data append of a [WriteNext] call succeeds and its index
    append fails, the call ends by [Seek(preWriteOffset)] on the data
    writer, where [preWriteOffset] is the data writer's [Size()] taken
    before the append, and returns an error that joins the index-write
    error with the seek error, if any.  With a RecordIO writer whose
    successful [Seek(offset)] truncates the file to [offset], the data file
    is then back at the size it had before the record. *)
Theorem WriteNext_index_failure_rolls_back
  w key value st w1 dw iw st1 recordOffset st2 iErr :
  WriteNext_check w key = inr w1 ->
  (enableBloomFilter (opts w) = true -> bloomFilter w <> None) ->
  dataWriter w = Some dw ->
  indexWriter w = Some iw ->
  dw_Write dw value st = (st1, Val recordOffset) ->
  iw_Write iw (sProto.mkIndexEntry key recordOffset (crc64.Sum64_ISO (elems value))) st1
    = (st2, Fail iErr) ->
  let preWriteOffset := dw_Size dw st in
  let seek := dw_Seek dw preWriteOffset st2 in
  (exists w',
      WriteNext w key value st =
        (fst seek, w',
         Err (errIn "error writeNext index writer/seeker error" (basePath (opts w))
                (Some (joinError
                         (iErr :: match snd seek with Some e => [e] | None => [] end)))))) /\
  ((forall o s s', dw_Seek dw o s = (s', None) -> dw_Size dw s' = o) ->
   snd seek = None -> dw_Size dw (fst seek) = dw_Size dw st).
Proof.
  intros Hc Hbloom Hdw Hiw HW HI preWriteOffset seek. split.
  - destruct (WriteNext_check_passed _ _ _ Hc) as (Ho & Hi & Hd & _ & Hb & _).
    unfold WriteNext. rewrite Hc. unfold WriteNext_append. simpl.
    rewrite Ho, Hb.
    assert (Hseek : exists st4 sErr, dw_Seek dw (dw_Size dw st) st2 = (st4, sErr))
      by (destruct (dw_Seek dw (dw_Size dw st) st2); eauto).
    destruct Hseek as (st4 & sErr & Hseek). subst seek preWriteOffset. rewrite Hseek.
    destruct (enableBloomFilter (opts w)) eqn:Hen;
      [destruct (bloomFilter w) as [bf|] eqn:Hbf; [|exfalso; now apply Hbloom]|];
      simpl; rewrite Hd, Hdw, HW, Hi, Hiw, HI, Hseek;
      destruct sErr; simpl; eexists; reflexivity.
  - intros Hseek Hnone. subst seek preWriteOffset.
    destruct (dw_Seek dw (dw_Size dw st) st2) as [st4 sErr] eqn:Hs. simpl in *. subst sErr.
    exact (Hseek _ _ _ Hs).
Qed.

(** C3, as the code has it: with the bloom filter enabled, a [WriteNext]
    call that passes the ordering check adds to the filter the hash
    [fnv.New64] computes over the raw key bytes, which is the 64-bit FNV-1
    hash (multiply, then xor), not FNV-1a; a call the check rejects adds
    nothing. *)
Theorem WriteNext_bloom_fnv1 w key value st st' w' o :
  enableBloomFilter (opts w) = true ->
  WriteNext w key value st = (st', w', o) ->
  o <> Panic ->
  match WriteNext_check w key with
  | inl _ => bloomFilter w' = bloomFilter w
  | inr _ =>
      exists bf, bloomFilter w = Some bf /\
                 bloomFilter w' = Some (bf_Add bf (fnv.New64 (elems key)))
  end.
Proof.
  intros Hen HW Hnp.
  destruct (WriteNext_check w key) as [early|w1] eqn:Hc.
  - destruct (WriteNext_rejected w key value st early Hc) as [Hr _].
    rewrite Hr in HW. now inv HW.
  - destruct (WriteNext_passed _ _ _ _ _ _ _ _ Hc HW) as (Ha & _).
    destruct (WriteNext_check_passed _ _ _ Hc) as (Ho & _ & _ & _ & Hb & _).
    apply WriteNext_append_writer in Ha.
    destruct Ha as (_ & _ & _ & _ & _ & Hbf & Hsome & _).
    specialize (Hbf Hnp). rewrite Ho, Hen, Hb in Hbf.
    rewrite Ho, Hb in Hsome. specialize (Hsome Hnp Hen).
    destruct (bloomFilter w) as [bf|]; [|congruence].
    exists bf. split; [reflexivity|exact Hbf].
Qed.

(** C7, as the code has it: a successful [WriteNext] call increments
    [NumRecords] by one (in [uint64]), and increments [NullValues] by one
    exactly when [value] is the nil slice; an empty value that is not nil
    leaves [NullValues] as it is. *)
Theorem WriteNext_counters w key value st st' w' :
  WriteNext w key value st = (st', w', Ok) ->
  exists md md',
    metaData w = Some md /\ metaData w' = Some md' /\
    sProto.NumRecords md' = wrap64 (sProto.NumRecords md + 1) /\
    sProto.NullValues md' =
      match value with
      | None => wrap64 (sProto.NullValues md + 1)
      | Some _ => sProto.NullValues md
      end.
Proof.
  intros HW.
  destruct (WriteNext_check w key) as [early|w1] eqn:Hc.
  - destruct (WriteNext_rejected w key value st early Hc) as [Hr Hne].
    rewrite Hr in HW. inv HW. congruence.
  - destruct (WriteNext_passed _ _ _ _ _ _ _ _ Hc HW) as (Ha & _).
    apply WriteNext_append_writer in Ha.
    destruct Ha as (_ & _ & _ & _ & _ & _ & _ & md1 & Hm1 & Hm').
    apply WriteNext_check_passed in Hc.
    destruct Hc as (_ & _ & _ & _ & _ & _ & Hc).
    destruct (lastKey w) as [l|].
    + destruct Hc as (Hm & _). rewrite Hm in Hm1.
      exists md1. eexists. split; [exact Hm1|]. split; [exact Hm'|].
      destruct value; simpl; split; reflexivity.
    + destruct Hc as (md & Hm & Hm1'). rewrite Hm1' in Hm1. inv Hm1.
      exists md. eexists. split; [exact Hm|]. split; [exact Hm'|].
      destruct value; simpl; split; reflexivity.
Qed.

(** C10: a [WriteNext] call that passes the ordering check and then fails
    (at the data append or at the index append) leaves [NumRecords] and
    [NullValues] unchanged, but has already set [lastKey] to the key and,
    with bloom enabled, added the key's hash to the filter; called again
    with the same key, [WriteNext] fails with the duplicate-key error. *)
Theorem WriteNext_failed_append_keeps_key (cmp : Comparator) w key value st w1 st' w' e :
  comparator_ok cmp ->
  keyComparator (opts w) = Some cmp ->
  WriteNext_check w key = inr w1 ->
  WriteNext w key value st = (st', w', Err e) ->
  ((exists err,
       e = errIn "error writeNext data writer error" (basePath (opts w)) (Some err)) \/
   (exists err seekErr,
       e = errIn "error writeNext index writer/seeker error" (basePath (opts w))
             (errors_Join [Some err; seekErr]))) /\
  option_map sProto.NumRecords (metaData w') = option_map sProto.NumRecords (metaData w) /\
  option_map sProto.NullValues (metaData w') = option_map sProto.NullValues (metaData w) /\
  lastKey w' = Some (elems key) /\
  (enableBloomFilter (opts w) = true ->
   exists bf, bloomFilter w = Some bf /\
              bloomFilter w' = Some (bf_Add bf (fnv.New64 (elems key)))) /\
  (forall value2,
      WriteNext w' key value2 st' = (st', w', Err (errDuplicateKey (basePath (opts w'))))).
Proof.
  intros Hcmp Hk Hc HW.
  destruct (WriteNext_passed _ _ _ _ _ _ _ _ Hc HW) as (Ha & Hl & Ho' & _).
  destruct (WriteNext_check_passed _ _ _ Hc) as (Ho & _ & _ & _ & Hb & _ & Hfirst).
  pose proof (WriteNext_append_writer _ _ _ _ _ _ _ Ha)
    as (_ & _ & _ & _ & _ & Hbf & Hsome & Hm).
  assert (Hnp : Err e <> Panic) by discriminate.
  specialize (Hbf Hnp). specialize (Hsome Hnp). rewrite Ho, Hb in Hbf, Hsome.
  split; [|split; [|split; [|split; [exact Hl|split]]]].
  - clear Hbf Hsome Hm Hfirst. unfold WriteNext_append in Ha.
    cbn -[errIn errors_Join] in Ha. rewrite Ho in Ha.
    repeat break_match; clean_options; inv Ha;
      first [left; eexists; reflexivity | right; do 2 eexists; reflexivity].
  - rewrite Hm. destruct (lastKey w); [now destruct Hfirst as (-> & _)|].
    destruct Hfirst as (md & -> & ->). reflexivity.
  - rewrite Hm. destruct (lastKey w); [now destruct Hfirst as (-> & _)|].
    destruct Hfirst as (md & -> & ->). reflexivity.
  - intros Hen. rewrite Hen in Hbf. specialize (Hsome Hen).
    destruct (bloomFilter w) as [bf|]; [|congruence]. eauto.
  - intros value2. unfold WriteNext, WriteNext_check.
    rewrite Hl, Ho', Hk. cbn [is_nil negb].
    assert (H0 : cmp (Some (elems key)) key = 0).
    { rewrite (cmp_content _ Hcmp). apply (cmp_refl _ Hcmp). }
    rewrite H0. reflexivity.
Qed.

End Appends.

(** ** Close *)

Section Closing.

Context {E : Env}.

(** [Close] changes the metadata and nothing else in the writer. *)
Lemma Close_writer w st st' w' o :
  Close w st = (st', w', o) ->
  opts w' = opts w /\ indexWriter w' = indexWriter w /\ dataWriter w' = dataWriter w /\
  metaDataFile w' = metaDataFile w /\ bloomFilter w' = bloomFilter w /\
  lastKey w' = lastKey w /\
  (forall md, metaData w = Some md ->
     indexWriter w <> None -> dataWriter w <> None -> metaDataFile w <> None ->
     exists dataBytes indexBytes,
       metaData w' = Some (md_finalize md (lastKey w) dataBytes indexBytes)).
Proof.
  unfold Close. intros H.
  repeat break_match; clean_options; inv H; simpl;
    repeat split; try reflexivity; intros; clean_options; try congruence; eauto.
Qed.

(** What [Close] serializes.  On a writer with its handles and metadata,
    the metadata handed to [proto.Marshal], which is also the one left in
    the writer, is the finalized one, and the world [Close] returns is the
    one in which the meta file has been written with it and closed. *)
Lemma Close_serializes w st iw dw f md :
  indexWriter w = Some iw ->
  dataWriter w = Some dw ->
  metaDataFile w = Some f ->
  metaData w = Some md ->
  fst (Close w st) =
    (fst (file_Close f
            (fst (meta_step (final_metadata w md iw dw (closed_world w iw dw st)) f
                    (closed_world w iw dw st)))),
     set_metaData w (Some (final_metadata w md iw dw (closed_world w iw dw st)))).
Proof.
  intros Hi Hd Hf Hm. unfold Close, closed_world, bloom_step, meta_step, final_metadata.
  rewrite Hi, Hd, Hm, Hf.
  destruct (iw_Close iw st) as [st1 iErr]. simpl fst.
  destruct (dw_Close dw st1) as [st2 dErr]. simpl fst.
  destruct (enableBloomFilter (opts w)); [destruct (bloomFilter w) as [bf|]|];
    try destruct (bf_WriteFile bf _ st2) as [st3 [bErr|]]; simpl fst;
    (destruct (proto_Marshal _) as [bytes|mErr];
     [destruct (file_Write f bytes _) as [st4 [wErr|]]|]);
    simpl fst; destruct (file_Close f _) as [st5 cErr]; reflexivity.
Qed.

(** C5: on a writer with its handles, [Close] closes the index writer,
    closes the data writer, writes the bloom file when bloom is enabled,
    serializes and writes the metadata and closes the meta file, each step
    in the world the step before it left and whatever the steps before it
    returned; the error it returns joins the errors of all five steps, in
    order, and is nil only when every step succeeded. *)
Theorem Close_attempts_every_step w st iw dw f md :
  indexWriter w = Some iw ->
  dataWriter w = Some dw ->
  metaDataFile w = Some f ->
  metaData w = Some md ->
  let '(st1, iErr) := iw_Close iw st in
  let '(st2, dErr) := dw_Close dw st1 in
  let '(st3, bErr) := bloom_step w st2 in
  let md' := final_metadata w md iw dw st3 in
  let '(st4, mErr) := meta_step md' f st3 in
  let '(st5, cErr) := file_Close f st4 in
  exists res,
    Close w st = (st5, set_metaData w (Some md'), outcome_of res) /\
    causes_of res =
      causes_of iErr ++ causes_of dErr
      ++ match bErr with
         | Some _ => [errIn "error in writing bloom filter " (basePath (opts w)) bErr]
         | None => []
         end
      ++ match mErr with
         | Some _ =>
             [errIn match proto_Marshal md' with
                    | Fail _ => "error in serializing metadata"
                    | Val _ => "error in writing metadata"
                    end (basePath (opts w)) mErr]
         | None => []
         end
      ++ causes_of cErr /\
    (res = None <->
     iErr = None /\ dErr = None /\ bErr = None /\ mErr = None /\ cErr = None).
Proof.
  intros Hi Hd Hf Hm.
  destruct (iw_Close iw st) as [st1 iErr] eqn:H1.
  destruct (dw_Close dw st1) as [st2 dErr] eqn:H2.
  destruct (bloom_step w st2) as [st3 bErr] eqn:H3.
  cbv zeta.
  destruct (meta_step (final_metadata w md iw dw st3) f st3) as [st4 mErr] eqn:H4.
  destruct (file_Close f st4) as [st5 cErr] eqn:H5.
  unfold Close. rewrite Hi, H1, Hd, H2, Hm, Hf.
  unfold bloom_step in H3. unfold meta_step, final_metadata in H4.
  unfold final_metadata.
  assert (Hcauses : forall a b : goerr,
            causes_of (errors_Join [a; b]) = causes_of a ++ causes_of b).
  { intros a b. rewrite causes_of_Join. simpl. now rewrite app_nil_r. }
  assert (Hnil : forall a b : goerr, errors_Join [a; b] = None <-> a = None /\ b = None).
  { intros a b. rewrite Join_nil_iff. split.
    - intros H. inversion H as [|? ? Ha H']. inversion H' as [|? ? Hb _]. now split.
    - intros [-> ->]. repeat constructor. }
  set (err0 := errors_Join [iErr; dErr]) in *.
  assert (Hc0 : causes_of err0 = causes_of iErr ++ causes_of dErr) by apply Hcauses.
  assert (Hn0 : err0 = None <-> iErr = None /\ dErr = None) by apply Hnil.
  clearbody err0.
  (* the bloom step *)
  assert (Hbloom : exists err1,
    (let '(st, err) :=
       match enableBloomFilter (opts w), bloomFilter w with
       | true, Some bf =>
           let '(st, bErr) :=
             bf_WriteFile bf (filepath_Join (basePath (opts w)) BloomFileName) st2 in
           match bErr with
           | Some _ =>
               (st, errors_Join
                      [err0; Some (errIn "error in writing bloom filter " (basePath (opts w)) bErr)])
           | None => (st, err0)
           end
       | _, _ => (st2, err0)
       end in (st, err)) = (st3, err1) /\
    causes_of err1 =
      causes_of err0
      ++ match bErr with
         | Some _ => [errIn "error in writing bloom filter " (basePath (opts w)) bErr]
         | None => []
         end /\
    (err1 = None <-> err0 = None /\ bErr = None)).
  { destruct (enableBloomFilter (opts w)); [destruct (bloomFilter w)|].
    - rewrite H3. destruct bErr as [b|].
      + eexists. split; [reflexivity|]. split; [now rewrite Hcauses|].
        rewrite Hnil. intuition discriminate.
      + exists err0. split; [reflexivity|]. split; [now rewrite app_nil_r|]. tauto.
    - inv H3. exists err0. split; [reflexivity|]. split; [now rewrite app_nil_r|]. tauto.
    - inv H3. exists err0. split; [reflexivity|]. split; [now rewrite app_nil_r|]. tauto. }
  destruct Hbloom as (err1 & Hb & Hc1 & Hn1).
  match type of Hb with
  | (let '(_, _) := ?m in _) = _ =>
      match goal with
      | |- context [let '(_, _) := m in _] => destruct m as [stb errb]
      end
  end.
  inv Hb.
  destruct (proto_Marshal (md_finalize md (lastKey w) (dw_Size dw st3) (iw_Size iw st3)))
    as [bytes|mE] eqn:HM.
  - rewrite H4. destruct mErr as [wErr|]; rewrite H5.
    + eexists. split; [reflexivity|]. split.
      * rewrite !Hcauses, Hc1, Hc0, <- !app_assoc. reflexivity.
      * rewrite !Hnil, Hn1, Hn0. intuition discriminate.
    + eexists. split; [reflexivity|]. split.
      * rewrite !Hcauses, Hc1, Hc0, <- !app_assoc. reflexivity.
      * rewrite !Hnil, Hn1, Hn0. intuition discriminate.
  - inv H4. rewrite H5.
    eexists. split; [reflexivity|]. split.
    + rewrite !Hcauses, Hc1, Hc0, <- !app_assoc. reflexivity.
    + rewrite !Hnil, Hn1, Hn0. intuition discriminate.
Qed.

(** A run leaves the options and the handles alone. *)
Lemma run_handles calls :
  forall w st st' w' os,
    run calls w st = (st', w', os) ->
    opts w' = opts w /\ indexWriter w' = indexWriter w /\ dataWriter w' = dataWriter w /\
    metaDataFile w' = metaDataFile w.
Proof.
  induction calls as [|[k v] calls IH]; intros w st st' w' os Hrun; simpl in Hrun.
  - inv Hrun. repeat split.
  - destruct (WriteNext w k v st) as [[st1 w1] o] eqn:HW.
    destruct (WriteNext_handles _ _ _ _ _ _ _ HW) as (Ho & Hi & Hd & Hf).
    destruct (run calls w1 st1) as [[st2 w2] os2] eqn:HR.
    destruct (IH _ _ _ _ _ HR) as (Ho2 & Hi2 & Hd2 & Hf2).
    destruct o; inv Hrun; repeat split; congruence.
Qed.




(** C8: [WriteNext] on a writer that was not opened returns the
    not-opened error and changes nothing; on a writer that was opened and
    then closed it returns an error as well, the data writer refusing
    records once it is closed. *)
Theorem WriteNext_needs_open_writer :
  (forall writerOptions w key value st,
      NewSSTableStreamWriter writerOptions = Val w ->
      WriteNext w key value st = (st, w, Err (errNotOpened (basePath (opts w))))) /\
  (forall w st st' w' oc dw,
      opened w ->
      keyComparator (opts w) <> None ->
      dataWriter w = Some dw ->
      Close w st = (st', w', oc) ->
      (forall record, exists s e, dw_Write dw record st' = (s, Fail e)) ->
      forall key value, exists s w'' e, WriteNext w' key value st' = (s, w'', Err e)).
Proof.
  split.
  - intros writerOptions w key value st Hnew. unfold NewSSTableStreamWriter in Hnew.
    repeat break_match; inv Hnew. reflexivity.
  - intros w st st' w' oc dw (Hi & Hd & Hf & Hm & Hbf) Hk Hdw Hclose Hrefuse key value.
    destruct (Close_writer _ _ _ _ _ Hclose) as (Ho' & Hi' & Hd' & _ & Hb' & _).
    destruct (WriteNext_check w' key) as [early|w1] eqn:Hc.
    + destruct (WriteNext_rejected w' key value st' early Hc) as [Hr _].
      rewrite Hr. unfold WriteNext_check in Hc. rewrite Ho' in Hc.
      repeat break_match; inv Hc; eauto. congruence.
    + unfold WriteNext. rewrite Hc.
      destruct (WriteNext_check_passed _ _ _ Hc) as (Ho1 & _ & Hd1 & _ & Hb1 & _).
      unfold WriteNext_append. cbn -[errIn errors_Join].
      rewrite Ho1, Ho', Hb1, Hb'.
      destruct (Hrefuse value) as (s & e & Hw).
      destruct (enableBloomFilter (opts w)) eqn:Hen;
        [destruct (bloomFilter w) as [bf|] eqn:Hbw; [|exfalso; now apply Hbf]|];
        cbn -[errIn errors_Join]; rewrite Hd1, Hd', Hdw, Hw; eauto.
Qed.

End Closing.

(** ** Open *)

Section Opening.

Context {E : Env}.

(** C9, as the code has it: [Open] makes no directory.  It creates and
    opens the index writer, creates and opens the data writer, opens the
    meta file (created when absent, not truncated) and allocates the bloom
    filter when bloom is enabled, in this order, and does nothing else to
    the world: whatever these five calls preserve, [Open] preserves, the
    absence of the base directory included.  When it returns nil each of
    the steps succeeded and the writer holds what they returned, with
    fresh metadata that carries the version only.  It returns at the first
    step that fails: the world is the one the failing call left, the error
    wraps the error of that call under the message of that step, and the
    writer holds what the earlier steps stored and nothing of the later
    ones. *)
Theorem Open_steps w st :
  (forall P : World -> Prop,
      (forall p c b s, P s -> P (fst (rProto_NewWriter p c b s))) ->
      (forall h s, P s -> P (fst (iw_Open h s))) ->
      (forall p c b s, P s -> P (fst (recordio_NewFileWriter p c b s))) ->
      (forall h s, P s -> P (fst (dw_Open h s))) ->
      (forall p s, P s -> P (fst (os_OpenFile p s))) ->
      P st -> P (fst (fst (Open w st)))) /\
  (forall st' w',
      Open w st = (st', w', Ok) ->
      exists iw st1 st2 dw st3 st4 f,
        rProto_NewWriter (filepath_Join (basePath (opts w)) IndexFileName)
          (indexCompressionType (opts w)) (writeBufferSizeBytes (opts w)) st
          = (st1, Val iw) /\
        iw_Open iw st1 = (st2, None) /\
        recordio_NewFileWriter (filepath_Join (basePath (opts w)) DataFileName)
          (dataCompressionType (opts w)) (writeBufferSizeBytes (opts w)) st2
          = (st3, Val dw) /\
        dw_Open dw st3 = (st4, None) /\
        os_OpenFile (filepath_Join (basePath (opts w)) MetaFileName) st4 = (st', Val f) /\
        indexWriter w' = Some iw /\ dataWriter w' = Some dw /\ metaDataFile w' = Some f /\
        metaData w' = Some (sProto.mkMetaData sstables_Version 0 0 None None 0 0 0) /\
        lastKey w' = lastKey w /\ opts w' = opts w /\
        if enableBloomFilter (opts w)
        then exists bf,
               bloomfilter_NewOptimal (bloomExpectedNumberOfElements (opts w))
                 (bloomFpProbability (opts w)) = Val bf /\
               bloomFilter w' = Some bf
        else bloomFilter w' = bloomFilter w) /\
  (forall st1 err,
      rProto_NewWriter (filepath_Join (basePath (opts w)) IndexFileName)
        (indexCompressionType (opts w)) (writeBufferSizeBytes (opts w)) st
        = (st1, Fail err) ->
      exists w',
        Open w st
          = (st1, w',
             Err (errIn "error while creating index writer" (basePath (opts w)) (Some err))) /\
        indexWriter w' = indexWriter w /\ dataWriter w' = dataWriter w /\
        metaDataFile w' = metaDataFile w /\ metaData w' = metaData w /\
        bloomFilter w' = bloomFilter w) /\
  (forall st1 iw,
      rProto_NewWriter (filepath_Join (basePath (opts w)) IndexFileName)
        (indexCompressionType (opts w)) (writeBufferSizeBytes (opts w)) st
        = (st1, Val iw) ->
      (forall st2 err,
          iw_Open iw st1 = (st2, Some err) ->
          exists w',
            Open w st
              = (st2, w',
                 Err (errIn "error while opening index writer" (basePath (opts w))
                        (Some err))) /\
            indexWriter w' = Some iw /\ dataWriter w' = dataWriter w /\
            metaDataFile w' = metaDataFile w /\ metaData w' = metaData w /\
            bloomFilter w' = bloomFilter w) /\
      (forall st2,
          iw_Open iw st1 = (st2, None) ->
          (forall st3 err,
              recordio_NewFileWriter (filepath_Join (basePath (opts w)) DataFileName)
                (dataCompressionType (opts w)) (writeBufferSizeBytes (opts w)) st2
                = (st3, Fail err) ->
              exists w',
                Open w st
                  = (st3, w',
                     Err (errIn "error while creating data writer" (basePath (opts w))
                            (Some err))) /\
                indexWriter w' = Some iw /\ dataWriter w' = dataWriter w /\
                metaDataFile w' = metaDataFile w /\ metaData w' = metaData w /\
                bloomFilter w' = bloomFilter w) /\
          (forall st3 dw,
              recordio_NewFileWriter (filepath_Join (basePath (opts w)) DataFileName)
                (dataCompressionType (opts w)) (writeBufferSizeBytes (opts w)) st2
                = (st3, Val dw) ->
              (forall st4 err,
                  dw_Open dw st3 = (st4, Some err) ->
                  exists w',
                    Open w st
                      = (st4, w',
                         Err (errIn "error while opening data writer" (basePath (opts w))
                                (Some err))) /\
                    indexWriter w' = Some iw /\ dataWriter w' = Some dw /\
                    metaDataFile w' = metaDataFile w /\ metaData w' = metaData w /\
                    bloomFilter w' = bloomFilter w) /\
              (forall st4,
                  dw_Open dw st3 = (st4, None) ->
                  (forall st5 err,
                      os_OpenFile (filepath_Join (basePath (opts w)) MetaFileName) st4
                        = (st5, Fail err) ->
                      exists w',
                        Open w st
                          = (st5, w',
                             Err (errIn "error while opening metadata file"
                                    (basePath (opts w)) (Some err))) /\
                        indexWriter w' = Some iw /\ dataWriter w' = Some dw /\
                        metaDataFile w' = metaDataFile w /\ metaData w' = metaData w /\
                        bloomFilter w' = bloomFilter w) /\
                  (forall st5 f err,
                      os_OpenFile (filepath_Join (basePath (opts w)) MetaFileName) st4
                        = (st5, Val f) ->
                      enableBloomFilter (opts w) = true ->
                      bloomfilter_NewOptimal (bloomExpectedNumberOfElements (opts w))
                        (bloomFpProbability (opts w)) = Fail err ->
                      exists w',
                        Open w st
                          = (st5, w',
                             Err (errIn "error while creating bloomfilter"
                                    (basePath (opts w)) (Some err))) /\
                        indexWriter w' = Some iw /\ dataWriter w' = Some dw /\
                        metaDataFile w' = Some f /\
                        metaData w'
                          = Some (sProto.mkMetaData sstables_Version 0 0 None None 0 0 0) /\
                        bloomFilter w' = bloomFilter w))))).
Proof.
  split; [|split; [|split]].
  - intros P H1 H2 H3 H4 H5 H0. unfold Open. cbn -[errIn].
    match goal with |- context [rProto_NewWriter ?p ?c ?b st] =>
      specialize (H1 p c b st H0); destruct (rProto_NewWriter p c b st) as [s1 [iw|e]]
    end; [|exact H1]. simpl in H1.
    specialize (H2 iw s1 H1). destruct (iw_Open iw s1) as [s2 [e|]]; [exact H2|].
    simpl in H2.
    match goal with |- context [recordio_NewFileWriter ?p ?c ?b s2] =>
      specialize (H3 p c b s2 H2); destruct (recordio_NewFileWriter p c b s2) as [s3 [dw|e]]
    end; [|exact H3]. simpl in H3.
    specialize (H4 dw s3 H3). destruct (dw_Open dw s3) as [s4 [e|]]; [exact H4|].
    simpl in H4.
    match goal with |- context [os_OpenFile ?p s4] =>
      specialize (H5 p s4 H4); destruct (os_OpenFile p s4) as [s5 [f|e]]
    end; [|exact H5]. simpl in H5.
    repeat break_match; exact H5.
  - intros st' w' H. unfold Open in H. cbn -[errIn] in H.
    repeat break_match; clean_options; inv H; simpl;
      repeat eexists; eauto.
  - intros st1 err H1. unfold Open. cbn -[errIn]. rewrite H1.
    eexists. split; [reflexivity|]. cbn. auto.
  - intros st1 iw H1. split.
    + intros st2 err H2. unfold Open. cbn -[errIn]. rewrite H1. cbn -[errIn]. rewrite H2.
      eexists. split; [reflexivity|]. cbn. auto.
    + intros st2 H2. split.
      * intros st3 err H3. unfold Open. cbn -[errIn]. rewrite H1. cbn -[errIn].
        rewrite H2. cbn -[errIn]. rewrite H3.
        eexists. split; [reflexivity|]. cbn. auto.
      * intros st3 dw H3. split.
        -- intros st4 err H4. unfold Open. cbn -[errIn]. rewrite H1. cbn -[errIn].
           rewrite H2. cbn -[errIn]. rewrite H3. cbn -[errIn]. rewrite H4.
           eexists. split; [reflexivity|]. cbn. auto.
        -- intros st4 H4. split.
           ++ intros st5 err H5. unfold Open. cbn -[errIn]. rewrite H1. cbn -[errIn].
              rewrite H2. cbn -[errIn]. rewrite H3. cbn -[errIn]. rewrite H4.
              cbn -[errIn]. rewrite H5.
              eexists. split; [reflexivity|]. cbn. auto.
           ++ intros st5 f err H5 Hb H6. unfold Open. cbn -[errIn]. rewrite H1.
              cbn -[errIn]. rewrite H2. cbn -[errIn]. rewrite H3. cbn -[errIn].
              rewrite H4. cbn -[errIn]. rewrite H5. cbn -[errIn]. rewrite Hb, H6.
              eexists. split; [reflexivity|]. cbn. auto 10.
Qed.

End Opening.

(** ** The simple writer *)

Section Simple.

Context {E : Env}.

Lemma hand_rolled_stopped M :
  forall st w o, o <> Ok -> fold_left hand_rolled_step M (st, w, o) = (st, w, o).
Proof.
  induction M as [|kv M IH]; intros st w o Ho; simpl; [reflexivity|].
  destruct o; [congruence| |]; apply IH; discriminate.
Qed.

(** The loop of [WriteSkipListMap] and the caller's loop leave the same
    world and the same writer. *)
Lemma WriteSkipListMap_loop_fold M after :
  forall w st,
    exists st1 w1 o1 o2,
      WriteSkipListMap_loop M after w st = (st1, w1, o1) /\
      fold_left hand_rolled_step M (st, w, Ok) = (st1, w1, o2) /\
      (o1 = Panic <-> o2 = Panic) /\
      (after = None -> (o1 = Ok <-> o2 = Ok)).
Proof.
  induction M as [|[k v] M IH]; intros w st.
  - simpl. destruct after as [e|].
    + do 4 eexists. split; [reflexivity|]. split; [reflexivity|].
      split; [split; discriminate|]. discriminate.
    + do 4 eexists. split; [reflexivity|]. split; [reflexivity|]. tauto.
  - cbn -[errIn]. destruct (WriteNext w k v st) as [[st1 w1] o] eqn:HW. destruct o.
    + apply IH.
    + rewrite hand_rolled_stopped by discriminate.
      do 4 eexists. split; [reflexivity|]. split; [reflexivity|].
      split; [split; discriminate|]. intros _. split; discriminate.
    + rewrite hand_rolled_stopped by discriminate.
      do 4 eexists. split; [reflexivity|]. split; [reflexivity|]. tauto.
Qed.

(** When every call of a run returns nil, the caller's loop is that run. *)
Lemma run_all_ok M :
  forall w st st' w' os,
    run M w st = (st', w', os) ->
    Forall (eq Ok) os ->
    fold_left hand_rolled_step M (st, w, Ok) = (st', w', Ok).
Proof.
  induction M as [|[k v] M IH]; intros w st st' w' os Hrun Hall; simpl in *.
  - now inv Hrun.
  - destruct (WriteNext w k v st) as [[st1 w1] o] eqn:HW.
    destruct (run M w1 st1) as [[st2 w2] os2] eqn:HR.
    destruct o; inv Hrun; inversion Hall as [|? ? Ho Hall']; subst; try discriminate.
    eapply IH; eauto.
Qed.

Lemma deferred_join_Ok body closed :
  deferred_join body closed = Ok <-> body = Ok /\ closed = Ok.
Proof.
  destruct body, closed; simpl; split; intros H;
    try discriminate; try (destruct H; discriminate); auto.
Qed.

(** C6: a simple writer is a stream writer built from the same options
    with the write buffer size set to 4096 after them, and
    [WriteSkipListMap] leaves the world (index entries, data records, meta
    and bloom files) and the writer (metadata counters and keys) exactly
    as the caller's loop does: [Open], then [WriteNext] for each pair in
    iterator order for as long as the calls succeed, then [Close].  It
    returns nil exactly when the loop and [Close] do, and when [Open] and
    every [WriteNext] of the sequence succeed it agrees with the sequence
    that makes every call. *)
Theorem WriteSkipListMap_is_hand_rolled_loop writerOptions sw :
  NewSSTableSimpleWriter writerOptions = Val sw ->
  NewSSTableStreamWriter (writerOptions ++ [WriteBufferSizeBytes 4096])
    = Val (streamWriter sw) /\
  opts (streamWriter sw)
    = WriteBufferSizeBytes 4096 (apply_options writerOptions default_options) /\
  forall M st,
    exists st1 sw1 o1 body closed,
      WriteSkipListMap sw M st = (st1, sw1, o1) /\
      hand_rolled (pairs M) (streamWriter sw) st = (st1, streamWriter sw1, (body, closed)) /\
      (after M = None -> (o1 = Ok <-> body = Ok /\ closed = Ok)) /\
      (forall st3 w3 os closed',
          call_sequence (pairs M) (streamWriter sw) st = (st3, w3, (Ok, os, closed')) ->
          Forall (eq Ok) os ->
          st1 = st3 /\ streamWriter sw1 = w3).
Proof.
  intros Hnew. unfold NewSSTableSimpleWriter in Hnew.
  destruct (NewSSTableStreamWriter (writerOptions ++ [WriteBufferSizeBytes 4096]))
    as [w|e] eqn:Hs; inv Hnew.
  split; [reflexivity|]. split.
  - unfold NewSSTableStreamWriter in Hs. repeat break_match; inv Hs. simpl.
    unfold apply_options. rewrite fold_left_app. reflexivity.
  - simpl. intros M st. unfold WriteSkipListMap, hand_rolled, call_sequence. simpl.
    destruct (Open w st) as [[st0 w0] o0] eqn:HO. destruct o0.
    + destruct (WriteSkipListMap_loop_fold (pairs M) (after M) w0 st0)
        as (st1 & w1 & o1 & o2 & Hloop & Hfold & Hp & Hok).
      rewrite Hloop, Hfold.
      destruct (Close w1 st1) as [[st2 w2] oc] eqn:HC.
      do 5 eexists. split; [reflexivity|]. split; [reflexivity|]. split.
      * intros Hafter. rewrite deferred_join_Ok. specialize (Hok Hafter). tauto.
      * intros st3 w3 os closed' Hseq Hall. simpl.
        destruct (run (pairs M) w0 st0) as [[st4 w4] os4] eqn:HR.
        destruct (Close w4 st4) as [[st5 w5] oc5] eqn:HC5. inv Hseq.
        rewrite (run_all_ok _ _ _ _ _ _ HR Hall) in Hfold. inv Hfold.
        rewrite HC in HC5. inv HC5. split; reflexivity.
    + do 5 eexists. split; [reflexivity|]. split; [reflexivity|]. split.
      * intros _. split; [discriminate|]. intros [H _]. discriminate.
      * intros st3 w3 os closed' Hseq.
        destruct (run (pairs M) w0 st0) as [[st4 w4] os4].
        destruct (Close w4 st4) as [[st5 w5] oc5]. inv Hseq.
    + do 5 eexists. split; [reflexivity|]. split; [reflexivity|]. split.
      * intros _. split; [discriminate|]. intros [H _]. discriminate.
      * intros st3 w3 os closed' Hseq.
        destruct (run (pairs M) w0 st0) as [[st4 w4] os4].
        destruct (Close w4 st4) as [[st5 w5] oc5]. inv Hseq.
Qed.

End Simple.

(** * The theorems on a concrete table *)

#[global] Existing Instance Sim.env.

Lemma Some_eq {A} {x : option A} {a b : A} : x = Some a -> x = Some b -> a = b.
Proof. intros Ha Hb. rewrite Ha in Hb. now injection Hb. Qed.

Lemma triple_eta {A B C} (r : A * B * C) : r = (fst (fst r), snd (fst r), snd r).
Proof. destruct r as [[a b] c]. reflexivity. Qed.

Lemma pair_eta {A B} (r : A * B) (b : B) : snd r = b -> r = (fst r, b).
Proof. destruct r as [a b']. simpl. now intros ->. Qed.

Lemma outcome_eta {A B C} (r : A * B * C) (c : C) :
  snd r = c -> r = (fst (fst r), snd (fst r), c).
Proof. destruct r as [[a b] c']. simpl. now intros ->. Qed.

Lemma check_eta {E : Env} (w : SSTableStreamWriter) (key : bytes) :
  match WriteNext_check w key with inr _ => True | inl _ => False end ->
  WriteNext_check w key = inr (passed_writer w key).
Proof.
  unfold passed_writer. destruct (WriteNext_check w key); [intros []|reflexivity].
Qed.

(** The data writer of the disk truncates on [Seek]. *)
Lemma Sim_Seek_truncates (dw : string) (o : Z) (s s' : Sim.Disk) :
  dw_Seek dw o s = (s', None) -> dw_Size dw s' = o.
Proof.
  simpl. unfold Sim.data_Seek, Sim.rio_seek. intros Hs.
  destruct (Sim.fails s Sim.DataSeek); [inversion Hs|].
  destruct (Sim.rio_handle (Sim.data s)); inversion Hs. reflexivity.
Qed.

(** No call of the disk makes a directory. *)
Lemma Sim_NewWriter_dirs p s : Sim.dirs (fst (Sim.NewWriter p s)) = Sim.dirs s.
Proof. unfold Sim.NewWriter. destruct (Sim.fails s Sim.NewIndex); reflexivity. Qed.

Lemma Sim_NewFileWriter_dirs p s : Sim.dirs (fst (Sim.NewFileWriter p s)) = Sim.dirs s.
Proof. unfold Sim.NewFileWriter. destruct (Sim.fails s Sim.NewData); reflexivity. Qed.

Lemma Sim_index_Open_dirs s : Sim.dirs (fst (Sim.index_Open s)) = Sim.dirs s.
Proof. unfold Sim.index_Open. destruct (Sim.rio_open _ _ _). reflexivity. Qed.

Lemma Sim_data_Open_dirs s : Sim.dirs (fst (Sim.data_Open s)) = Sim.dirs s.
Proof. unfold Sim.data_Open. destruct (Sim.rio_open _ _ _). reflexivity. Qed.

Lemma Sim_OpenFile_dirs p s : Sim.dirs (fst (Sim.OpenFile p s)) = Sim.dirs s.
Proof.
  unfold Sim.OpenFile. destruct (Sim.fails s Sim.MetaOpen); [reflexivity|].
  destruct (negb (Sim.dir_ok s p)); reflexivity.
Qed.

Lemma WriteNext_strictly_increasing_witness :
  comparator_ok Sim.BytesComparator /\
  WriteNext (snd (fst (Sim.after_run Sim.fault_data_write_1 Sim.calls_ab))) Sim.key_a Sim.val_1
    (fst (fst (Sim.after_run Sim.fault_data_write_1 Sim.calls_ab)))
    = (fst (fst (Sim.after_run Sim.fault_data_write_1 Sim.calls_ab)),
       snd (fst (Sim.after_run Sim.fault_data_write_1 Sim.calls_ab)),
       Err (errOutOfOrderKey
              (basePath (opts (snd (fst (Sim.after_run Sim.fault_data_write_1
                                           Sim.calls_ab))))))) /\
  lastKey (snd (fst (Sim.after_run Sim.fault_data_write_1 Sim.calls_ab)))
    = Some (elems Sim.key_b) /\
  StronglySorted (fun a b => Sim.BytesComparator a b < 0)
    (written Sim.calls_abc (snd (run Sim.calls_abc (Sim.tbl_writer []) (Sim.tbl_disk [])))).
Proof.
  split; [exact BytesComparator_ok|].
  assert (Hk : keyComparator (opts (Sim.tbl_writer [])) = Some Sim.BytesComparator)
    by (vm_compute; reflexivity).
  assert (Hk1 : keyComparator
                  (opts (snd (fst (Sim.after_run Sim.fault_data_write_1 Sim.calls_ab))))
                = Some Sim.BytesComparator) by (vm_compute; reflexivity).
  assert (Hl1 : lastKey (snd (fst (Sim.after_run Sim.fault_data_write_1 Sim.calls_ab)))
                = Some (elems Sim.key_b)) by (vm_compute; reflexivity).
  assert (Hgt : Sim.BytesComparator (Some (elems Sim.key_b)) Sim.key_a > 0)
    by (vm_compute; reflexivity).
  assert (Hnp : ~ In Panic (snd (Sim.after_run Sim.fault_data_write_1 Sim.calls_ab))).
  { vm_compute. intuition discriminate. }
  destruct (WriteNext_strictly_increasing (E := Sim.env)
              Sim.BytesComparator BytesComparator_ok)
    as (_ & Hlast & _ & Hrun & Hsorted).
  split; [|split].
  - exact (proj2 (Hlast (snd (fst (Sim.after_run Sim.fault_data_write_1 Sim.calls_ab)))
                    (elems Sim.key_b) Sim.key_a Sim.val_1
                    (fst (fst (Sim.after_run Sim.fault_data_write_1 Sim.calls_ab)))
                    Hk1 Hl1) Hgt).
  - exact (Hrun Sim.calls_ab (Sim.tbl_writer Sim.fault_data_write_1)
             (Sim.tbl_disk Sim.fault_data_write_1)
             (fst (fst (Sim.after_run Sim.fault_data_write_1 Sim.calls_ab)))
             (snd (fst (Sim.after_run Sim.fault_data_write_1 Sim.calls_ab)))
             (snd (Sim.after_run Sim.fault_data_write_1 Sim.calls_ab))
             Sim.key_a [Sim.key_b]
             (triple_eta (Sim.after_run Sim.fault_data_write_1 Sim.calls_ab)) Hnp
             ltac:(vm_compute; reflexivity)).
  - exact (Hsorted Sim.calls_abc (Sim.tbl_writer []) (Sim.tbl_disk [])
             (fst (fst (run Sim.calls_abc (Sim.tbl_writer []) (Sim.tbl_disk []))))
             (snd (fst (run Sim.calls_abc (Sim.tbl_writer []) (Sim.tbl_disk []))))
             (snd (run Sim.calls_abc (Sim.tbl_writer []) (Sim.tbl_disk [])))
             Hk (triple_eta _)).
Defined.

(** With the second data append failing: [a] is written, the call for [b]
    passes the ordering check and fails at the append.  A call with the
    key [a], which the comparator reports equal to the key written last,
    then fails with the out-of-order-key error, the key being compared
    with [b]; it does not fail with the duplicate-key error. *)
Lemma WriteNext_equal_key_not_duplicate :
  snd (Sim.after_run Sim.fault_data_write_1 Sim.calls_ab)
    = [Ok; Err (errIn "error writeNext data writer error" "tbl" (Some Sim.EIO))] /\
  written Sim.calls_ab (snd (Sim.after_run Sim.fault_data_write_1 Sim.calls_ab))
    = [Sim.key_a] /\
  Sim.BytesComparator Sim.key_a Sim.key_a = 0 /\
  snd (WriteNext (snd (fst (Sim.after_run Sim.fault_data_write_1 Sim.calls_ab)))
         Sim.key_a Sim.val_1
         (fst (fst (Sim.after_run Sim.fault_data_write_1 Sim.calls_ab))))
    = Err (errOutOfOrderKey "tbl") /\
  snd (WriteNext (snd (fst (Sim.after_run Sim.fault_data_write_1 Sim.calls_ab)))
         Sim.key_a Sim.val_1
         (fst (fst (Sim.after_run Sim.fault_data_write_1 Sim.calls_ab))))
    <> Err (errDuplicateKey "tbl").
Proof.
  repeat split; try (vm_compute; reflexivity).
  vm_compute. discriminate.
Defined.

Lemma WriteNext_index_failure_rolls_back_witness :
  snd (WriteNext (Sim.tbl_writer Sim.fault_index_write) Sim.key_a Sim.val_1
         (Sim.tbl_disk Sim.fault_index_write))
    = Err (errIn "error writeNext index writer/seeker error" "tbl"
             (Some (joinError [Sim.EIO]))) /\
  Sim.rio_size
    (Sim.data (fst (fst (WriteNext (Sim.tbl_writer Sim.fault_index_write) Sim.key_a
                           Sim.val_1 (Sim.tbl_disk Sim.fault_index_write)))))
    = Sim.rio_size (Sim.data (Sim.tbl_disk Sim.fault_index_write)).
Proof.
  assert (Hc := check_eta (E := Sim.env) (Sim.tbl_writer Sim.fault_index_write) Sim.key_a
                  ltac:(vm_compute; exact I)).
  assert (Hb : enableBloomFilter (opts (Sim.tbl_writer Sim.fault_index_write)) = true ->
               bloomFilter (Sim.tbl_writer Sim.fault_index_write) <> None)
    by (vm_compute; discriminate).
  assert (Hdw : dataWriter (Sim.tbl_writer Sim.fault_index_write) = Some "tbl/data")
    by (vm_compute; reflexivity).
  assert (Hiw : indexWriter (Sim.tbl_writer Sim.fault_index_write) = Some "tbl/index")
    by (vm_compute; reflexivity).
  assert (Hd := pair_eta
                  (dw_Write (Env := Sim.env) "tbl/data" Sim.val_1
                     (Sim.tbl_disk Sim.fault_index_write))
                  (Val 6) ltac:(vm_compute; reflexivity)).
  assert (Hi := pair_eta
                  (iw_Write (Env := Sim.env) "tbl/index"
                     (sProto.mkIndexEntry Sim.key_a 6 (crc64.Sum64_ISO (elems Sim.val_1)))
                     (fst (dw_Write (Env := Sim.env) "tbl/data" Sim.val_1
                             (Sim.tbl_disk Sim.fault_index_write))))
                  (Fail Sim.EIO) ltac:(vm_compute; reflexivity)).
  destruct (WriteNext_index_failure_rolls_back (E := Sim.env)
              (Sim.tbl_writer Sim.fault_index_write) Sim.key_a Sim.val_1
              (Sim.tbl_disk Sim.fault_index_write)
              (passed_writer (Sim.tbl_writer Sim.fault_index_write) Sim.key_a)
              "tbl/data" "tbl/index"
              (fst (dw_Write (Env := Sim.env) "tbl/data" Sim.val_1
                      (Sim.tbl_disk Sim.fault_index_write)))
              6
              (fst (iw_Write (Env := Sim.env) "tbl/index"
                      (sProto.mkIndexEntry Sim.key_a 6 (crc64.Sum64_ISO (elems Sim.val_1)))
                      (fst (dw_Write (Env := Sim.env) "tbl/data" Sim.val_1
                              (Sim.tbl_disk Sim.fault_index_write)))))
              Sim.EIO Hc Hb Hdw Hiw Hd Hi)
    as [[w' HW] Hsize].
  split.
  - rewrite HW. vm_compute. reflexivity.
  - rewrite HW.
    assert (Hs := Hsize (Sim_Seek_truncates "tbl/data") ltac:(vm_compute; reflexivity)).
    vm_compute in Hs. vm_compute. exact Hs.
Defined.

Lemma WriteNext_bloom_fnv1_witness :
  enableBloomFilter (opts (Sim.tbl_writer [])) = true /\
  exists bf,
    bloomFilter (Sim.tbl_writer []) = Some bf /\
    bloomFilter (snd (fst (WriteNext (Sim.tbl_writer []) Sim.key_a Sim.val_1 (Sim.tbl_disk []))))
      = Some (bf_Add bf (fnv.New64 (elems Sim.key_a))).
Proof.
  assert (Hen : enableBloomFilter (opts (Sim.tbl_writer [])) = true)
    by (vm_compute; reflexivity).
  assert (Hnp : snd (WriteNext (Sim.tbl_writer []) Sim.key_a Sim.val_1 (Sim.tbl_disk []))
                <> Panic) by (vm_compute; discriminate).
  split; [exact Hen|].
  assert (H := WriteNext_bloom_fnv1 (E := Sim.env) (Sim.tbl_writer []) Sim.key_a Sim.val_1
                 (Sim.tbl_disk [])
                 (fst (fst (WriteNext (Sim.tbl_writer []) Sim.key_a Sim.val_1 (Sim.tbl_disk []))))
                 (snd (fst (WriteNext (Sim.tbl_writer []) Sim.key_a Sim.val_1 (Sim.tbl_disk []))))
                 (snd (WriteNext (Sim.tbl_writer []) Sim.key_a Sim.val_1 (Sim.tbl_disk [])))
                 Hen (triple_eta _) Hnp).
  rewrite (check_eta (E := Sim.env) (Sim.tbl_writer []) Sim.key_a
             ltac:(vm_compute; exact I)) in H.
  exact H.
Defined.

(** The hash the code inserts for the key [a] is not its FNV-1a hash. *)
Lemma WriteNext_bloom_not_fnv1a :
  snd (WriteNext (Sim.tbl_writer []) Sim.key_a Sim.val_1 (Sim.tbl_disk [])) = Ok /\
  bloomFilter (Sim.tbl_writer []) = Some ([] : @Filter Sim.env) /\
  bloomFilter (snd (fst (WriteNext (Sim.tbl_writer []) Sim.key_a Sim.val_1 (Sim.tbl_disk []))))
    = Some ([0xaf63bd4c8601b7be] : @Filter Sim.env) /\
  fnv.New64a (elems Sim.key_a) = 0xaf63dc4c8601ec8c /\
  bloomFilter (snd (fst (WriteNext (Sim.tbl_writer []) Sim.key_a Sim.val_1 (Sim.tbl_disk []))))
    <> Some (@bf_Add Sim.env [] (fnv.New64a (elems Sim.key_a))).
Proof.
  repeat split; try (vm_compute; reflexivity).
  vm_compute. discriminate.
Defined.

Lemma WriteNext_counters_witness :
  snd (WriteNext (Sim.tbl_writer []) Sim.key_a None (Sim.tbl_disk [])) = Ok /\
  exists md md',
    metaData (Sim.tbl_writer []) = Some md /\
    metaData (snd (fst (WriteNext (Sim.tbl_writer []) Sim.key_a None (Sim.tbl_disk []))))
      = Some md' /\
    sProto.NumRecords md' = wrap64 (sProto.NumRecords md + 1) /\
    sProto.NullValues md' = wrap64 (sProto.NullValues md + 1).
Proof.
  assert (H : snd (WriteNext (Sim.tbl_writer []) Sim.key_a None (Sim.tbl_disk [])) = Ok)
    by (vm_compute; reflexivity).
  split; [exact H|].
  exact (WriteNext_counters (E := Sim.env) (Sim.tbl_writer []) Sim.key_a None (Sim.tbl_disk [])
           (fst (fst (WriteNext (Sim.tbl_writer []) Sim.key_a None (Sim.tbl_disk []))))
           (snd (fst (WriteNext (Sim.tbl_writer []) Sim.key_a None (Sim.tbl_disk []))))
           (outcome_eta _ _ H)).
Defined.

(** An empty value that is not nil is written without [NullValues] being
    incremented. *)
Lemma WriteNext_empty_value_not_counted :
  len Sim.val_empty = 0%nat /\
  snd (WriteNext (Sim.tbl_writer []) Sim.key_a Sim.val_empty (Sim.tbl_disk [])) = Ok /\
  option_map sProto.NullValues (metaData (Sim.tbl_writer [])) = Some 0 /\
  option_map sProto.NullValues
    (metaData (snd (fst (WriteNext (Sim.tbl_writer []) Sim.key_a Sim.val_empty
                           (Sim.tbl_disk [])))))
    = Some 0.
Proof.
  repeat split; vm_compute; reflexivity.
Defined.

Lemma WriteNext_failed_append_keeps_key_witness :
  snd (WriteNext (Sim.tbl_writer Sim.fault_data_write_0) Sim.key_a Sim.val_1
         (Sim.tbl_disk Sim.fault_data_write_0))
    = Err (errIn "error writeNext data writer error" "tbl" (Some Sim.EIO)) /\
  lastKey (snd (fst (WriteNext (Sim.tbl_writer Sim.fault_data_write_0) Sim.key_a Sim.val_1
                       (Sim.tbl_disk Sim.fault_data_write_0))))
    = Some (elems Sim.key_a) /\
  snd (WriteNext
         (snd (fst (WriteNext (Sim.tbl_writer Sim.fault_data_write_0) Sim.key_a Sim.val_1
                      (Sim.tbl_disk Sim.fault_data_write_0))))
         Sim.key_a Sim.val_2
         (fst (fst (WriteNext (Sim.tbl_writer Sim.fault_data_write_0) Sim.key_a Sim.val_1
                      (Sim.tbl_disk Sim.fault_data_write_0)))))
    = Err (errDuplicateKey "tbl").
Proof.
  assert (He : snd (WriteNext (Sim.tbl_writer Sim.fault_data_write_0) Sim.key_a Sim.val_1
                      (Sim.tbl_disk Sim.fault_data_write_0))
               = Err (errIn "error writeNext data writer error" "tbl" (Some Sim.EIO)))
    by (vm_compute; reflexivity).
  assert (Hk : keyComparator (opts (Sim.tbl_writer Sim.fault_data_write_0))
               = Some Sim.BytesComparator) by (vm_compute; reflexivity).
  destruct (WriteNext_failed_append_keeps_key (E := Sim.env) Sim.BytesComparator
              (Sim.tbl_writer Sim.fault_data_write_0) Sim.key_a Sim.val_1
              (Sim.tbl_disk Sim.fault_data_write_0)
              (passed_writer (Sim.tbl_writer Sim.fault_data_write_0) Sim.key_a)
              (fst (fst (WriteNext (Sim.tbl_writer Sim.fault_data_write_0) Sim.key_a Sim.val_1
                           (Sim.tbl_disk Sim.fault_data_write_0))))
              (snd (fst (WriteNext (Sim.tbl_writer Sim.fault_data_write_0) Sim.key_a Sim.val_1
                           (Sim.tbl_disk Sim.fault_data_write_0))))
              (errIn "error writeNext data writer error" "tbl" (Some Sim.EIO))
              BytesComparator_ok Hk
              (check_eta (E := Sim.env) (Sim.tbl_writer Sim.fault_data_write_0) Sim.key_a
                 ltac:(vm_compute; exact I))
              (outcome_eta _ _ He))
    as (_ & _ & _ & Hl & _ & Hdup).
  split; [exact He|]. split; [exact Hl|].
  rewrite (Hdup Sim.val_2). vm_compute. reflexivity.
Defined.


(** The bytes of the meta file after this [Close], in the encoding of the
    disk (a byte per number, the keys with their length in front): the
    version, three records, one nil value, the keys [a] and [c], and the
    three sizes. *)
Example Close_writes_min_max_keys :
  Sim.meta_content (Sim.meta (fst (fst (Sim.after_close [] Sim.calls_abc))))
    = Some [x01; x03; x01; x01; "a"%byte; x01; "c"%byte; x1d; x4e; x6b].
Proof. vm_compute. reflexivity. Qed.


Lemma Close_attempts_every_step_witness :
  let '(st1, iErr) :=
    iw_Close (Env := Sim.env) "tbl/index"
      (fst (fst (Sim.after_run Sim.fault_closing Sim.calls_ab))) in
  let '(st2, dErr) := dw_Close (Env := Sim.env) "tbl/data" st1 in
  let '(st3, bErr) :=
    bloom_step (snd (fst (Sim.after_run Sim.fault_closing Sim.calls_ab))) st2 in
  let md' :=
    final_metadata (snd (fst (Sim.after_run Sim.fault_closing Sim.calls_ab)))
      (sProto.mkMetaData 1 2 0 Sim.key_a None 0 0 0) "tbl/index" "tbl/data" st3 in
  let '(st4, mErr) := meta_step md' "tbl/meta" st3 in
  let '(st5, cErr) := file_Close (Env := Sim.env) "tbl/meta" st4 in
  exists res,
    Sim.after_close Sim.fault_closing Sim.calls_ab =
      (st5,
       set_metaData (snd (fst (Sim.after_run Sim.fault_closing Sim.calls_ab))) (Some md'),
       outcome_of res) /\
    causes_of res =
      causes_of iErr ++ causes_of dErr
      ++ match bErr with
         | Some _ =>
             [errIn "error in writing bloom filter "
                (basePath (opts (snd (fst (Sim.after_run Sim.fault_closing Sim.calls_ab)))))
                bErr]
         | None => []
         end
      ++ match mErr with
         | Some _ =>
             [errIn match proto_Marshal md' with
                    | Fail _ => "error in serializing metadata"
                    | Val _ => "error in writing metadata"
                    end
                (basePath (opts (snd (fst (Sim.after_run Sim.fault_closing Sim.calls_ab)))))
                mErr]
         | None => []
         end
      ++ causes_of cErr /\
    (res = None <->
     iErr = None /\ dErr = None /\ bErr = None /\ mErr = None /\ cErr = None).
Proof.
  exact (Close_attempts_every_step (E := Sim.env)
           (snd (fst (Sim.after_run Sim.fault_closing Sim.calls_ab)))
           (fst (fst (Sim.after_run Sim.fault_closing Sim.calls_ab)))
           "tbl/index" "tbl/data" "tbl/meta"
           (sProto.mkMetaData 1 2 0 Sim.key_a None 0 0 0)
           ltac:(vm_compute; reflexivity) ltac:(vm_compute; reflexivity)
           ltac:(vm_compute; reflexivity) ltac:(vm_compute; reflexivity)).
Defined.

(** With the close of the data writer and the write of the meta file
    failing, [Close] still makes all five calls and returns both errors. *)
Example Close_with_two_failures :
  causes_of (goerr_of (snd (Sim.after_close Sim.fault_closing Sim.calls_ab)))
    = [Sim.EIO; errIn "error in writing metadata" "tbl" (Some Sim.EIO)] /\
  firstn 5 (Sim.calls (fst (fst (Sim.after_close Sim.fault_closing Sim.calls_ab))))
    = [Sim.MetaClose; Sim.MetaWrite; Sim.BloomWrite; Sim.DataClose; Sim.IndexClose].
Proof.
  split; vm_compute; reflexivity.
Qed.

Lemma WriteNext_needs_open_writer_witness :
  WriteNext (Sim.new_writer []) Sim.key_a Sim.val_1 (Sim.disk ["tbl"] [])
    = (Sim.disk ["tbl"] [], Sim.new_writer [],
       Err (errNotOpened (basePath (opts (Sim.new_writer []))))) /\
  exists s w'' e,
    WriteNext (snd (fst (Sim.after_close [] Sim.calls_ab))) Sim.key_c Sim.val_1
      (fst (fst (Sim.after_close [] Sim.calls_ab)))
    = (s, w'', Err e).
Proof.
  destruct (WriteNext_needs_open_writer (E := Sim.env)) as [Hfresh Hclosed].
  split.
  - exact (Hfresh ([WriteBasePath "tbl"; WithKeyComparator Sim.BytesComparator] ++ [])
             (Sim.new_writer []) Sim.key_a Sim.val_1 (Sim.disk ["tbl"] [])
             ltac:(vm_compute; reflexivity)).
  - assert (Ho : opened (snd (fst (Sim.after_run [] Sim.calls_ab)))).
    { repeat split; try (vm_compute; discriminate). }
    assert (Hk : keyComparator (opts (snd (fst (Sim.after_run [] Sim.calls_ab)))) <> None)
      by (vm_compute; discriminate).
    assert (Hdw : dataWriter (snd (fst (Sim.after_run [] Sim.calls_ab))) = Some "tbl/data")
      by (vm_compute; reflexivity).
    assert (Hrefuse : forall record, exists s e,
               dw_Write (Env := Sim.env) "tbl/data" record
                 (fst (fst (Sim.after_close [] Sim.calls_ab))) = (s, Fail e)).
    { intros record.
      exists (fst (dw_Write (Env := Sim.env) "tbl/data" record
                     (fst (fst (Sim.after_close [] Sim.calls_ab))))), Sim.ErrNotOpen.
      apply pair_eta. vm_compute. reflexivity. }
    exact (Hclosed (snd (fst (Sim.after_run [] Sim.calls_ab)))
             (fst (fst (Sim.after_run [] Sim.calls_ab)))
             (fst (fst (Sim.after_close [] Sim.calls_ab)))
             (snd (fst (Sim.after_close [] Sim.calls_ab)))
             (snd (Sim.after_close [] Sim.calls_ab))
             "tbl/data" Ho Hk Hdw (triple_eta (Sim.after_close [] Sim.calls_ab))
             Hrefuse Sim.key_c Sim.val_1).
Defined.

Lemma Open_steps_witness :
  Sim.dir_exists (fst (fst (Open (Sim.new_writer []) (Sim.disk [] [])))) "tbl" = false /\
  metaData (Sim.tbl_writer []) = Some (sProto.mkMetaData sstables_Version 0 0 None None 0 0 0) /\
  exists w',
    Open (Sim.new_writer []) (Sim.disk [] [])
      = (fst (Sim.index_Open (fst (Sim.NewWriter "tbl/index" (Sim.disk [] [])))), w',
         Err (errIn "error while opening index writer" (basePath (opts (Sim.new_writer [])))
                (Some Sim.ENOENT))) /\
    indexWriter w' = Some "tbl/index" /\
    dataWriter w' = dataWriter (Sim.new_writer []) /\
    metaDataFile w' = metaDataFile (Sim.new_writer []) /\
    metaData w' = metaData (Sim.new_writer []) /\
    bloomFilter w' = bloomFilter (Sim.new_writer []).
Proof.
  split; [|split].
  - apply (proj1 (Open_steps (E := Sim.env) (Sim.new_writer []) (Sim.disk [] []))
             (fun s => Sim.dir_exists s "tbl" = false)).
    + intros p c b s Hs. unfold Sim.dir_exists in *. simpl.
      now rewrite Sim_NewWriter_dirs.
    + intros h s Hs. unfold Sim.dir_exists in *. simpl.
      now rewrite Sim_index_Open_dirs.
    + intros p c b s Hs. unfold Sim.dir_exists in *. simpl.
      now rewrite Sim_NewFileWriter_dirs.
    + intros h s Hs. unfold Sim.dir_exists in *. simpl.
      now rewrite Sim_data_Open_dirs.
    + intros p s Hs. unfold Sim.dir_exists in *. simpl.
      now rewrite Sim_OpenFile_dirs.
    + reflexivity.
  - destruct (proj1 (proj2 (Open_steps (E := Sim.env) (Sim.new_writer [])
                              (Sim.disk ["tbl"] [])))
                (Sim.tbl_disk []) (Sim.tbl_writer [])
                (outcome_eta (Open (Sim.new_writer []) (Sim.disk ["tbl"] [])) Ok
                   ltac:(vm_compute; reflexivity)))
      as (iw & st1 & st2 & dw & st3 & st4 & f & _ & _ & _ & _ & _ & _ & _ & _ & Hm & _).
    exact Hm.
  - exact (proj1 (proj2 (proj2 (proj2 (Open_steps (E := Sim.env) (Sim.new_writer [])
                                         (Sim.disk [] []))))
                    (fst (Sim.NewWriter "tbl/index" (Sim.disk [] []))) "tbl/index"
                    ltac:(vm_compute; reflexivity))
             (fst (Sim.index_Open (fst (Sim.NewWriter "tbl/index" (Sim.disk [] [])))))
             Sim.ENOENT ltac:(vm_compute; reflexivity)).
Defined.

(** On a disk without the directory [tbl], [Open] fails at the first file
    it has to create and the directory is still missing afterwards. *)
Lemma Open_makes_no_directory :
  Sim.dir_exists (Sim.disk [] []) "tbl" = false /\
  snd (Open (Sim.new_writer []) (Sim.disk [] []))
    = Err (errIn "error while opening index writer" "tbl" (Some Sim.ENOENT)) /\
  Sim.dir_exists (fst (fst (Open (Sim.new_writer []) (Sim.disk [] [])))) "tbl" = false.
Proof.
  repeat split; vm_compute; reflexivity.
Defined.

Lemma WriteSkipListMap_is_hand_rolled_loop_witness :
  writeBufferSizeBytes (opts (streamWriter Sim.simple_writer)) = 4096 /\
  exists st1 sw1 o1 body closed,
    WriteSkipListMap Sim.simple_writer Sim.map_abc (Sim.disk ["tbl"] []) = (st1, sw1, o1) /\
    hand_rolled (pairs Sim.map_abc) (streamWriter Sim.simple_writer) (Sim.disk ["tbl"] [])
      = (st1, streamWriter sw1, (body, closed)) /\
    (o1 = Ok <-> body = Ok /\ closed = Ok).
Proof.
  destruct (WriteSkipListMap_is_hand_rolled_loop (E := Sim.env)
              Sim.simple_options Sim.simple_writer ltac:(vm_compute; reflexivity))
    as (_ & Hopts & Hall).
  split.
  - rewrite Hopts. reflexivity.
  - destruct (Hall Sim.map_abc (Sim.disk ["tbl"] []))
      as (st1 & sw1 & o1 & body & closed & H1 & H2 & H3 & _).
    exists st1, sw1, o1, body, closed.
    split; [exact H1|]. split; [exact H2|]. exact (H3 eq_refl).
Defined.

(** * Further properties of the writer *)

Section Runs.

Context {E : Env}.

(** What one call does to the metadata. *)
Lemma WriteNext_metaData w key value st st' w' o md :
  WriteNext w key value st = (st', w', o) ->
  metaData w = Some md ->
  exists md',
    metaData w' = Some md' /\
    sProto.Version md' = sProto.Version md /\
    sProto.NumRecords md' =
      match o with
      | Ok => wrap64 (sProto.NumRecords md + 1)
      | _ => sProto.NumRecords md
      end /\
    sProto.NullValues md' =
      match o, value with
      | Ok, None => wrap64 (sProto.NullValues md + 1)
      | _, _ => sProto.NullValues md
      end.
Proof.
  intros HW Hm.
  destruct (WriteNext_check w key) as [early|w1] eqn:Hc.
  - destruct (WriteNext_rejected w key value st early Hc) as [Hr Hne].
    rewrite Hr in HW. inv HW. exists md. repeat split; try assumption.
    + destruct o; congruence.
    + destruct o; try congruence; reflexivity.
  - destruct (WriteNext_passed _ _ _ _ _ _ _ _ Hc HW) as (Ha & _).
    apply WriteNext_append_writer in Ha.
    destruct Ha as (_ & _ & _ & _ & _ & _ & _ & Hm').
    apply WriteNext_check_passed in Hc. destruct Hc as (_ & _ & _ & _ & _ & _ & Hc).
    assert (H1 : exists md1, metaData w1 = Some md1 /\
                   sProto.Version md1 = sProto.Version md /\
                   sProto.NumRecords md1 = sProto.NumRecords md /\
                   sProto.NullValues md1 = sProto.NullValues md).
    { destruct (lastKey w).
      - destruct Hc as (-> & _). eauto.
      - destruct Hc as (md0 & Hm0 & ->). rewrite Hm in Hm0. inv Hm0. eauto. }
    destruct H1 as (md1 & Hm1 & Hv & Hn & Hz).
    destruct o.
    + destruct Hm' as (md2 & Hm2 & ->). rewrite Hm1 in Hm2. inv Hm2.
      eexists. split; [reflexivity|]. simpl. rewrite Hv, Hn, Hz.
      destruct value; repeat split; reflexivity.
    + rewrite Hm', Hm1. exists md1. repeat split; assumption.
    + rewrite Hm', Hm1. exists md1. repeat split; assumption.
Qed.

Lemma written_pairs_nil (calls : list (bytes * bytes)) : written_pairs calls [] = [].
Proof. destruct calls as [|[k v] calls]; reflexivity. Qed.

Lemma wrap64_succ (a : Z) (n : nat) :
  wrap64 (wrap64 (a + 1) + Z.of_nat n) = wrap64 (a + Z.of_nat (S n)).
Proof.
  unfold wrap64. rewrite Zplus_mod_idemp_l. f_equal. lia.
Qed.

Lemma wrap64_uint64 (a : Z) : is_uint64 a -> wrap64 (a + Z.of_nat 0) = a.
Proof.
  unfold wrap64, is_uint64. intros H. rewrite Z.add_0_r. now apply Z.mod_small.
Qed.

Lemma wrap64_is_uint64 (a : Z) : is_uint64 (wrap64 a).
Proof. unfold wrap64, is_uint64. apply Z.mod_pos_bound. lia. Qed.

(** After a run of [WriteNext] calls, [NumRecords] has grown by the number
    of calls that returned nil and [NullValues] by the number of those
    whose value was the nil slice, both in [uint64]; the version is
    untouched. *)
Lemma run_metaData calls :
  forall w st st' w' os md,
    run calls w st = (st', w', os) ->
    metaData w = Some md ->
    is_uint64 (sProto.NumRecords md) ->
    is_uint64 (sProto.NullValues md) ->
    exists md',
      metaData w' = Some md' /\
      sProto.Version md' = sProto.Version md /\
      sProto.NumRecords md'
        = wrap64 (sProto.NumRecords md
                  + Z.of_nat (List.length (written_pairs calls os))) /\
      sProto.NullValues md'
        = wrap64 (sProto.NullValues md + Z.of_nat (nil_values (written_pairs calls os))).
Proof.
  induction calls as [|[k v] calls IH]; intros w st st' w' os md Hrun Hm Hn Hz;
    simpl in Hrun.
  - inv Hrun. exists md. simpl. unfold nil_values. simpl.
    rewrite !wrap64_uint64 by assumption. repeat split; assumption.
  - destruct (WriteNext w k v st) as [[st1 w1] o] eqn:HW.
    destruct (WriteNext_metaData _ _ _ _ _ _ _ _ HW Hm) as (md1 & Hm1 & Hv1 & Hn1 & Hz1).
    destruct (run calls w1 st1) as [[st2 w2] os2] eqn:HR.
    assert (Hn1' : is_uint64 (sProto.NumRecords md1)).
    { rewrite Hn1. destruct o; try assumption. apply wrap64_is_uint64. }
    assert (Hz1' : is_uint64 (sProto.NullValues md1)).
    { rewrite Hz1. destruct o, v; try assumption. apply wrap64_is_uint64. }
    destruct (IH _ _ _ _ _ _ HR Hm1 Hn1' Hz1') as (md2 & Hm2 & Hv2 & Hn2 & Hz2).
    destruct o; inv Hrun.
    + exists md2. split; [assumption|]. split; [congruence|].
      rewrite Hn2, Hz2, Hn1, Hz1. simpl written_pairs. split.
      * simpl List.length. apply wrap64_succ.
      * unfold nil_values. simpl filter. destruct v as [l|]; simpl.
        -- reflexivity.
        -- apply wrap64_succ.
    + exists md2. split; [assumption|]. split; [congruence|].
      rewrite Hn2, Hz2, Hn1, Hz1. simpl. split; reflexivity.
    + exists md1. split; [assumption|]. split; [assumption|].
      rewrite Hn1, Hz1. simpl written_pairs. rewrite written_pairs_nil.
      unfold nil_values. simpl filter. simpl List.length.
      rewrite !wrap64_uint64 by assumption. split; reflexivity.
Qed.

(** One call on an opened writer with a comparator does not panic and
    leaves the writer opened. *)
Lemma WriteNext_opened w key value st st' w' o :
  opened w ->
  keyComparator (opts w) <> None ->
  WriteNext w key value st = (st', w', o) ->
  o <> Panic /\ opened w' /\ keyComparator (opts w') <> None.
Proof.
  intros (Hi & Hd & Hf & Hm & Hb) Hk HW.
  destruct (WriteNext_check w key) as [early|w1] eqn:Hc.
  - destruct (WriteNext_rejected w key value st early Hc) as [Hr _].
    rewrite Hr in HW. inv HW. split; [|split; [repeat split; assumption|assumption]].
    unfold WriteNext_check in Hc. repeat break_match; inv Hc; try discriminate.
    congruence.
  - destruct (WriteNext_passed _ _ _ _ _ _ _ _ Hc HW) as (Ha & _ & Ho' & Hi' & Hd' & Hf').
    destruct (WriteNext_check_passed _ _ _ Hc) as (Ho1 & Hi1 & Hd1 & _ & Hb1 & _ & Hfirst).
    assert (Hm1 : metaData w1 <> None).
    { destruct (lastKey w).
      - destruct Hfirst as (-> & _). assumption.
      - destruct Hfirst as (md & _ & ->). discriminate. }
    assert (Hnp : o <> Panic).
    { clear HW. unfold WriteNext_append in Ha. cbn -[errIn errors_Join] in Ha.
      rewrite Ho1, Hb1 in Ha.
      destruct (enableBloomFilter (opts w)) eqn:Hen;
        [destruct (bloomFilter w) as [bf|]; [|exfalso; now apply Hb]|];
        cbn -[errIn errors_Join] in Ha; rewrite Hd1, Hi1 in Ha;
        (destruct (dataWriter w) as [dw|]; [|congruence]);
        (destruct (indexWriter w) as [iw|]; [|congruence]);
        repeat break_match; clean_options; inv Ha; try discriminate;
        simpl in *; congruence. }
    split; [exact Hnp|].
    pose proof (WriteNext_append_writer _ _ _ _ _ _ _ Ha)
      as (_ & _ & _ & _ & _ & Hbf & _ & Hmeta).
    split; [|congruence].
    unfold opened. rewrite Hi', Hd', Hf', Ho'. repeat split; try assumption.
    + destruct o; [destruct Hmeta as (md2 & _ & ->); discriminate| |]; congruence.
    + intros Hen. rewrite (Hbf Hnp), Ho1, Hen, Hb1.
      destruct (bloomFilter w); [discriminate|]. now apply Hb.
Qed.

(** X1: on a writer on which [Open] succeeded, and which has a comparator
    as every writer of [NewSSTableStreamWriter] has, no [WriteNext] call
    panics, whatever the collaborators return: every call of a run is
    made, the writer keeps its handles, and [Close] does not panic
    either. *)
Theorem run_never_panics calls :
  forall w st st' w' os,
    opened w ->
    keyComparator (opts w) <> None ->
    run calls w st = (st', w', os) ->
    ~ In Panic os /\ List.length os = List.length calls /\ opened w' /\
    forall st'' w'' oc, Close w' st' = (st'', w'', oc) -> oc <> Panic.
Proof.
  induction calls as [|[k v] calls IH]; intros w st st' w' os Ho Hk Hrun; simpl in Hrun.
  - inv Hrun. split; [intros []|]. split; [reflexivity|]. split; [assumption|].
    intros st'' w'' oc HC. destruct Ho as (Hi & Hd & _).
    unfold Close in HC.
    destruct (indexWriter w') as [iw|]; [|congruence].
    destruct (dataWriter w') as [dw|]; [|congruence].
    repeat break_match; inv HC; unfold outcome_of; break_match; discriminate.
  - destruct (WriteNext w k v st) as [[st1 w1] o] eqn:HW.
    destruct (WriteNext_opened _ _ _ _ _ _ _ Ho Hk HW) as (Hnp & Ho1 & Hk1).
    destruct (run calls w1 st1) as [[st2 w2] os2] eqn:HR.
    destruct (IH _ _ _ _ _ Ho1 Hk1 HR) as (Hnp2 & Hlen & Ho2 & HC).
    destruct o; [| |congruence]; inv Hrun; simpl.
    + split; [intros [H|H]; [discriminate|now apply Hnp2]|].
      split; [now rewrite Hlen|]. split; assumption.
    + split; [intros [H|H]; [discriminate|now apply Hnp2]|].
      split; [now rewrite Hlen|]. split; assumption.
Qed.

End Runs.

Section Calls.

Context {E : Env}.

(** X2: When the data append of a call fails, the call returns that error
    wrapped and stops there: the world is the one the data writer left,
    so nothing is appended to the index and no [Seek] is made; the
    counters are as before. *)
Theorem WriteNext_data_failure w key value st w1 dw st1 err :
  WriteNext_check w key = inr w1 ->
  (enableBloomFilter (opts w) = true -> bloomFilter w <> None) ->
  dataWriter w = Some dw ->
  dw_Write dw value st = (st1, Fail err) ->
  exists w',
    WriteNext w key value st =
      (st1, w',
       Err (errIn "error writeNext data writer error" (basePath (opts w)) (Some err))) /\
    option_map sProto.NumRecords (metaData w') = option_map sProto.NumRecords (metaData w) /\
    option_map sProto.NullValues (metaData w') = option_map sProto.NullValues (metaData w).
Proof.
  intros Hc Hbloom Hdw HW.
  destruct (WriteNext_check_passed _ _ _ Hc) as (Ho & Hi & Hd & _ & Hb & _ & Hfirst).
  assert (Hcount : option_map sProto.NumRecords (metaData w1)
                     = option_map sProto.NumRecords (metaData w) /\
                   option_map sProto.NullValues (metaData w1)
                     = option_map sProto.NullValues (metaData w)).
  { destruct (lastKey w).
    - destruct Hfirst as (-> & _). split; reflexivity.
    - destruct Hfirst as (md & -> & ->). split; reflexivity. }
  unfold WriteNext. rewrite Hc. unfold WriteNext_append. cbn -[errIn errors_Join].
  rewrite Ho, Hb.
  destruct (enableBloomFilter (opts w)) eqn:Hen;
    [destruct (bloomFilter w) as [bf|] eqn:Hbf; [|exfalso; now apply Hbloom]|];
    cbn -[errIn errors_Join]; rewrite Hd, Hdw, HW;
    eexists; (split; [reflexivity|exact Hcount]).
Qed.

(** [Close] returns normally on a writer that has both of its writers. *)
Lemma Close_with_writers w st iw dw :
  indexWriter w = Some iw -> dataWriter w = Some dw -> snd (Close w st) <> Panic.
Proof.
  unfold Close. intros -> ->.
  repeat break_match; simpl; unfold outcome_of; break_match; discriminate.
Qed.

(** X3: [Close] panics exactly on a writer without its index or data writer,
    which is every writer that was never opened; when the index writer is
    missing it does so before touching anything, and when only the data
    writer is missing the index writer has been closed by then. *)
Theorem Close_panics_iff_unopened w st st' w' o :
  Close w st = (st', w', o) ->
  (o = Panic <-> indexWriter w = None \/ dataWriter w = None) /\
  (indexWriter w = None -> st' = st /\ w' = w) /\
  (forall iw, indexWriter w = Some iw -> dataWriter w = None ->
              st' = fst (iw_Close iw st) /\ w' = w).
Proof.
  intros H.
  destruct (indexWriter w) as [iw|] eqn:Hi.
  - destruct (dataWriter w) as [dw|] eqn:Hd.
    + split; [|split; [discriminate|intros ? _ X; discriminate X]].
      split; [|intros [?|?]; discriminate].
      intros ->. exfalso.
      apply (Close_with_writers w st iw dw Hi Hd). now rewrite H.
    + unfold Close in H. rewrite Hi, Hd in H.
      destruct (iw_Close iw st) as [st1 iErr] eqn:Hc. inv H.
      split; [split; auto|]. split; [discriminate|].
      intros iw' Hiw _. inv Hiw. rewrite Hc. split; reflexivity.
  - unfold Close in H. rewrite Hi in H. inv H.
    split; [split; auto|]. split; [auto|discriminate].
Qed.

Lemma Err_inj (a b : error) : Err a = Err b -> a = b.
Proof. intros H. congruence. Qed.

Ltac step := first [assumption | reflexivity].

(** X4: An error of [Open] is the wrapped error of the one step that
    failed: the steps before it returned without error, the failing call
    returned the error that is wrapped, under the message of that step, and
    left the world [Open] returns.  A [Close] after a failed [Open] on a
    fresh writer panics exactly when [Open] failed before it had stored the
    data writer: at the creation or the opening of the index writer, or at
    the creation of the data writer.  When [Open] failed later, [Close]
    returns normally. *)
Theorem Close_after_failed_Open w st st1 w1 e :
  indexWriter w = None ->
  dataWriter w = None ->
  Open w st = (st1, w1, Err e) ->
  (snd (Close w1 st1) = Panic /\
   ((exists err,
        rProto_NewWriter (filepath_Join (basePath (opts w)) IndexFileName)
          (indexCompressionType (opts w)) (writeBufferSizeBytes (opts w)) st
          = (st1, Fail err) /\
        e = errIn "error while creating index writer" (basePath (opts w)) (Some err)) \/
    (exists s1 iw err,
        rProto_NewWriter (filepath_Join (basePath (opts w)) IndexFileName)
          (indexCompressionType (opts w)) (writeBufferSizeBytes (opts w)) st
          = (s1, Val iw) /\
        iw_Open iw s1 = (st1, Some err) /\
        e = errIn "error while opening index writer" (basePath (opts w)) (Some err)) \/
    (exists s1 iw s2 err,
        rProto_NewWriter (filepath_Join (basePath (opts w)) IndexFileName)
          (indexCompressionType (opts w)) (writeBufferSizeBytes (opts w)) st
          = (s1, Val iw) /\
        iw_Open iw s1 = (s2, None) /\
        recordio_NewFileWriter (filepath_Join (basePath (opts w)) DataFileName)
          (dataCompressionType (opts w)) (writeBufferSizeBytes (opts w)) s2
          = (st1, Fail err) /\
        e = errIn "error while creating data writer" (basePath (opts w)) (Some err)))) \/
  (snd (Close w1 st1) <> Panic /\
   exists s1 iw s2 s3 dw,
     rProto_NewWriter (filepath_Join (basePath (opts w)) IndexFileName)
       (indexCompressionType (opts w)) (writeBufferSizeBytes (opts w)) st
       = (s1, Val iw) /\
     iw_Open iw s1 = (s2, None) /\
     recordio_NewFileWriter (filepath_Join (basePath (opts w)) DataFileName)
       (dataCompressionType (opts w)) (writeBufferSizeBytes (opts w)) s2
       = (s3, Val dw) /\
     ((exists err,
          dw_Open dw s3 = (st1, Some err) /\
          e = errIn "error while opening data writer" (basePath (opts w)) (Some err)) \/
      (exists s4 err,
          dw_Open dw s3 = (s4, None) /\
          os_OpenFile (filepath_Join (basePath (opts w)) MetaFileName) s4
            = (st1, Fail err) /\
          e = errIn "error while opening metadata file" (basePath (opts w)) (Some err)) \/
      (exists s4 f err,
          dw_Open dw s3 = (s4, None) /\
          os_OpenFile (filepath_Join (basePath (opts w)) MetaFileName) s4
            = (st1, Val f) /\
          enableBloomFilter (opts w) = true /\
          bloomfilter_NewOptimal (bloomExpectedNumberOfElements (opts w))
            (bloomFpProbability (opts w)) = Fail err /\
          e = errIn "error while creating bloomfilter" (basePath (opts w)) (Some err)))).
Proof.
  intros Hi Hd H.
  assert (Hs : st1 = fst (fst (Open w st))) by now rewrite H.
  assert (Hw : w1 = snd (fst (Open w st))) by now rewrite H.
  assert (He : snd (Open w st) = Err e) by now rewrite H.
  clear H. revert Hs Hw He. unfold Open. cbn -[errIn].
  destruct (rProto_NewWriter _ _ _ st) as [s1 [iw|err]] eqn:H1; cbn -[errIn].
  2: { intros -> -> He. apply Err_inj in He. subst e. left. split.
       - unfold Close. cbn. rewrite Hi. reflexivity.
       - left. exists err. split; [step|step]. }
  destruct (iw_Open iw s1) as [s2 [err|]] eqn:H2; cbn -[errIn].
  { intros -> -> He. apply Err_inj in He. subst e. left. split.
    - unfold Close. cbn. destruct (iw_Close iw s2). rewrite Hd. reflexivity.
    - right. left. exists s1, iw, err. split; [step|]. split; [step|step]. }
  destruct (recordio_NewFileWriter _ _ _ s2) as [s3 [dw|err]] eqn:H3; cbn -[errIn].
  2: { intros -> -> He. apply Err_inj in He. subst e. left. split.
       - unfold Close. cbn. destruct (iw_Close iw s3). rewrite Hd. reflexivity.
       - right. right. exists s1, iw, s2, err.
         split; [step|]. split; [step|]. split; [step|step]. }
  destruct (dw_Open dw s3) as [s4 [err|]] eqn:H4; cbn -[errIn].
  { intros -> -> He. apply Err_inj in He. subst e. right. split.
    - apply (Close_with_writers _ _ iw dw); reflexivity.
    - exists s1, iw, s2, s3, dw.
      split; [step|]. split; [step|]. split; [step|].
      left. exists err. split; [step|step]. }
  destruct (os_OpenFile _ s4) as [s5 [f|err]] eqn:H5; cbn -[errIn].
  2: { intros -> -> He. apply Err_inj in He. subst e. right. split.
       - apply (Close_with_writers _ _ iw dw); reflexivity.
       - exists s1, iw, s2, s3, dw.
         split; [step|]. split; [step|]. split; [step|].
         right. left. exists s4, err.
         split; [step|]. split; [step|step]. }
  destruct (enableBloomFilter (opts w)) eqn:Hb; cbn -[errIn];
    [|intros _ _ He; discriminate He].
  destruct (bloomfilter_NewOptimal _ _) as [bf|err] eqn:H6; cbn -[errIn];
    [intros _ _ He; discriminate He|].
  intros -> -> He. apply Err_inj in He. subst e. right. split.
  - apply (Close_with_writers _ _ iw dw); reflexivity.
  - exists s1, iw, s2, s3, dw.
    split; [step|]. split; [step|]. split; [step|].
    right. right. exists s4, f, err.
    split; [step|]. split; [step|]. split; [step|].
    split; [step|step].
Qed.

(** X5: The bloom filter after a run holds, in call order, the hash of every
    key that passed the ordering check; these include all the keys that
    were written. *)
Theorem run_bloom_history calls :
  forall w st st' w' os,
    run calls w st = (st', w', os) ->
    ~ In Panic os ->
    bloomFilter w' =
      (if enableBloomFilter (opts w)
       then option_map
              (fun bf =>
                 fold_left (fun bf k => bf_Add bf (fnv.New64 (elems k)))
                   (accepted calls w st) bf)
              (bloomFilter w)
       else bloomFilter w) /\
    incl (written calls os) (accepted calls w st).
Proof.
  induction calls as [|[k v] calls IH]; intros w st st' w' os Hrun Hnp; simpl in Hrun.
  - inv Hrun. simpl. split; [|intros x []].
    destruct (enableBloomFilter (opts w')); [|reflexivity].
    now destruct (bloomFilter w').
  - simpl accepted. destruct (WriteNext w k v st) as [[st1 w1] o] eqn:HW.
    destruct (run calls w1 st1) as [[st2 w2] os2] eqn:HR.
    assert (Ho : o <> Panic /\ (st2, w2, o :: os2) = (st', w', os)).
    { destruct o; [split; [discriminate|exact Hrun]|split; [discriminate|exact Hrun]|].
      inv Hrun. exfalso. apply Hnp. now left. }
    destruct Ho as [Ho Heq]. inv Heq.
    assert (Hnp2 : ~ In Panic os2) by (intros Hin; apply Hnp; now right).
    destruct (IH _ _ _ _ _ HR Hnp2) as [IHb IHi].
    destruct (WriteNext_handles _ _ _ _ _ _ _ HW) as (Hopts & _).
    destruct (WriteNext_check w k) as [early|wc] eqn:Hc.
    + destruct (WriteNext_rejected w k v st early Hc) as [Hr Hne].
      rewrite Hr in HW. inv HW.
      assert (Hgoal :
        bloomFilter w' =
          (if enableBloomFilter (opts w1)
           then option_map
                  (fun bf =>
                     fold_left (fun bf k => bf_Add bf (fnv.New64 (elems k)))
                       (accepted calls w1 st1) bf)
                  (bloomFilter w1)
           else bloomFilter w1) /\
        incl (written ((k, v) :: calls) (o :: os2)) (accepted calls w1 st1)).
      { split; [exact IHb|]. destruct o; [congruence| |congruence]. exact IHi. }
      destruct o; [congruence| |congruence]. exact Hgoal.
    + destruct (WriteNext_passed _ _ _ _ _ _ _ _ Hc HW) as (Ha & _).
      destruct (WriteNext_check_passed _ _ _ Hc) as (Ho1 & _ & _ & _ & Hb1 & _).
      apply WriteNext_append_writer in Ha.
      destruct Ha as (_ & _ & _ & _ & _ & Hbf & _).
      specialize (Hbf Ho). rewrite Ho1, Hb1 in Hbf.
      assert (Hgoal :
        bloomFilter w' =
          (if enableBloomFilter (opts w)
           then option_map
                  (fun bf =>
                     fold_left (fun bf k => bf_Add bf (fnv.New64 (elems k)))
                       (k :: accepted calls w1 st1) bf)
                  (bloomFilter w)
           else bloomFilter w) /\
        incl (written ((k, v) :: calls) (o :: os2)) (k :: accepted calls w1 st1)).
      { split.
        - rewrite IHb, Hopts, Hbf.
          destruct (enableBloomFilter (opts w)); [|reflexivity].
          now destruct (bloomFilter w).
        - destruct o; [| |congruence]; simpl.
          + intros x [<-|Hx]; [now left|right; now apply IHi].
          + intros x Hx. right. now apply IHi. }
      destruct o; [exact Hgoal|exact Hgoal|congruence].
Qed.

(** A writer on which [Open] returned nil. *)
Lemma Open_ok_writer w st st' w' :
  Open w st = (st', w', Ok) ->
  opened w' /\
  metaData w' = Some (sProto.mkMetaData sstables_Version 0 0 None None 0 0 0) /\
  lastKey w' = lastKey w /\ opts w' = opts w.
Proof.
  intros H. unfold Open in H. cbn -[errIn] in H.
  repeat break_match; clean_options; inv H; unfold opened; simpl;
    repeat split; try discriminate; try congruence.
Qed.

(** The metadata [Close] leaves in a writer with its handles. *)
Lemma Close_metaData w st iw dw f md :
  indexWriter w = Some iw ->
  dataWriter w = Some dw ->
  metaDataFile w = Some f ->
  metaData w = Some md ->
  metaData (snd (fst (Close w st)))
    = Some (final_metadata w md iw dw
              (fst (bloom_step w (fst (dw_Close dw (fst (iw_Close iw st))))))).
Proof.
  intros Hi Hd Hf Hm. unfold Close, bloom_step, final_metadata.
  rewrite Hi, Hd, Hm, Hf.
  destruct (iw_Close iw st) as [st1 iErr]. simpl fst.
  destruct (dw_Close dw st1) as [st2 dErr]. simpl fst.
  destruct (enableBloomFilter (opts w)); [destruct (bloomFilter w) as [bf|]|];
    try destruct (bf_WriteFile bf _ st2) as [st3 [bErr|]]; simpl fst;
    repeat break_match; reflexivity.
Qed.

(** X6: The metadata of a table written by [Open], a run of [WriteNext] calls
    and [Close]: it carries the version of the package, [NumRecords] is the
    number of calls that returned nil and [NullValues] the number of those
    with a nil value (in [uint64]), the sizes are those the two writers
    report once they are closed and the bloom file is written, and
    [TotalBytes] is their sum in [uint64].  This metadata is the argument
    of [proto.Marshal] in [Close], and the bytes [proto.Marshal] returns
    for it are what [Close] writes to the meta file, after the two writers
    are closed and the bloom file is written and before the meta file is
    closed; nothing is written when [proto.Marshal] fails.  It is also the
    metadata [Close] leaves in the writer. *)
Theorem table_metadata calls w st st0 w0 st1 w1 os :
  Open w st = (st0, w0, Ok) ->
  run calls w0 st0 = (st1, w1, os) ->
  exists iw dw f md,
    indexWriter w1 = Some iw /\ dataWriter w1 = Some dw /\ metaDataFile w1 = Some f /\
    metaData (snd (fst (Close w1 st1))) = Some md /\
    fst (fst (Close w1 st1))
      = fst (file_Close f (fst (meta_step md f (closed_world w1 iw dw st1)))) /\
    (forall bytes,
        proto_Marshal md = Val bytes ->
        fst (fst (Close w1 st1))
          = fst (file_Close f (fst (file_Write f bytes (closed_world w1 iw dw st1))))) /\
    (forall mErr,
        proto_Marshal md = Fail mErr ->
        fst (fst (Close w1 st1)) = fst (file_Close f (closed_world w1 iw dw st1))) /\
    sProto.Version md = sstables_Version /\
    sProto.NumRecords md = wrap64 (Z.of_nat (List.length (written_pairs calls os))) /\
    sProto.NullValues md = wrap64 (Z.of_nat (nil_values (written_pairs calls os))) /\
    sProto.DataBytes md
      = dw_Size dw (fst (bloom_step w1 (fst (dw_Close dw (fst (iw_Close iw st1)))))) /\
    sProto.IndexBytes md
      = iw_Size iw (fst (bloom_step w1 (fst (dw_Close dw (fst (iw_Close iw st1)))))) /\
    sProto.TotalBytes md = wrap64 (sProto.DataBytes md + sProto.IndexBytes md).
Proof.
  intros HO Hrun.
  destruct (Open_ok_writer _ _ _ _ HO) as ((Hi & Hd & Hf & _) & Hm & _).
  destruct (run_handles _ _ _ _ _ _ Hrun) as (_ & Hi1 & Hd1 & Hf1).
  destruct (run_metaData _ _ _ _ _ _ _ Hrun Hm) as (md1 & Hm1 & Hv & Hn & Hz);
    [unfold is_uint64; simpl; lia|unfold is_uint64; simpl; lia|].
  simpl in Hv, Hn, Hz.
  destruct (indexWriter w1) as [iw|] eqn:Hiw; [|congruence].
  destruct (dataWriter w1) as [dw|] eqn:Hdw; [|congruence].
  destruct (metaDataFile w1) as [f|] eqn:Hfw; [|congruence].
  pose proof (Close_serializes w1 st1 iw dw f md1 Hiw Hdw Hfw Hm1) as HC.
  exists iw, dw, f, (final_metadata w1 md1 iw dw (closed_world w1 iw dw st1)).
  split; [reflexivity|]. split; [reflexivity|]. split; [reflexivity|].
  split; [rewrite HC; reflexivity|].
  split; [rewrite HC; reflexivity|].
  split; [intros bytes Hb; rewrite HC; cbn [fst]; unfold meta_step; rewrite Hb; reflexivity|].
  split; [intros mErr Hb; rewrite HC; cbn [fst]; unfold meta_step; rewrite Hb; reflexivity|].
  unfold final_metadata, closed_world. simpl. repeat split; assumption.
Qed.

End Calls.

Section Acceptance.

Context {E : Env}.

(** A call on an opened writer whose key is above the last key, and whose
    two appends succeed, returns nil. *)
Lemma WriteNext_accepts w key value st dw iw st1 recordOffset st2 indexOffset :
  opened w ->
  (forall l, lastKey w = Some l ->
             exists cmp, keyComparator (opts w) = Some cmp /\ cmp (Some l) key < 0) ->
  dataWriter w = Some dw ->
  indexWriter w = Some iw ->
  dw_Write dw value st = (st1, Val recordOffset) ->
  iw_Write iw (sProto.mkIndexEntry key recordOffset (crc64.Sum64_ISO (elems value))) st1
    = (st2, Val indexOffset) ->
  exists w', WriteNext w key value st = (st2, w', Ok) /\ lastKey w' = Some (elems key).
Proof.
  intros (Hi & Hd & Hf & Hm & Hb) Hlast Hdw Hiw HW HI.
  assert (Hc : exists w1, WriteNext_check w key = inr w1).
  { unfold WriteNext_check. destruct (lastKey w) as [l|] eqn:Hl; cbn [is_nil negb].
    - destruct (Hlast l eq_refl) as (cmp & Hk & Hlt). rewrite Hk.
      destruct (Z.eqb_spec (cmp (Some l) key) 0) as [H0|_]; [lia|].
      rewrite Z.gtb_ltb.
      destruct (Z.ltb_spec 0 (cmp (Some l) key)) as [H1|_]; [lia|].
      destruct (negb _); eauto.
    - destruct (metaData w); [eauto|congruence]. }
  destruct Hc as [w1 Hc].
  destruct (WriteNext_check_passed _ _ _ Hc) as (Ho1 & Hi1 & Hd1 & _ & Hb1 & _ & Hfirst).
  assert (Hm1 : exists md1, metaData w1 = Some md1).
  { destruct (lastKey w).
    - destruct Hfirst as (-> & _). destruct (metaData w); [eauto|congruence].
    - destruct Hfirst as (md & _ & ->). eauto. }
  destruct Hm1 as [md1 Hm1].
  assert (Hcall : exists w', WriteNext w key value st = (st2, w', Ok)).
  { unfold WriteNext. rewrite Hc. unfold WriteNext_append. cbn -[errIn errors_Join].
    rewrite Ho1, Hb1.
    destruct (enableBloomFilter (opts w)) eqn:Hen;
      [destruct (bloomFilter w) as [bf|] eqn:Hbf; [|exfalso; now apply Hb]|];
      cbn -[errIn errors_Join]; rewrite Hd1, Hdw, HW, Hi1, Hiw, HI, Hm1;
      eexists; reflexivity. }
  destruct Hcall as [w' Hcall]. exists w'. split; [exact Hcall|].
  now destruct (WriteNext_passed _ _ _ _ _ _ _ _ Hc Hcall) as (_ & Hl & _).
Qed.

(** X7: On an opened writer [WriteNext] returns nil exactly when the key is
    above the last key (for the comparator of the writer; any key will do
    on the first call) and both appends succeed: that of the value to the
    data file and that of the entry (key, offset of the record, CRC-64/ISO
    of the value) to the index.  No [Seek] is made then, and the world is
    the one the index append left. *)
Theorem WriteNext_succeeds_iff w key value st st' :
  opened w ->
  ((exists w', WriteNext w key value st = (st', w', Ok)) <->
   (forall l, lastKey w = Some l ->
              exists cmp, keyComparator (opts w) = Some cmp /\ cmp (Some l) key < 0) /\
   exists dw iw st1 recordOffset indexOffset,
     dataWriter w = Some dw /\ indexWriter w = Some iw /\
     dw_Write dw value st = (st1, Val recordOffset) /\
     iw_Write iw (sProto.mkIndexEntry key recordOffset (crc64.Sum64_ISO (elems value))) st1
       = (st', Val indexOffset)).
Proof.
  intros Ho. split.
  - intros [w' HW].
    destruct (WriteNext_check w key) as [early|w1] eqn:Hc.
    + destruct (WriteNext_rejected w key value st early Hc) as [Hr Hne].
      rewrite Hr in HW. inv HW. congruence.
    + destruct (WriteNext_passed _ _ _ _ _ _ _ _ Hc HW) as (Ha & _).
      destruct (WriteNext_check_passed _ _ _ Hc) as (_ & Hi1 & Hd1 & _ & _ & _ & Hfirst).
      split.
      * intros l Hl. rewrite Hl in Hfirst. now destruct Hfirst as (_ & Hcmp).
      * unfold WriteNext_append in Ha. cbn -[errIn errors_Join] in Ha.
        repeat break_match; clean_options; inv Ha; simpl in *;
          rewrite <- Hd1, <- Hi1; do 5 eexists; repeat split; eauto.
  - intros (Hlast & dw & iw & st1 & off & ioff & Hdw & Hiw & HW & HI).
    destruct (WriteNext_accepts _ _ _ _ _ _ _ _ _ _ Ho Hlast Hdw Hiw HW HI) as (w' & Hcall & _).
    eauto.
Qed.

End Acceptance.

Section Construction.

Context {E : Env}.

Lemma apply_options_calls cs :
  forall o,
    basePath (apply_options (map option_of cs) o) = last_basePath cs (basePath o) /\
    writeBufferSizeBytes (apply_options (map option_of cs) o)
      = last_bufferSize cs (writeBufferSizeBytes o) /\
    bloomExpectedNumberOfElements (apply_options (map option_of cs) o)
      = last_bloomCount cs (bloomExpectedNumberOfElements o) /\
    (enableBloomFilter o = true ->
     enableBloomFilter (apply_options (map option_of cs) o) = true) /\
    (keyComparator (apply_options (map option_of cs) o) = None <->
     keyComparator o = None /\ has_comparator cs = false).
Proof.
  unfold apply_options.
  induction cs as [|c cs IH]; intros o; simpl.
  - repeat split; auto. now intros [? _].
  - destruct (IH (option_of c o)) as (Hb & Hw & Hn & He & Hk).
    rewrite Hb, Hw, Hn.
    destruct c; simpl in *; repeat split; auto; try tauto;
      try match goal with
          | H : keyComparator _ = None |- _ =>
              apply Hk in H; destruct H as [H0 _]; discriminate H0
          end;
      try (intros [_ H]; discriminate H).
Qed.


(** X9: With the options of this file the bloom filter cannot be turned off:
    whatever the calls, the writer has it enabled, and [Open] on it returns
    nil only with a filter allocated. *)
Theorem bloom_filter_always_enabled (cs : list OptionCall) w st st' w' :
  NewSSTableStreamWriter (map option_of cs) = Val w ->
  enableBloomFilter (opts w) = true /\
  (Open w st = (st', w', Ok) -> bloomFilter w' <> None).
Proof.
  intros Hnew.
  assert (Hen : enableBloomFilter (opts w) = true).
  { unfold NewSSTableStreamWriter in Hnew.
    destruct (apply_options_calls cs default_options) as (_ & _ & _ & He & _).
    repeat break_match; inv Hnew. simpl. apply He. reflexivity. }
  split; [exact Hen|].
  intros HO. destruct (Open_ok_writer _ _ _ _ HO) as ((_ & _ & _ & _ & Hb) & _ & _ & Ho).
  apply Hb. now rewrite Ho.
Qed.

End Construction.

Section SimpleWriter.

Context {E : Env}.

(** The loop of [WriteSkipListMap] over pairs that are all written. *)
Lemma WriteSkipListMap_loop_all_ok M after :
  forall w st st' w' os,
    run M w st = (st', w', os) ->
    Forall (eq Ok) os ->
    WriteSkipListMap_loop M after w st =
      (st', w',
       match after with
       | None => Ok
       | Some err =>
           Err (errIn "error in getting next skiplist record" (basePath (opts w)) (Some err))
       end).
Proof.
  induction M as [|[k v] M IH]; intros w st st' w' os Hrun Hall; simpl in Hrun.
  - inv Hrun. simpl. destruct after; reflexivity.
  - cbn -[errIn]. destruct (WriteNext w k v st) as [[st1 w1] o] eqn:HW.
    destruct (run M w1 st1) as [[st2 w2] os2] eqn:HR.
    destruct o; inv Hrun; inversion Hall as [|? ? Ho Hall']; subst; try discriminate.
    rewrite (IH _ _ _ _ _ HR Hall').
    destruct (WriteNext_handles _ _ _ _ _ _ _ HW) as (-> & _). reflexivity.
Qed.

(** The other direction: when the loop returns nil every call did. *)
Lemma WriteSkipListMap_loop_ok M after :
  forall w st st' w',
    WriteSkipListMap_loop M after w st = (st', w', Ok) ->
    after = None /\ exists os, run M w st = (st', w', os) /\ Forall (eq Ok) os.
Proof.
  induction M as [|[k v] M IH]; intros w st st' w' H.
  - simpl in H. destruct after; inv H. split; [reflexivity|].
    exists []. split; [reflexivity|constructor].
  - cbn -[errIn] in H. simpl run.
    destruct (WriteNext w k v st) as [[st1 w1] o] eqn:HW.
    destruct o; try discriminate.
    destruct (IH _ _ _ _ H) as (Ha & os & Hrun & Hall).
    split; [exact Ha|]. rewrite Hrun. exists (Ok :: os). split; [reflexivity|].
    now constructor.
Qed.

(** X10: [WriteSkipListMap] returns nil exactly when [Open] returns nil, every
    pair of the map is written by a [WriteNext] call that returns nil, the
    iterator ends with [Done] and [Close] returns nil. *)
Theorem WriteSkipListMap_succeeds_iff sw M st st' sw' :
  WriteSkipListMap sw M st = (st', sw', Ok) <->
  exists st0 w0 st1 w1 os,
    Open (streamWriter sw) st = (st0, w0, Ok) /\
    run (pairs M) w0 st0 = (st1, w1, os) /\ Forall (eq Ok) os /\
    after M = None /\
    Close w1 st1 = (st', streamWriter sw', Ok).
Proof.
  unfold WriteSkipListMap. split.
  - intros H. destruct (Open (streamWriter sw) st) as [[st0 w0] o0] eqn:HO.
    destruct o0; try (inv H; fail).
    destruct (WriteSkipListMap_loop (pairs M) (after M) w0 st0) as [[st1 w1] body] eqn:HL.
    destruct (Close w1 st1) as [[st2 w2] closed] eqn:HC.
    inversion H as [[H1 H2 H3]]. subst st' sw'.
    destruct body, closed; simpl in H3; try discriminate.
    destruct (WriteSkipListMap_loop_ok _ _ _ _ _ _ HL) as (Ha & os & Hrun & Hall).
    exists st0, w0, st1, w1, os. simpl. repeat split; assumption.
  - intros (st0 & w0 & st1 & w1 & os & HO & Hrun & Hall & Ha & HC).
    rewrite HO, (WriteSkipListMap_loop_all_ok _ _ _ _ _ _ _ Hrun Hall), Ha, HC.
    destruct sw'. reflexivity.
Qed.

(** X11: [WriteSkipListMap] stops at the first pair [WriteNext] refuses: the
    pairs after it are not written nor looked at, the writer is closed,
    and the error returned joins that error, wrapped, with the error of
    [Close]. *)
Theorem WriteSkipListMap_stops_at_first_failure
  sw M st st0 w0 before k v rest st1 w1 os st2 w2 err :
  Open (streamWriter sw) st = (st0, w0, Ok) ->
  pairs M = before ++ (k, v) :: rest ->
  run before w0 st0 = (st1, w1, os) ->
  Forall (eq Ok) os ->
  WriteNext w1 k v st1 = (st2, w2, Err err) ->
  WriteSkipListMap sw M st =
    (fst (fst (Close w2 st2)), mkSimpleWriter (snd (fst (Close w2 st2))),
     deferred_join
       (Err (errIn "error in writing skiplist record" (basePath (opts w0)) (Some err)))
       (snd (Close w2 st2))).
Proof.
  intros HO Hp Hrun Hall HW. unfold WriteSkipListMap. rewrite HO, Hp.
  assert (Hloop : forall before w st st1 w1 os,
    run before w st = (st1, w1, os) -> Forall (eq Ok) os ->
    WriteNext w1 k v st1 = (st2, w2, Err err) ->
    WriteSkipListMap_loop (before ++ (k, v) :: rest) (after M) w st =
      (st2, w2,
       Err (errIn "error in writing skiplist record" (basePath (opts w)) (Some err)))).
  { clear. induction before as [|[k' v'] before IH];
      intros w st st1 w1 os Hrun Hall HW; simpl in Hrun.
    - inv Hrun. cbn -[errIn]. rewrite HW. reflexivity.
    - cbn -[errIn]. destruct (WriteNext w k' v' st) as [[sta wa] o] eqn:HWa.
      destruct (run before wa sta) as [[stb wb] osb] eqn:HR.
      destruct o; inv Hrun; inversion Hall as [|? ? Ho Hall']; subst; try discriminate.
      rewrite (IH _ _ _ _ _ HR Hall' HW).
      destruct (WriteNext_handles _ _ _ _ _ _ _ HWa) as (-> & _). reflexivity. }
  rewrite (Hloop _ _ _ _ _ _ Hrun Hall HW).
  destruct (Close w2 st2) as [[st3 w3] oc]. reflexivity.
Qed.

(** X12: When the iterator of the map fails after some pairs, these pairs have
    been written and stay in the table: the writer is closed as on success,
    and the error returned joins the iterator's error, wrapped, with the
    error of [Close]. *)
Theorem WriteSkipListMap_iterator_failure sw M st st0 w0 st1 w1 os err :
  Open (streamWriter sw) st = (st0, w0, Ok) ->
  run (pairs M) w0 st0 = (st1, w1, os) ->
  Forall (eq Ok) os ->
  after M = Some err ->
  WriteSkipListMap sw M st =
    (fst (fst (Close w1 st1)), mkSimpleWriter (snd (fst (Close w1 st1))),
     deferred_join
       (Err (errIn "error in getting next skiplist record" (basePath (opts w0)) (Some err)))
       (snd (Close w1 st1))).
Proof.
  intros HO Hrun Hall Ha. unfold WriteSkipListMap.
  rewrite HO, (WriteSkipListMap_loop_all_ok _ _ _ _ _ _ _ Hrun Hall), Ha.
  destruct (Close w1 st1) as [[st2 w2] oc]. reflexivity.
Qed.

(** X13: An empty map gives an empty table: [WriteSkipListMap] opens and closes
    the writer without a [WriteNext] call and returns what [Close] returns,
    through the deferred join.  The metadata that [Close] hands to
    [proto.Marshal], whose bytes it writes to the meta file (nothing when
    [proto.Marshal] fails), has the version of the package, no record, no
    null value and neither a smallest nor a largest key. *)
Theorem WriteSkipListMap_empty_map writerOptions sw M st st0 w0 :
  NewSSTableSimpleWriter writerOptions = Val sw ->
  pairs M = [] ->
  after M = None ->
  Open (streamWriter sw) st = (st0, w0, Ok) ->
  WriteSkipListMap sw M st =
    (fst (fst (Close w0 st0)), mkSimpleWriter (snd (fst (Close w0 st0))),
     deferred_join Ok (snd (Close w0 st0))) /\
  exists iw dw f md,
    indexWriter w0 = Some iw /\ dataWriter w0 = Some dw /\ metaDataFile w0 = Some f /\
    metaData (snd (fst (Close w0 st0))) = Some md /\
    fst (fst (WriteSkipListMap sw M st))
      = fst (file_Close f (fst (meta_step md f (closed_world w0 iw dw st0)))) /\
    (forall bytes,
        proto_Marshal md = Val bytes ->
        fst (fst (WriteSkipListMap sw M st))
          = fst (file_Close f (fst (file_Write f bytes (closed_world w0 iw dw st0))))) /\
    (forall mErr,
        proto_Marshal md = Fail mErr ->
        fst (fst (WriteSkipListMap sw M st)) = fst (file_Close f (closed_world w0 iw dw st0))) /\
    sProto.Version md = sstables_Version /\
    sProto.NumRecords md = 0 /\ sProto.NullValues md = 0 /\
    sProto.MinKey md = None /\ sProto.MaxKey md = None.
Proof.
  intros Hnew Hp Ha HO.
  assert (Hl : lastKey (streamWriter sw) = None).
  { unfold NewSSTableSimpleWriter in Hnew.
    destruct (NewSSTableStreamWriter (writerOptions ++ [WriteBufferSizeBytes 4096]))
      as [w|e] eqn:Hs; inv Hnew.
    unfold NewSSTableStreamWriter in Hs. repeat break_match; inv Hs. reflexivity. }
  destruct (Open_ok_writer _ _ _ _ HO) as ((Hi & Hd & Hf & _) & Hm & Hl0 & _).
  assert (HW : WriteSkipListMap sw M st =
                 (fst (fst (Close w0 st0)), mkSimpleWriter (snd (fst (Close w0 st0))),
                  deferred_join Ok (snd (Close w0 st0)))).
  { unfold WriteSkipListMap. rewrite HO, Hp, Ha. simpl.
    destruct (Close w0 st0) as [[st1 w1] oc]. reflexivity. }
  split; [exact HW|]. rewrite HW. cbn [fst].
  destruct (indexWriter w0) as [iw|] eqn:Hiw; [|congruence].
  destruct (dataWriter w0) as [dw|] eqn:Hdw; [|congruence].
  destruct (metaDataFile w0) as [f|] eqn:Hfw; [|congruence].
  pose proof (Close_serializes w0 st0 iw dw f _ Hiw Hdw Hfw Hm) as HC.
  exists iw, dw, f.
  eexists.
  split; [reflexivity|]. split; [reflexivity|]. split; [reflexivity|].
  split; [rewrite HC; reflexivity|].
  split; [rewrite HC; reflexivity|].
  split; [intros bytes Hb; rewrite HC; cbn [fst]; unfold meta_step; rewrite Hb; reflexivity|].
  split; [intros mErr Hb; rewrite HC; cbn [fst]; unfold meta_step; rewrite Hb; reflexivity|].
  unfold final_metadata. simpl. rewrite Hl0, Hl. repeat split.
Qed.

End SimpleWriter.

Section InputOutput.

Context {E : Env}.

(** The calls a [WriteNext] call that does not panic makes on the two
    writers: none; a data append that fails; a data append, an index append
    that fails and a [Seek]; or a data append and an index append. *)
Lemma WriteNext_io_cases w key value st st' w' o :
  WriteNext w key value st = (st', w', o) ->
  o <> Panic ->
  (o <> Ok /\ st' = st) \/
  (o <> Ok /\ exists dw st1 e,
      dataWriter w = Some dw /\ dw_Write dw value st = (st1, Fail e) /\ st' = st1) \/
  (o <> Ok /\ exists dw iw st1 recordOffset st2 e,
      dataWriter w = Some dw /\ indexWriter w = Some iw /\
      dw_Write dw value st = (st1, Val recordOffset) /\
      iw_Write iw (sProto.mkIndexEntry key recordOffset (crc64.Sum64_ISO (elems value))) st1
        = (st2, Fail e) /\
      st' = fst (dw_Seek dw (dw_Size dw st) st2)) \/
  (o = Ok /\ exists dw iw st1 recordOffset indexOffset,
      dataWriter w = Some dw /\ indexWriter w = Some iw /\
      dw_Write dw value st = (st1, Val recordOffset) /\
      iw_Write iw (sProto.mkIndexEntry key recordOffset (crc64.Sum64_ISO (elems value))) st1
        = (st', Val indexOffset)).
Proof.
  intros HW Hnp.
  destruct (WriteNext_check w key) as [early|w1] eqn:Hc.
  - destruct (WriteNext_rejected w key value st early Hc) as [Hr Hne].
    rewrite Hr in HW. inv HW. left. split; [assumption|reflexivity].
  - right.
    destruct (WriteNext_passed _ _ _ _ _ _ _ _ Hc HW) as (Ha & _).
    destruct (WriteNext_check_passed _ _ _ Hc) as (_ & Hi1 & Hd1 & _).
    unfold WriteNext_append in Ha. cbn -[errIn errors_Join] in Ha.
    repeat break_match; clean_options; inv Ha; simpl in *; try congruence;
      rewrite <- ?Hd1, <- ?Hi1;
      first
        [ left; split; [discriminate|]; do 3 eexists; repeat split; eauto; fail
        | right; left; split; [discriminate|]; do 6 eexists;
          repeat split; eauto;
          match goal with X : dw_Seek _ _ _ = _ |- _ => rewrite X end; reflexivity
        | right; right; split; [reflexivity|]; do 5 eexists; repeat split; eauto ].
Qed.

End InputOutput.

(** ** The files of the disk stay in step *)

Lemma filter_below_last {P} (records : list (Z * P)) (size : Z) (p : P) :
  Forall (fun r => fst r < size) records ->
  filter (fun r => fst r <? size) (records ++ [(size, p)]) = records.
Proof.
  intros H. rewrite filter_app. simpl. rewrite Z.ltb_irrefl, app_nil_r.
  induction H as [|r records Hr H IH]; simpl; [reflexivity|].
  destruct (Z.ltb_spec (fst r) size); [now rewrite IH|lia].
Qed.

(** What the calls of the two writers do to the files of the disk. *)
Lemma Sim_data_Write_ok v (d d1 : Sim.Disk) off :
  Sim.data_Write v d = (d1, Val off) ->
  off = Sim.rio_size (Sim.data d) /\
  Sim.data d1 =
    Sim.mkRio (Sim.rio_path (Sim.data d)) Sim.IsOpen
      (Sim.rio_size (Sim.data d) + Sim.framed (len v))
      (Sim.rio_records (Sim.data d) ++ [(Sim.rio_size (Sim.data d), v)]) /\
  Sim.index d1 = Sim.index d /\ Sim.faults d1 = Sim.faults d.
Proof.
  unfold Sim.data_Write, Sim.rio_write. intros H.
  destruct (Sim.fails d Sim.DataWrite); [inv H|].
  destruct (Sim.rio_handle (Sim.data d)); inv H. repeat split.
Qed.

Lemma Sim_data_Write_fail v (d d1 : Sim.Disk) e :
  Sim.data_Write v d = (d1, Fail e) ->
  Sim.data d1 = Sim.data d /\ Sim.index d1 = Sim.index d /\ Sim.faults d1 = Sim.faults d.
Proof.
  unfold Sim.data_Write, Sim.rio_write. intros H.
  destruct (Sim.fails d Sim.DataWrite); [inv H; repeat split|].
  destruct (Sim.rio_handle (Sim.data d)); inv H; repeat split.
Qed.

Lemma Sim_index_Write_ok entry (d d2 : Sim.Disk) ioff :
  Sim.index_Write entry d = (d2, Val ioff) ->
  Sim.rio_records (Sim.index d2) = Sim.rio_records (Sim.index d) ++ [(ioff, entry)] /\
  Sim.data d2 = Sim.data d /\ Sim.faults d2 = Sim.faults d.
Proof.
  unfold Sim.index_Write, Sim.rio_write. intros H.
  destruct (Sim.fails d Sim.IndexWrite); [inv H|].
  destruct (Sim.rio_handle (Sim.index d)); inv H. repeat split.
Qed.

Lemma Sim_index_Write_fail entry (d d2 : Sim.Disk) e :
  Sim.index_Write entry d = (d2, Fail e) ->
  Sim.index d2 = Sim.index d /\ Sim.data d2 = Sim.data d /\ Sim.faults d2 = Sim.faults d.
Proof.
  unfold Sim.index_Write, Sim.rio_write. intros H.
  destruct (Sim.fails d Sim.IndexWrite); [inv H; repeat split|].
  destruct (Sim.rio_handle (Sim.index d)); inv H; repeat split.
Qed.

Lemma Sim_seek_never_fails (d : Sim.Disk) :
  Sim.seek_works d -> Sim.fails d Sim.DataSeek = false.
Proof.
  intros Hseek. unfold Sim.fails. apply not_true_is_false. intros Hf.
  apply existsb_exists in Hf. destruct Hf as ([op n] & Hin & Hf).
  apply andb_true_iff in Hf. destruct Hf as [Hop _]. simpl in Hop.
  destruct op; try discriminate Hop. exact (Hseek n Hin).
Qed.

Lemma Sim_data_Seek_open off (d : Sim.Disk) :
  Sim.seek_works d ->
  Sim.rio_handle (Sim.data d) = Sim.IsOpen ->
  Sim.data (fst (Sim.data_Seek off d)) =
    Sim.mkRio (Sim.rio_path (Sim.data d)) Sim.IsOpen off
      (filter (fun r => fst r <? off) (Sim.rio_records (Sim.data d))) /\
  Sim.index (fst (Sim.data_Seek off d)) = Sim.index d /\
  Sim.faults (fst (Sim.data_Seek off d)) = Sim.faults d.
Proof.
  intros Hseek Hh. unfold Sim.data_Seek, Sim.rio_seek.
  rewrite (Sim_seek_never_fails d Hseek), Hh. repeat split.
Qed.

(** One call on the disk: it leaves the two files as they were, or appends
    one record to each. *)
Lemma Sim_WriteNext_files (w : SSTableStreamWriter) key value (d d' : Sim.Disk) w' o :
  WriteNext w key value d = (d', w', o) ->
  o <> Panic ->
  Sim.seek_works d ->
  Sim.in_step d ->
  Sim.faults d' = Sim.faults d /\ Sim.in_step d' /\
  match o with
  | Ok =>
      map snd (Sim.rio_records (Sim.data d'))
        = map snd (Sim.rio_records (Sim.data d)) ++ [value] /\
      map (fun r => sProto.Key (snd r)) (Sim.rio_records (Sim.index d'))
        = map (fun r => sProto.Key (snd r)) (Sim.rio_records (Sim.index d)) ++ [key]
  | _ =>
      Sim.rio_records (Sim.data d') = Sim.rio_records (Sim.data d) /\
      Sim.rio_records (Sim.index d') = Sim.rio_records (Sim.index d)
  end.
Proof.
  intros HW Hnp Hseek [Hm Hb].
  destruct (WriteNext_io_cases _ _ _ _ _ _ _ HW Hnp)
    as [[Ho ->]|[(Ho & dw & st1 & e & _ & Hd & ->)|
        [(Ho & dw & iw & st1 & off & st2 & e & _ & _ & Hd & Hi & ->)|
         (-> & dw & iw & st1 & off & ioff & _ & _ & Hd & Hi)]]].
  - split; [reflexivity|]. split; [split; assumption|].
    destruct o; [congruence| |]; split; reflexivity.
  - simpl in Hd. apply Sim_data_Write_fail in Hd. destruct Hd as (Hdd & Hdi & Hdf).
    split; [exact Hdf|]. unfold Sim.in_step. rewrite Hdd, Hdi.
    split; [split; assumption|].
    destruct o; [congruence| |]; split; reflexivity.
  - simpl in Hd, Hi. apply Sim_data_Write_ok in Hd. destruct Hd as (-> & Hdd & Hdi & Hdf).
    apply Sim_index_Write_fail in Hi. destruct Hi as (Hii & Hid & Hif).
    assert (Hseek2 : Sim.seek_works st2).
    { unfold Sim.seek_works. rewrite Hif, Hdf. exact Hseek. }
    assert (Hopen : Sim.rio_handle (Sim.data st2) = Sim.IsOpen)
      by (rewrite Hid, Hdd; reflexivity).
    simpl.
    destruct (Sim_data_Seek_open (Sim.rio_size (Sim.data d)) st2 Hseek2 Hopen)
      as (Hsd & Hsi & Hsf).
    assert (Hrec : Sim.rio_records
                     (Sim.data (fst (Sim.data_Seek (Sim.rio_size (Sim.data d)) st2)))
                   = Sim.rio_records (Sim.data d)).
    { rewrite Hsd, Hid, Hdd. simpl. apply filter_below_last. exact Hb. }
    assert (Hsize : Sim.rio_size
                      (Sim.data (fst (Sim.data_Seek (Sim.rio_size (Sim.data d)) st2)))
                    = Sim.rio_size (Sim.data d)).
    { rewrite Hsd. reflexivity. }
    split; [rewrite Hsf, Hif, Hdf; reflexivity|].
    unfold Sim.in_step. rewrite Hsi, Hii, Hdi, Hrec, Hsize.
    split; [split; assumption|].
    destruct o; [congruence| |]; split; reflexivity.
  - simpl in Hd, Hi. apply Sim_data_Write_ok in Hd. destruct Hd as (-> & Hdd & Hdi & Hdf).
    apply Sim_index_Write_ok in Hi. destruct Hi as (Hii & Hid & Hif).
    split; [rewrite Hif, Hdf; reflexivity|].
    unfold Sim.in_step. rewrite Hii, Hid, Hdd, Hdi. simpl.
    split; [split|].
    + rewrite !map_app, Hm. reflexivity.
    + apply Forall_app. split.
      * eapply Forall_impl; [|exact Hb]. intros r Hr. simpl in *.
        unfold Sim.framed. lia.
      * constructor; [|constructor]. simpl. unfold Sim.framed. lia.
    + rewrite !map_app. split; reflexivity.
Qed.

(** X14: On the disk of the spec's RecordIO writers, with any schedule of
    failing calls that spares [Seek]: after a run of [WriteNext] calls on an
    opened writer the data file holds, in order, the values of the calls
    that returned nil and the index their keys, and the two files are in
    step, each index entry carrying the offset of its data record and the
    CRC-64/ISO of its payload.  A failed call leaves no record in either
    file. *)
Theorem Sim_run_keeps_files_in_step calls :
  forall (w : SSTableStreamWriter) (d d' : Sim.Disk) w' os,
    opened w ->
    keyComparator (opts w) <> None ->
    Sim.seek_works d ->
    Sim.in_step d ->
    run calls w d = (d', w', os) ->
    Sim.in_step d' /\
    map snd (Sim.rio_records (Sim.data d'))
      = map snd (Sim.rio_records (Sim.data d)) ++ map snd (written_pairs calls os) /\
    map (fun r => sProto.Key (snd r)) (Sim.rio_records (Sim.index d'))
      = map (fun r => sProto.Key (snd r)) (Sim.rio_records (Sim.index d))
        ++ map fst (written_pairs calls os).
Proof.
  induction calls as [|[k v] calls IH]; intros w d d' w' os Ho Hk Hseek Hstep Hrun;
    simpl in Hrun.
  - inv Hrun. simpl. rewrite !app_nil_r. repeat split; try reflexivity; apply Hstep.
  - destruct (WriteNext w k v d) as [[d1 w1] o] eqn:HW.
    destruct (WriteNext_opened _ _ _ _ _ _ _ Ho Hk HW) as (Hnp & Ho1 & Hk1).
    destruct (Sim_WriteNext_files _ _ _ _ _ _ _ HW Hnp Hseek Hstep) as (Hf & Hstep1 & Hrec).
    assert (Hseek1 : Sim.seek_works d1) by (unfold Sim.seek_works; now rewrite Hf).
    destruct (run calls w1 d1) as [[d2 w2] os2] eqn:HR.
    destruct (IH _ _ _ _ _ Ho1 Hk1 Hseek1 Hstep1 HR) as (Hstep2 & Hdata & Hidx).
    destruct o; [| |congruence]; inv Hrun; simpl written_pairs.
    + destruct Hrec as [Hrd Hri]. split; [exact Hstep2|].
      rewrite Hdata, Hidx, Hrd, Hri, <- !app_assoc. simpl. split; reflexivity.
    + destruct Hrec as [Hrd Hri]. split; [exact Hstep2|].
      rewrite Hdata, Hidx, Hrd, Hri. split; reflexivity.
Qed.

(** ** Sorted pairs on a disk without failures *)

Lemma Sim_ready_never_fails (d : Sim.Disk) (o : Sim.Op) :
  Sim.faults d = [] -> Sim.fails d o = false.
Proof. unfold Sim.fails. intros ->. reflexivity. Qed.

Lemma Sim_data_Write_ready v (d : Sim.Disk) :
  Sim.ready d ->
  exists d1, Sim.data_Write v d = (d1, Val (Sim.rio_size (Sim.data d))) /\ Sim.ready d1.
Proof.
  intros (Hf & Hd & Hi). unfold Sim.data_Write, Sim.rio_write.
  rewrite (Sim_ready_never_fails d Sim.DataWrite Hf), Hd.
  eexists. split; [reflexivity|]. repeat split; assumption.
Qed.

Lemma Sim_index_Write_ready entry (d : Sim.Disk) :
  Sim.ready d ->
  exists d1, Sim.index_Write entry d = (d1, Val (Sim.rio_size (Sim.index d))) /\ Sim.ready d1.
Proof.
  intros (Hf & Hd & Hi). unfold Sim.index_Write, Sim.rio_write.
  rewrite (Sim_ready_never_fails d Sim.IndexWrite Hf), Hi.
  eexists. split; [reflexivity|]. repeat split; assumption.
Qed.

(** When no call fails, a run of [WriteNext] calls whose keys are strictly
    increasing, and above the writer's last key, writes every pair: each
    call returns nil, the data file gains the values and the index the
    keys, in call order, and the two files stay in step. *)
Lemma Sim_sorted_run (cmp : Comparator) (calls : list (bytes * bytes)) :
  forall (w : SSTableStreamWriter) (d : Sim.Disk),
    comparator_ok cmp ->
    opened w ->
    keyComparator (opts w) = Some cmp ->
    Sim.ready d ->
    Sim.in_step d ->
    (forall l, lastKey w = Some l -> Forall (fun k => cmp (Some l) k < 0) (map fst calls)) ->
    StronglySorted (fun a b => cmp a b < 0) (map fst calls) ->
    exists d' w',
      run calls w d = (d', w', repeat Ok (List.length calls)) /\
      map snd (Sim.rio_records (Sim.data d'))
        = map snd (Sim.rio_records (Sim.data d)) ++ map snd calls /\
      map (fun r => sProto.Key (snd r)) (Sim.rio_records (Sim.index d'))
        = map (fun r => sProto.Key (snd r)) (Sim.rio_records (Sim.index d)) ++ map fst calls /\
      Sim.in_step d' /\ Sim.ready d' /\ opened w'.
Proof.
  induction calls as [|[k v] calls IH]; intros w d Hcmp Ho Hk Hr Hstep Hlast Hsorted.
  - exists d, w. simpl. rewrite !app_nil_r.
    split; [reflexivity|]. split; [reflexivity|]. split; [reflexivity|].
    repeat (split; [assumption|]). assumption.
  - simpl map in Hlast, Hsorted. inversion Hsorted as [|? ? Hs Hall]; subst.
    destruct (Sim_data_Write_ready v d Hr) as (d1 & HW & Hr1).
    destruct (Sim_index_Write_ready
                (sProto.mkIndexEntry k (Sim.rio_size (Sim.data d))
                   (crc64.Sum64_ISO (elems v))) d1 Hr1) as (d2 & HI & Hr2).
    destruct (indexWriter w) as [iw|] eqn:Hiw;
      [|exfalso; destruct Ho as (X & _); now apply X].
    destruct (dataWriter w) as [dw|] eqn:Hdw;
      [|exfalso; destruct Ho as (_ & X & _); now apply X].
    assert (Habove : forall l, lastKey w = Some l ->
              exists cmp', keyComparator (opts w) = Some cmp' /\ cmp' (Some l) k < 0).
    { intros l Hl. exists cmp. split; [exact Hk|].
      specialize (Hlast l Hl). now inversion Hlast. }
    destruct (WriteNext_accepts w k v d dw iw d1 _ d2 _ Ho Habove Hdw Hiw HW HI)
      as (w1 & Hcall & Hl1).
    assert (Hkn : keyComparator (opts w) <> None) by congruence.
    destruct (WriteNext_opened _ _ _ _ _ _ _ Ho Hkn Hcall) as (Hnp & Ho1 & _).
    destruct (WriteNext_handles _ _ _ _ _ _ _ Hcall) as (Hopts & _).
    assert (Hseek : Sim.seek_works d).
    { intros n. destruct Hr as (-> & _). intros []. }
    destruct (Sim_WriteNext_files _ _ _ _ _ _ _ Hcall Hnp Hseek Hstep)
      as (_ & Hstep2 & Hdata & Hidx).
    assert (Hk1 : keyComparator (opts w1) = Some cmp) by (rewrite Hopts; exact Hk).
    assert (Hlast1 : forall l, lastKey w1 = Some l ->
              Forall (fun k' => cmp (Some l) k' < 0) (map fst calls)).
    { intros l Hl. rewrite Hl1 in Hl. inv Hl.
      eapply Forall_impl; [|exact Hall]. intros k' Hlt. cbv beta in Hlt.
      rewrite (cmp_content _ Hcmp) in Hlt. rewrite (cmp_content _ Hcmp). exact Hlt. }
    destruct (IH w1 d2 Hcmp Ho1 Hk1 Hr2 Hstep2 Hlast1 Hs)
      as (d' & w' & Hrun & Hdata' & Hidx' & Hstep' & Hr' & Ho').
    exists d', w'. split.
    + simpl. rewrite Hcall, Hrun. reflexivity.
    + rewrite Hdata', Hidx', Hdata, Hidx, <- !app_assoc. simpl.
      split; [reflexivity|]. split; [reflexivity|].
      repeat (split; [assumption|]). assumption.
Qed.

(** ** A sorted map on a disk without failures *)

Lemma Sim_dirname_join (bp name : string) :
  Sim.dirname name = None -> Sim.dirname (bp ++ String "/" name) = Some bp.
Proof.
  intros Hn. induction bp as [|c bp IH]; simpl.
  - rewrite Hn. reflexivity.
  - rewrite IH. reflexivity.
Qed.

Lemma Sim_dir_ok_join (d : Sim.Disk) (bp name : string) :
  Sim.dirname name = None ->
  Sim.dir_ok d (filepath_Join bp name) = Sim.dir_exists d bp.
Proof.
  intros Hn. unfold Sim.dir_ok. simpl filepath_Join.
  change (bp ++ "/" ++ name)%string with (bp ++ String "/" name)%string.
  now rewrite (Sim_dirname_join bp name Hn).
Qed.

(** [Open] on a disk without failures, in a directory that exists. *)
Lemma Sim_Open_ready (w : SSTableStreamWriter) (d : Sim.Disk) :
  Sim.faults d = [] ->
  Sim.dir_exists d (basePath (opts w)) = true ->
  exists d0 w0,
    Open w d = (d0, w0, Ok) /\ Sim.ready d0 /\
    Sim.rio_records (Sim.data d0) = [] /\ Sim.rio_records (Sim.index d0) = [] /\
    Sim.dirs d0 = Sim.dirs d /\ Sim.meta_handle (Sim.meta d0) = Sim.IsOpen /\
    Sim.meta_content (Sim.meta d0) <> None.
Proof.
  intros Hf Hdir. destruct d as [ds fs cs ix dt mt bl]. simpl in Hf. subst fs.
  unfold Sim.dir_exists in Hdir. simpl in Hdir.
  unfold Open. cbn -[errIn filepath_Join Sim.dir_ok].
  unfold Sim.NewWriter, Sim.index_Open, Sim.rio_open.
  cbn -[errIn filepath_Join Sim.dir_ok].
  rewrite Sim_dir_ok_join by reflexivity.
  unfold Sim.dir_exists. cbn -[errIn filepath_Join Sim.dir_ok].
  rewrite Hdir. cbn -[errIn filepath_Join Sim.dir_ok].
  unfold Sim.NewFileWriter, Sim.data_Open, Sim.rio_open.
  cbn -[errIn filepath_Join Sim.dir_ok].
  rewrite Sim_dir_ok_join by reflexivity.
  unfold Sim.dir_exists. cbn -[errIn filepath_Join Sim.dir_ok].
  rewrite Hdir. cbn -[errIn filepath_Join Sim.dir_ok].
  unfold Sim.OpenFile.
  cbn -[errIn filepath_Join Sim.dir_ok].
  rewrite Sim_dir_ok_join by reflexivity.
  unfold Sim.dir_exists. cbn -[errIn filepath_Join Sim.dir_ok].
  rewrite Hdir. cbn -[errIn filepath_Join Sim.dir_ok].
  destruct (enableBloomFilter (opts w)); do 2 eexists;
    (split; [reflexivity|]); cbn -[filepath_Join];
    (split; [repeat split|]); repeat split;
    destruct (Sim.meta_content mt); discriminate.
Qed.

(** The appends and the rewind leave the meta file and the directories
    alone. *)
Lemma Sim_data_Write_frame v (d : Sim.Disk) :
  Sim.meta (fst (Sim.data_Write v d)) = Sim.meta d /\
  Sim.dirs (fst (Sim.data_Write v d)) = Sim.dirs d.
Proof. unfold Sim.data_Write. destruct (Sim.rio_write _ _ _ _). split; reflexivity. Qed.

Lemma Sim_index_Write_frame e (d : Sim.Disk) :
  Sim.meta (fst (Sim.index_Write e d)) = Sim.meta d /\
  Sim.dirs (fst (Sim.index_Write e d)) = Sim.dirs d.
Proof. unfold Sim.index_Write. destruct (Sim.rio_write _ _ _ _). split; reflexivity. Qed.

Lemma Sim_data_Seek_frame off (d : Sim.Disk) :
  Sim.meta (fst (Sim.data_Seek off d)) = Sim.meta d /\
  Sim.dirs (fst (Sim.data_Seek off d)) = Sim.dirs d.
Proof. unfold Sim.data_Seek. destruct (Sim.rio_seek _ _ _). split; reflexivity. Qed.

Lemma Sim_WriteNext_frame (w : SSTableStreamWriter) key value (d d' : Sim.Disk) w' o :
  WriteNext w key value d = (d', w', o) ->
  o <> Panic ->
  Sim.meta d' = Sim.meta d /\ Sim.dirs d' = Sim.dirs d.
Proof.
  intros HW Hnp.
  destruct (WriteNext_io_cases _ _ _ _ _ _ _ HW Hnp)
    as [[Ho ->]|[(Ho & dw & st1 & e & _ & Hd & ->)|
        [(Ho & dw & iw & st1 & off & st2 & e & _ & _ & Hd & Hi & ->)|
         (-> & dw & iw & st1 & off & ioff & _ & _ & Hd & Hi)]]];
    simpl in *.
  - split; reflexivity.
  - pose proof (Sim_data_Write_frame value d) as [H1 H2]. rewrite Hd in H1, H2.
    split; assumption.
  - pose proof (Sim_data_Write_frame value d) as [H1 H2]. rewrite Hd in H1, H2.
    pose proof (Sim_index_Write_frame
                  (sProto.mkIndexEntry key off (crc64.Sum64_ISO (elems value))) st1)
      as [H3 H4].
    rewrite Hi in H3, H4.
    pose proof (Sim_data_Seek_frame (Sim.rio_size (Sim.data d)) st2) as [H5 H6].
    simpl in *. split; congruence.
  - pose proof (Sim_data_Write_frame value d) as [H1 H2]. rewrite Hd in H1, H2.
    pose proof (Sim_index_Write_frame
                  (sProto.mkIndexEntry key off (crc64.Sum64_ISO (elems value))) st1)
      as [H3 H4].
    rewrite Hi in H3, H4. simpl in *. split; congruence.
Qed.

Lemma Sim_run_frame calls :
  forall (w : SSTableStreamWriter) (d d' : Sim.Disk) w' os,
    run calls w d = (d', w', os) ->
    ~ In Panic os ->
    Sim.meta d' = Sim.meta d /\ Sim.dirs d' = Sim.dirs d.
Proof.
  induction calls as [|[k v] calls IH]; intros w d d' w' os Hrun Hnp; simpl in Hrun.
  - inv Hrun. split; reflexivity.
  - destruct (WriteNext w k v d) as [[d1 w1] o] eqn:HW.
    destruct (run calls w1 d1) as [[d2 w2] os2] eqn:HR.
    assert (Ho : o <> Panic /\ (d2, w2, o :: os2) = (d', w', os)).
    { destruct o; [split; [discriminate|exact Hrun]|split; [discriminate|exact Hrun]|].
      inv Hrun. exfalso. apply Hnp. now left. }
    destruct Ho as [Ho Heq]. inv Heq.
    destruct (Sim_WriteNext_frame _ _ _ _ _ _ _ HW Ho) as [H1 H2].
    assert (Hnp2 : ~ In Panic os2) by (intros Hin; apply Hnp; now right).
    destruct (IH _ _ _ _ _ HR Hnp2) as [H3 H4]. split; congruence.
Qed.

(** [Close] on a disk without failures, after [Open]. *)
Lemma Sim_Close_ready (w : SSTableStreamWriter) (d : Sim.Disk) :
  opened w ->
  Sim.ready d ->
  Sim.meta_handle (Sim.meta d) = Sim.IsOpen ->
  Sim.meta_content (Sim.meta d) <> None ->
  Sim.dir_exists d (basePath (opts w)) = true ->
  exists d' w',
    Close w d = (d', w', Ok) /\
    Sim.data d' = Sim.mkRio (Sim.rio_path (Sim.data d)) Sim.IsClosed
                    (Sim.rio_size (Sim.data d)) (Sim.rio_records (Sim.data d)) /\
    Sim.index d' = Sim.mkRio (Sim.rio_path (Sim.index d)) Sim.IsClosed
                     (Sim.rio_size (Sim.index d)) (Sim.rio_records (Sim.index d)).
Proof.
  intros (Hi & Hd & Hmf & Hm & Hb) (Hf & Hdh & Hih) Hmh Hmc Hdir.
  destruct d as [ds fs cs ix dt mt bl]. simpl in Hf, Hdh, Hih, Hmh, Hmc. subst fs.
  unfold Sim.dir_exists in Hdir. simpl in Hdir.
  destruct (indexWriter w) as [iw|] eqn:Hiw; [|congruence].
  destruct (dataWriter w) as [dw|] eqn:Hdw; [|congruence].
  destruct (metaDataFile w) as [f|] eqn:Hfw; [|congruence].
  destruct (metaData w) as [md|] eqn:Hmd; [|congruence].
  destruct (Sim.meta_content mt) as [content|] eqn:Hcontent; [|congruence].
  unfold Close. rewrite Hiw, Hdw, Hfw, Hmd.
  cbn -[errIn filepath_Join Sim.dir_ok].
  unfold Sim.index_Close, Sim.data_Close, Sim.rio_close.
  cbn -[errIn filepath_Join Sim.dir_ok]. rewrite Hih.
  cbn -[errIn filepath_Join Sim.dir_ok]. rewrite Hdh.
  cbn -[errIn filepath_Join Sim.dir_ok].
  rewrite ?Sim_dir_ok_join by reflexivity.
  unfold Sim.dir_exists. cbn -[errIn filepath_Join Sim.dir_ok Sim.Marshal].
  rewrite Hdir. cbn -[errIn filepath_Join Sim.dir_ok Sim.Marshal].
  unfold Sim.meta_Write, Sim.meta_Close.
  destruct (enableBloomFilter (opts w)); [destruct (bloomFilter w)|];
    cbn -[errIn filepath_Join Sim.dir_ok Sim.Marshal firstn skipn];
    rewrite Hmh, Hcontent;
    cbn -[errIn filepath_Join Sim.dir_ok Sim.Marshal firstn skipn];
    do 2 eexists; (split; [reflexivity|]); split; reflexivity.
Qed.

(** X15: On the disk of the spec's RecordIO writers, when no call fails and the
    table directory exists: [WriteSkipListMap] on a map whose keys are
    strictly increasing for the comparator of the writer returns nil, and
    leaves a data file that holds exactly the values of the map and an
    index that holds exactly its keys, in order and in step with the data
    file, both closed. *)
Theorem Sim_sorted_map_is_written
  (cmp : Comparator) writerOptions sw (M : MapI) (d : Sim.Disk) :
  comparator_ok cmp ->
  NewSSTableSimpleWriter writerOptions = Val sw ->
  keyComparator (opts (streamWriter sw)) = Some cmp ->
  Sim.faults d = [] ->
  Sim.dir_exists d (basePath (opts (streamWriter sw))) = true ->
  StronglySorted (fun a b => cmp a b < 0) (map fst (pairs M)) ->
  after M = None ->
  exists d' sw',
    WriteSkipListMap sw M d = (d', sw', Ok) /\
    map snd (Sim.rio_records (Sim.data d')) = map snd (pairs M) /\
    map (fun r => sProto.Key (snd r)) (Sim.rio_records (Sim.index d')) = map fst (pairs M) /\
    Sim.in_step d' /\
    Sim.rio_handle (Sim.data d') = Sim.IsClosed /\
    Sim.rio_handle (Sim.index d') = Sim.IsClosed.
Proof.
  intros Hcmp Hnew Hk Hf Hdir Hsorted Hafter.
  assert (Hl : lastKey (streamWriter sw) = None).
  { unfold NewSSTableSimpleWriter in Hnew.
    destruct (NewSSTableStreamWriter (writerOptions ++ [WriteBufferSizeBytes 4096]))
      as [w|e] eqn:Hs; inv Hnew.
    unfold NewSSTableStreamWriter in Hs. repeat break_match; inv Hs. reflexivity. }
  destruct (Sim_Open_ready (streamWriter sw) d Hf Hdir)
    as (d0 & w0 & HO & Hr0 & Hd0 & Hi0 & Hdirs0 & Hmh0 & Hmc0).
  destruct (Open_ok_writer _ _ _ _ HO) as (Ho0 & _ & Hl0 & Hopts0).
  assert (Hstep0 : Sim.in_step d0).
  { unfold Sim.in_step. rewrite Hd0, Hi0. split; [reflexivity|constructor]. }
  assert (Hk0 : keyComparator (opts w0) = Some cmp) by (rewrite Hopts0; exact Hk).
  assert (Hlast0 : forall l, lastKey w0 = Some l ->
            Forall (fun k => cmp (Some l) k < 0) (map fst (pairs M))).
  { intros l Hl'. congruence. }
  destruct (Sim_sorted_run cmp (pairs M) w0 d0 Hcmp Ho0 Hk0 Hr0 Hstep0 Hlast0 Hsorted)
    as (d1 & w1 & Hrun & Hdata & Hidx & Hstep1 & Hr1 & Ho1).
  assert (Hall : Forall (eq Ok) (repeat Ok (List.length (pairs M)))).
  { apply Forall_forall. intros o Hin. apply repeat_spec in Hin. now subst. }
  assert (Hnp : ~ In Panic (repeat Ok (List.length (pairs M)))).
  { intros Hin. apply repeat_spec in Hin. discriminate Hin. }
  destruct (Sim_run_frame _ _ _ _ _ _ Hrun Hnp) as (Hmeta1 & Hdirs1).
  destruct (run_handles _ _ _ _ _ _ Hrun) as (Hopts1 & _).
  assert (Hdir1 : Sim.dir_exists d1 (basePath (opts w1)) = true).
  { unfold Sim.dir_exists in *. now rewrite Hopts1, Hopts0, Hdirs1, Hdirs0. }
  destruct (Sim_Close_ready w1 d1 Ho1 Hr1) as (d2 & w2 & HC & Hdata2 & Hidx2);
    [now rewrite Hmeta1|now rewrite Hmeta1|exact Hdir1|].
  exists d2, (mkSimpleWriter w2). split.
  - unfold WriteSkipListMap.
    rewrite HO, (WriteSkipListMap_loop_all_ok _ _ _ _ _ _ _ Hrun Hall), Hafter, HC.
    reflexivity.
  - rewrite Hd0 in Hdata. rewrite Hi0 in Hidx. simpl in Hdata, Hidx.
    destruct Hstep1 as [Hs1 Hs2].
    unfold Sim.in_step. rewrite Hdata2, Hidx2. simpl.
    repeat split; assumption.
Qed.

(** ** The further properties on the concrete table *)

Lemma table_metadata_witness :
  exists md,
    metaData (snd (fst (Sim.after_close [] Sim.calls_abc))) = Some md /\
    sProto.Version md = 1 /\
    sProto.NumRecords md = 3 /\
    sProto.NullValues md = 1 /\
    sProto.TotalBytes md = wrap64 (sProto.DataBytes md + sProto.IndexBytes md) /\
    forall bytes,
      proto_Marshal md = Val bytes ->
      fst (fst (Sim.after_close [] Sim.calls_abc))
        = fst (file_Close (Env := Sim.env) "tbl/meta"
                 (fst (file_Write (Env := Sim.env) "tbl/meta" bytes
                         (closed_world (snd (fst (Sim.after_run [] Sim.calls_abc)))
                            "tbl/index" "tbl/data"
                            (fst (fst (Sim.after_run [] Sim.calls_abc))))))).
Proof.
  assert (Hiw : indexWriter (snd (fst (Sim.after_run [] Sim.calls_abc))) = Some "tbl/index")
    by (vm_compute; reflexivity).
  assert (Hdw : dataWriter (snd (fst (Sim.after_run [] Sim.calls_abc))) = Some "tbl/data")
    by (vm_compute; reflexivity).
  assert (Hfw : metaDataFile (snd (fst (Sim.after_run [] Sim.calls_abc))) = Some "tbl/meta")
    by (vm_compute; reflexivity).
  destruct (table_metadata (E := Sim.env) Sim.calls_abc
              (Sim.new_writer []) (Sim.disk ["tbl"] [])
              (Sim.tbl_disk []) (Sim.tbl_writer [])
              (fst (fst (Sim.after_run [] Sim.calls_abc)))
              (snd (fst (Sim.after_run [] Sim.calls_abc)))
              (snd (Sim.after_run [] Sim.calls_abc))
              (outcome_eta (Open (Sim.new_writer []) (Sim.disk ["tbl"] [])) Ok
                 ltac:(vm_compute; reflexivity))
              (triple_eta (Sim.after_run [] Sim.calls_abc)))
    as (iw & dw & f & md & Hiw' & Hdw' & Hfw' & Hmd & _ & Hbytes & _
        & Hv & Hn & Hz & _ & _ & Ht).
  exists md. split; [exact Hmd|]. split; [exact Hv|].
  split; [rewrite Hn; vm_compute; reflexivity|].
  split; [rewrite Hz; vm_compute; reflexivity|]. split; [exact Ht|].
  pose proof (Some_eq Hiw' Hiw) as Ei.
  pose proof (Some_eq Hdw' Hdw) as Ed.
  pose proof (Some_eq Hfw' Hfw) as Ef.
  subst iw dw f. exact Hbytes.
Defined.

(** The bytes of the meta file of this table, in the encoding of the disk:
    the version, three records and one nil value first, and the sizes of
    the data file and of the index file and their sum last. *)
Example table_metadata_written :
  Sim.meta_content (Sim.meta (fst (fst (Sim.after_close [] Sim.calls_abc))))
    = Some [x01; x03; x01; x01; "a"%byte; x01; "c"%byte; x1d; x4e; x6b] /\
  Sim.rio_size (Sim.data (fst (fst (Sim.after_close [] Sim.calls_abc)))) = 29 /\
  Sim.rio_size (Sim.index (fst (fst (Sim.after_close [] Sim.calls_abc)))) = 78.
Proof. repeat split; vm_compute; reflexivity. Qed.

Lemma run_never_panics_witness :
  ~ In Panic (snd (Sim.after_run Sim.fault_index_write Sim.calls_abc)) /\
  snd (Sim.after_close Sim.fault_index_write Sim.calls_abc) <> Panic.
Proof.
  assert (Ho : opened (Sim.tbl_writer Sim.fault_index_write)).
  { repeat split; try (vm_compute; discriminate). }
  assert (Hk : keyComparator (opts (Sim.tbl_writer Sim.fault_index_write)) <> None)
    by (vm_compute; discriminate).
  destruct (run_never_panics (E := Sim.env) Sim.calls_abc
              (Sim.tbl_writer Sim.fault_index_write) (Sim.tbl_disk Sim.fault_index_write)
              (fst (fst (Sim.after_run Sim.fault_index_write Sim.calls_abc)))
              (snd (fst (Sim.after_run Sim.fault_index_write Sim.calls_abc)))
              (snd (Sim.after_run Sim.fault_index_write Sim.calls_abc))
              Ho Hk (triple_eta (Sim.after_run Sim.fault_index_write Sim.calls_abc)))
    as (Hnp & _ & _ & HC).
  split; [exact Hnp|].
  exact (HC (fst (fst (Sim.after_close Sim.fault_index_write Sim.calls_abc)))
            (snd (fst (Sim.after_close Sim.fault_index_write Sim.calls_abc)))
            (snd (Sim.after_close Sim.fault_index_write Sim.calls_abc))
            (triple_eta (Sim.after_close Sim.fault_index_write Sim.calls_abc))).
Defined.

Lemma WriteNext_succeeds_iff_witness :
  (forall l, lastKey (Sim.tbl_writer []) = Some l ->
             exists cmp,
               keyComparator (opts (Sim.tbl_writer [])) = Some cmp /\
               cmp (Some l) Sim.key_a < 0) /\
  exists dw iw st1 recordOffset indexOffset,
    dataWriter (Sim.tbl_writer []) = Some dw /\
    indexWriter (Sim.tbl_writer []) = Some iw /\
    dw_Write dw Sim.val_1 (Sim.tbl_disk []) = (st1, Val recordOffset) /\
    iw_Write iw
      (sProto.mkIndexEntry Sim.key_a recordOffset (crc64.Sum64_ISO (elems Sim.val_1))) st1
      = (fst (fst (WriteNext (Sim.tbl_writer []) Sim.key_a Sim.val_1 (Sim.tbl_disk []))),
         Val indexOffset).
Proof.
  assert (Ho : opened (Sim.tbl_writer [])).
  { repeat split; try (vm_compute; discriminate). }
  exact (proj1 (WriteNext_succeeds_iff (E := Sim.env) (Sim.tbl_writer []) Sim.key_a
                  Sim.val_1 (Sim.tbl_disk [])
                  (fst (fst (WriteNext (Sim.tbl_writer []) Sim.key_a Sim.val_1
                               (Sim.tbl_disk []))))
                  Ho)
           (ex_intro _
              (snd (fst (WriteNext (Sim.tbl_writer []) Sim.key_a Sim.val_1 (Sim.tbl_disk []))))
              (outcome_eta
                 (WriteNext (Sim.tbl_writer []) Sim.key_a Sim.val_1 (Sim.tbl_disk []))
                 Ok ltac:(vm_compute; reflexivity)))).
Defined.

Lemma WriteNext_data_failure_witness :
  exists w',
    WriteNext (Sim.tbl_writer Sim.fault_data_write_0) Sim.key_a Sim.val_1
      (Sim.tbl_disk Sim.fault_data_write_0)
    = (fst (dw_Write (Env := Sim.env) "tbl/data" Sim.val_1
              (Sim.tbl_disk Sim.fault_data_write_0)),
       w',
       Err (errIn "error writeNext data writer error"
              (basePath (opts (Sim.tbl_writer Sim.fault_data_write_0))) (Some Sim.EIO))) /\
    option_map sProto.NumRecords (metaData w')
      = option_map sProto.NumRecords (metaData (Sim.tbl_writer Sim.fault_data_write_0)) /\
    option_map sProto.NullValues (metaData w')
      = option_map sProto.NullValues (metaData (Sim.tbl_writer Sim.fault_data_write_0)).
Proof.
  exact (WriteNext_data_failure (E := Sim.env)
           (Sim.tbl_writer Sim.fault_data_write_0) Sim.key_a Sim.val_1
           (Sim.tbl_disk Sim.fault_data_write_0)
           (passed_writer (Sim.tbl_writer Sim.fault_data_write_0) Sim.key_a)
           "tbl/data"
           (fst (dw_Write (Env := Sim.env) "tbl/data" Sim.val_1
                   (Sim.tbl_disk Sim.fault_data_write_0)))
           Sim.EIO
           (check_eta (E := Sim.env) (Sim.tbl_writer Sim.fault_data_write_0) Sim.key_a
              ltac:(vm_compute; exact I))
           ltac:(vm_compute; discriminate)
           ltac:(vm_compute; reflexivity)
           (pair_eta
              (dw_Write (Env := Sim.env) "tbl/data" Sim.val_1
                 (Sim.tbl_disk Sim.fault_data_write_0))
              (Fail Sim.EIO) ltac:(vm_compute; reflexivity))).
Defined.

Lemma Close_panics_iff_unopened_witness :
  snd (Close (Sim.new_writer []) (Sim.disk ["tbl"] [])) = Panic /\
  fst (fst (Close (Sim.new_writer []) (Sim.disk ["tbl"] []))) = Sim.disk ["tbl"] [].
Proof.
  destruct (Close_panics_iff_unopened (E := Sim.env)
              (Sim.new_writer []) (Sim.disk ["tbl"] [])
              (fst (fst (Close (Sim.new_writer []) (Sim.disk ["tbl"] []))))
              (snd (fst (Close (Sim.new_writer []) (Sim.disk ["tbl"] []))))
              (snd (Close (Sim.new_writer []) (Sim.disk ["tbl"] [])))
              (triple_eta (Close (Sim.new_writer []) (Sim.disk ["tbl"] []))))
    as (Hiff & Hsame & _).
  assert (Hi : indexWriter (Sim.new_writer []) = None) by (vm_compute; reflexivity).
  split.
  - exact (proj2 Hiff (or_introl Hi)).
  - exact (proj1 (Hsame Hi)).
Defined.

Lemma Close_after_failed_Open_witness :
  snd (Close (snd (fst (Open (Sim.new_writer []) (Sim.disk [] []))))
         (fst (fst (Open (Sim.new_writer []) (Sim.disk [] [])))))
    = Panic /\
  exists s1,
    Sim.NewWriter "tbl/index" (Sim.disk [] []) = (s1, Val "tbl/index") /\
    Sim.index_Open s1
      = (fst (fst (Open (Sim.new_writer []) (Sim.disk [] []))), Some Sim.ENOENT) /\
    snd (Open (Sim.new_writer []) (Sim.disk [] []))
      = Err (errIn "error while opening index writer" "tbl" (Some Sim.ENOENT)).
Proof.
  assert (He : snd (Open (Sim.new_writer []) (Sim.disk [] []))
               = Err (errIn "error while opening index writer" "tbl" (Some Sim.ENOENT)))
    by (vm_compute; reflexivity).
  assert (Hn : forall s err,
             Sim.NewWriter "tbl/index" (Sim.disk [] []) <> (s, Fail err))
    by (intros s err X; vm_compute in X; discriminate X).
  assert (Hp : snd (Close (snd (fst (Open (Sim.new_writer []) (Sim.disk [] []))))
                      (fst (fst (Open (Sim.new_writer []) (Sim.disk [] [])))))
               = Panic) by (vm_compute; reflexivity).
  destruct (Close_after_failed_Open (E := Sim.env) (Sim.new_writer []) (Sim.disk [] [])
              (fst (fst (Open (Sim.new_writer []) (Sim.disk [] []))))
              (snd (fst (Open (Sim.new_writer []) (Sim.disk [] []))))
              (errIn "error while opening index writer" "tbl" (Some Sim.ENOENT))
              ltac:(vm_compute; reflexivity) ltac:(vm_compute; reflexivity)
              (outcome_eta (Open (Sim.new_writer []) (Sim.disk [] [])) _ He))
    as [[Hpanic [(err & H1 & _)|[(s1 & iw & err & H1 & H2 & Herr)|(s1 & iw & s2 & err & _ & _ & _ & Herr)]]]
       |[Hnp _]].
  - exfalso. exact (Hn _ _ H1).
  - split; [exact Hpanic|]. exists s1.
    assert (Hiw : iw = "tbl/index").
    { change (Sim.NewWriter "tbl/index" (Sim.disk [] []) = (s1, Val iw)) in H1.
      vm_compute in H1. injection H1 as _ <-. reflexivity. }
    assert (Herr' : err = Sim.ENOENT).
    { vm_compute in Herr. injection Herr as <-. reflexivity. }
    subst iw err. split; [exact H1|]. split; [exact H2|exact He].
  - exfalso. vm_compute in Herr. discriminate Herr.
  - exfalso. exact (Hnp Hp).
Defined.

(** On a disk without the table directory [Open] fails at the index
    writer, and [Close] then panics. *)
Example failed_Open_then_Close_panics :
  snd (Close (snd (fst (Open (Sim.new_writer []) (Sim.disk [] []))))
         (fst (fst (Open (Sim.new_writer []) (Sim.disk [] [])))))
    = Panic.
Proof. vm_compute. reflexivity. Qed.

Lemma run_bloom_history_witness :
  written Sim.calls_ab (snd (Sim.after_run Sim.fault_data_write_0 Sim.calls_ab))
    = [Sim.key_b] /\
  bloomFilter (snd (fst (Sim.after_run Sim.fault_data_write_0 Sim.calls_ab)))
    = Some ([fnv.New64 (elems Sim.key_a); fnv.New64 (elems Sim.key_b)] : @Filter Sim.env) /\
  incl (written Sim.calls_ab (snd (Sim.after_run Sim.fault_data_write_0 Sim.calls_ab)))
       (accepted Sim.calls_ab (Sim.tbl_writer Sim.fault_data_write_0)
          (Sim.tbl_disk Sim.fault_data_write_0)).
Proof.
  assert (Hnp : ~ In Panic (snd (Sim.after_run Sim.fault_data_write_0 Sim.calls_ab))).
  { vm_compute. intuition discriminate. }
  destruct (run_bloom_history (E := Sim.env) Sim.calls_ab
              (Sim.tbl_writer Sim.fault_data_write_0) (Sim.tbl_disk Sim.fault_data_write_0)
              (fst (fst (Sim.after_run Sim.fault_data_write_0 Sim.calls_ab)))
              (snd (fst (Sim.after_run Sim.fault_data_write_0 Sim.calls_ab)))
              (snd (Sim.after_run Sim.fault_data_write_0 Sim.calls_ab))
              (triple_eta (Sim.after_run Sim.fault_data_write_0 Sim.calls_ab)) Hnp)
    as [Hb Hincl].
  split; [vm_compute; reflexivity|].
  split; [rewrite Hb; vm_compute; reflexivity|exact Hincl].
Defined.

Lemma bloom_filter_always_enabled_witness :
  enableBloomFilter (opts (Sim.new_writer [])) = true /\
  bloomFilter (Sim.tbl_writer []) <> None.
Proof.
  destruct (bloom_filter_always_enabled (E := Sim.env)
              [CallWriteBasePath "tbl"; CallWithKeyComparator Sim.BytesComparator]
              (Sim.new_writer []) (Sim.disk ["tbl"] [])
              (Sim.tbl_disk []) (Sim.tbl_writer [])
              ltac:(vm_compute; reflexivity))
    as [Hen Hbf].
  split; [exact Hen|].
  exact (Hbf (outcome_eta (Open (Sim.new_writer []) (Sim.disk ["tbl"] [])) Ok
                ltac:(vm_compute; reflexivity))).
Defined.

Lemma WriteSkipListMap_succeeds_iff_witness :
  exists st0 w0 st1 w1 os,
    Open (streamWriter Sim.simple_writer) (Sim.disk ["tbl"] []) = (st0, w0, Ok) /\
    run (pairs Sim.map_abc) w0 st0 = (st1, w1, os) /\ Forall (eq Ok) os /\
    after Sim.map_abc = None /\
    Close w1 st1
      = (fst (fst (WriteSkipListMap Sim.simple_writer Sim.map_abc (Sim.disk ["tbl"] []))),
         streamWriter
           (snd (fst (WriteSkipListMap Sim.simple_writer Sim.map_abc (Sim.disk ["tbl"] [])))),
         Ok).
Proof.
  exact (proj1 (WriteSkipListMap_succeeds_iff (E := Sim.env)
                  Sim.simple_writer Sim.map_abc (Sim.disk ["tbl"] [])
                  (fst (fst (WriteSkipListMap Sim.simple_writer Sim.map_abc
                               (Sim.disk ["tbl"] []))))
                  (snd (fst (WriteSkipListMap Sim.simple_writer Sim.map_abc
                               (Sim.disk ["tbl"] [])))))
           (outcome_eta (WriteSkipListMap Sim.simple_writer Sim.map_abc (Sim.disk ["tbl"] []))
              Ok ltac:(vm_compute; reflexivity))).
Defined.

Lemma WriteSkipListMap_stops_at_first_failure_witness :
  snd (WriteSkipListMap Sim.simple_writer Sim.map_abc (Sim.disk ["tbl"] Sim.fault_data_write_1))
    = Err (joinError
             [errIn "error in writing skiplist record" "tbl"
                (Some (errIn "error writeNext data writer error" "tbl" (Some Sim.EIO)))]) /\
  map snd
    (Sim.rio_records
       (Sim.data
          (fst (fst (WriteSkipListMap Sim.simple_writer Sim.map_abc
                       (Sim.disk ["tbl"] Sim.fault_data_write_1))))))
    = [Sim.val_1].
Proof.
  assert (HO := outcome_eta
                  (Open (streamWriter Sim.simple_writer)
                     (Sim.disk ["tbl"] Sim.fault_data_write_1))
                  Ok ltac:(vm_compute; reflexivity)).
  assert (Hall : Forall (eq Ok)
                   (snd (run [(Sim.key_a, Sim.val_1)]
                           (snd (fst (Open (streamWriter Sim.simple_writer)
                                        (Sim.disk ["tbl"] Sim.fault_data_write_1))))
                           (fst (fst (Open (streamWriter Sim.simple_writer)
                                        (Sim.disk ["tbl"] Sim.fault_data_write_1))))))).
  { vm_compute. repeat constructor. }
  assert (HW := outcome_eta
                  (WriteNext
                     (snd (fst (run [(Sim.key_a, Sim.val_1)]
                                  (snd (fst (Open (streamWriter Sim.simple_writer)
                                               (Sim.disk ["tbl"] Sim.fault_data_write_1))))
                                  (fst (fst (Open (streamWriter Sim.simple_writer)
                                               (Sim.disk ["tbl"] Sim.fault_data_write_1)))))))
                     Sim.key_b Sim.val_2
                     (fst (fst (run [(Sim.key_a, Sim.val_1)]
                                  (snd (fst (Open (streamWriter Sim.simple_writer)
                                               (Sim.disk ["tbl"] Sim.fault_data_write_1))))
                                  (fst (fst (Open (streamWriter Sim.simple_writer)
                                               (Sim.disk ["tbl"] Sim.fault_data_write_1))))))))
                  (Err (errIn "error writeNext data writer error" "tbl" (Some Sim.EIO)))
                  ltac:(vm_compute; reflexivity)).
  rewrite (WriteSkipListMap_stops_at_first_failure (E := Sim.env)
             Sim.simple_writer Sim.map_abc (Sim.disk ["tbl"] Sim.fault_data_write_1)
             (fst (fst (Open (streamWriter Sim.simple_writer)
                          (Sim.disk ["tbl"] Sim.fault_data_write_1))))
             (snd (fst (Open (streamWriter Sim.simple_writer)
                          (Sim.disk ["tbl"] Sim.fault_data_write_1))))
             [(Sim.key_a, Sim.val_1)] Sim.key_b Sim.val_2 [(Sim.key_c, None)]
             _ _ _ _ _
             (errIn "error writeNext data writer error" "tbl" (Some Sim.EIO))
             HO ltac:(reflexivity) (triple_eta _) Hall HW).
  split; vm_compute; reflexivity.
Defined.

Lemma WriteSkipListMap_iterator_failure_witness :
  snd (WriteSkipListMap Sim.simple_writer (mkMapI [(Sim.key_a, Sim.val_1)] (Some Sim.EIO))
         (Sim.disk ["tbl"] []))
    = Err (joinError
             [errIn "error in getting next skiplist record" "tbl" (Some Sim.EIO)]) /\
  map snd
    (Sim.rio_records
       (Sim.data
          (fst (fst (WriteSkipListMap Sim.simple_writer
                       (mkMapI [(Sim.key_a, Sim.val_1)] (Some Sim.EIO))
                       (Sim.disk ["tbl"] []))))))
    = [Sim.val_1].
Proof.
  assert (HO := outcome_eta
                  (Open (streamWriter Sim.simple_writer) (Sim.disk ["tbl"] []))
                  Ok ltac:(vm_compute; reflexivity)).
  assert (Hall : Forall (eq Ok)
                   (snd (run [(Sim.key_a, Sim.val_1)]
                           (snd (fst (Open (streamWriter Sim.simple_writer)
                                        (Sim.disk ["tbl"] []))))
                           (fst (fst (Open (streamWriter Sim.simple_writer)
                                        (Sim.disk ["tbl"] []))))))).
  { vm_compute. repeat constructor. }
  rewrite (WriteSkipListMap_iterator_failure (E := Sim.env)
             Sim.simple_writer (mkMapI [(Sim.key_a, Sim.val_1)] (Some Sim.EIO))
             (Sim.disk ["tbl"] [])
             (fst (fst (Open (streamWriter Sim.simple_writer) (Sim.disk ["tbl"] []))))
             (snd (fst (Open (streamWriter Sim.simple_writer) (Sim.disk ["tbl"] []))))
             (fst (fst (run [(Sim.key_a, Sim.val_1)]
                          (snd (fst (Open (streamWriter Sim.simple_writer)
                                       (Sim.disk ["tbl"] []))))
                          (fst (fst (Open (streamWriter Sim.simple_writer)
                                       (Sim.disk ["tbl"] [])))))))
             (snd (fst (run [(Sim.key_a, Sim.val_1)]
                          (snd (fst (Open (streamWriter Sim.simple_writer)
                                       (Sim.disk ["tbl"] []))))
                          (fst (fst (Open (streamWriter Sim.simple_writer)
                                       (Sim.disk ["tbl"] [])))))))
             (snd (run [(Sim.key_a, Sim.val_1)]
                     (snd (fst (Open (streamWriter Sim.simple_writer)
                                  (Sim.disk ["tbl"] []))))
                     (fst (fst (Open (streamWriter Sim.simple_writer)
                                  (Sim.disk ["tbl"] []))))))
             Sim.EIO
             HO (triple_eta _) Hall ltac:(reflexivity)).
  split; vm_compute; reflexivity.
Defined.

Lemma WriteSkipListMap_empty_map_witness :
  snd (WriteSkipListMap Sim.simple_writer (mkMapI [] None) (Sim.disk ["tbl"] [])) = Ok /\
  exists md,
    metaData
      (streamWriter
         (snd (fst (WriteSkipListMap Sim.simple_writer (mkMapI [] None)
                      (Sim.disk ["tbl"] [])))))
      = Some md /\
    sProto.NumRecords md = 0 /\ sProto.NullValues md = 0 /\
    sProto.MinKey md = None /\ sProto.MaxKey md = None /\
    forall bytes,
      proto_Marshal md = Val bytes ->
      fst (fst (WriteSkipListMap Sim.simple_writer (mkMapI [] None) (Sim.disk ["tbl"] [])))
        = fst (file_Close (Env := Sim.env) "tbl/meta"
                 (fst (file_Write (Env := Sim.env) "tbl/meta" bytes
                         (closed_world
                            (snd (fst (Open (streamWriter Sim.simple_writer)
                                         (Sim.disk ["tbl"] []))))
                            "tbl/index" "tbl/data"
                            (fst (fst (Open (streamWriter Sim.simple_writer)
                                         (Sim.disk ["tbl"] [])))))))).
Proof.
  assert (Hiw : indexWriter
                  (snd (fst (Open (streamWriter Sim.simple_writer) (Sim.disk ["tbl"] []))))
                = Some "tbl/index") by (vm_compute; reflexivity).
  assert (Hdw : dataWriter
                  (snd (fst (Open (streamWriter Sim.simple_writer) (Sim.disk ["tbl"] []))))
                = Some "tbl/data") by (vm_compute; reflexivity).
  assert (Hfw : metaDataFile
                  (snd (fst (Open (streamWriter Sim.simple_writer) (Sim.disk ["tbl"] []))))
                = Some "tbl/meta") by (vm_compute; reflexivity).
  destruct (WriteSkipListMap_empty_map (E := Sim.env)
              Sim.simple_options Sim.simple_writer (mkMapI [] None) (Sim.disk ["tbl"] [])
              (fst (fst (Open (streamWriter Sim.simple_writer) (Sim.disk ["tbl"] []))))
              (snd (fst (Open (streamWriter Sim.simple_writer) (Sim.disk ["tbl"] []))))
              ltac:(vm_compute; reflexivity) ltac:(reflexivity) ltac:(reflexivity)
              (outcome_eta (Open (streamWriter Sim.simple_writer) (Sim.disk ["tbl"] [])) Ok
                 ltac:(vm_compute; reflexivity)))
    as [HW (iw & dw & f & md & Hiw' & Hdw' & Hfw' & Hmd & _ & Hbytes & _
            & _ & Hn & Hz & Hmin & Hmax)].
  split; [rewrite HW; vm_compute; reflexivity|].
  exists md. split; [rewrite HW; exact Hmd|].
  split; [exact Hn|]. split; [exact Hz|]. split; [exact Hmin|]. split; [exact Hmax|].
  pose proof (Some_eq Hiw' Hiw) as Ei.
  pose proof (Some_eq Hdw' Hdw) as Ed.
  pose proof (Some_eq Hfw' Hfw) as Ef.
  subst iw dw f. exact Hbytes.
Defined.

(** The bytes of the meta file of the empty table, in the encoding of the
    disk: the version, no record, no nil value, two keys of length 0, and
    the sizes of the two files, which hold their headers only. *)
Example WriteSkipListMap_empty_map_written :
  Sim.meta_content
    (Sim.meta (fst (fst (WriteSkipListMap Sim.simple_writer (mkMapI [] None)
                           (Sim.disk ["tbl"] [])))))
    = Some [x01; x00; x00; x00; x00; x06; x06; x0c].
Proof. vm_compute. reflexivity. Qed.

Lemma Sim_run_keeps_files_in_step_witness :
  written Sim.calls_abc (snd (Sim.after_run Sim.fault_index_write Sim.calls_abc))
    = [Sim.key_b; Sim.key_c] /\
  Sim.in_step (fst (fst (Sim.after_run Sim.fault_index_write Sim.calls_abc))) /\
  map snd
    (Sim.rio_records (Sim.data (fst (fst (Sim.after_run Sim.fault_index_write Sim.calls_abc)))))
    = [Sim.val_2; None] /\
  map (fun r => sProto.Key (snd r))
    (Sim.rio_records (Sim.index (fst (fst (Sim.after_run Sim.fault_index_write Sim.calls_abc)))))
    = [Sim.key_b; Sim.key_c].
Proof.
  assert (Ho : opened (Sim.tbl_writer Sim.fault_index_write)).
  { repeat split; try (vm_compute; discriminate). }
  assert (Hk : keyComparator (opts (Sim.tbl_writer Sim.fault_index_write)) <> None)
    by (vm_compute; discriminate).
  assert (Hseek : Sim.seek_works (Sim.tbl_disk Sim.fault_index_write)).
  { intros n. vm_compute. intros [H|[]]. discriminate H. }
  assert (Hstep : Sim.in_step (Sim.tbl_disk Sim.fault_index_write)).
  { split; [vm_compute; reflexivity|]. vm_compute. constructor. }
  destruct (Sim_run_keeps_files_in_step Sim.calls_abc
              (Sim.tbl_writer Sim.fault_index_write) (Sim.tbl_disk Sim.fault_index_write)
              (fst (fst (Sim.after_run Sim.fault_index_write Sim.calls_abc)))
              (snd (fst (Sim.after_run Sim.fault_index_write Sim.calls_abc)))
              (snd (Sim.after_run Sim.fault_index_write Sim.calls_abc))
              Ho Hk Hseek Hstep
              (triple_eta (Sim.after_run Sim.fault_index_write Sim.calls_abc)))
    as (Hstep' & Hd & Hi).
  split; [vm_compute; reflexivity|]. split; [exact Hstep'|].
  split; [rewrite Hd|rewrite Hi]; vm_compute; reflexivity.
Defined.

Lemma Sim_sorted_map_is_written_witness :
  snd (WriteSkipListMap Sim.simple_writer Sim.map_abc (Sim.disk ["tbl"] [])) = Ok /\
  map snd
    (Sim.rio_records
       (Sim.data (fst (fst (WriteSkipListMap Sim.simple_writer Sim.map_abc
                              (Sim.disk ["tbl"] []))))))
    = map snd (pairs Sim.map_abc) /\
  map (fun r => sProto.Key (snd r))
    (Sim.rio_records
       (Sim.index (fst (fst (WriteSkipListMap Sim.simple_writer Sim.map_abc
                               (Sim.disk ["tbl"] []))))))
    = map fst (pairs Sim.map_abc).
Proof.
  assert (Hnew : NewSSTableSimpleWriter Sim.simple_options = Val Sim.simple_writer)
    by (vm_compute; reflexivity).
  assert (Hk : keyComparator (opts (streamWriter Sim.simple_writer))
               = Some Sim.BytesComparator) by (vm_compute; reflexivity).
  assert (Hdir : Sim.dir_exists (Sim.disk ["tbl"] [])
                   (basePath (opts (streamWriter Sim.simple_writer))) = true)
    by (vm_compute; reflexivity).
  assert (Hsorted : StronglySorted (fun a b => Sim.BytesComparator a b < 0)
                      (map fst (pairs Sim.map_abc))).
  { repeat constructor; vm_compute; reflexivity. }
  destruct (Sim_sorted_map_is_written Sim.BytesComparator Sim.simple_options
              Sim.simple_writer Sim.map_abc (Sim.disk ["tbl"] [])
              BytesComparator_ok Hnew Hk ltac:(reflexivity) Hdir Hsorted ltac:(reflexivity))
    as (d' & sw' & HW & Hdata & Hidx & _).
  rewrite HW. split; [reflexivity|]. split; [exact Hdata|exact Hidx].
Defined.
